(** * tag-patrol: tag policy resolution, rule evaluation and scan orchestration

    A shallow embedding of the Go packages [cloudresource], [policy/types],
    [ruler], [policy] and [patrol], followed by the properties of the
    specification that are settled on it.

    Conventions of the embedding.
    - A Go [string] is a [string]; a Go [int] is a [Z] (64-bit platform:
      only [strconv.Atoi] observes the width, through its range error).
    - A Go map is a [gmap]; where the code or the struct validator tells a
      nil map or slice from an empty one, the field is an [option]
      ([None] is nil).  Iteration over a Go map has no specified order; the
      embedding iterates in the order of [map_to_list].
    - A pointer that the code tests against nil is an [option]; a pointer
      the code dereferences without a test is taken non-nil, except in
      [processResource], whose dereferences are modelled ([None] is the
      run-time panic).
    - A method mutating its receiver becomes a function returning the new
      receiver. *)

From Stdlib Require Import ZArith String Ascii List Lia Bool Permutation.
From stdpp Require Import base option list gmap strings fin_maps fin_sets pretty.

Local Open Scope string_scope.
Local Open Scope list_scope.
Local Open Scope Z_scope.
Local Set Warnings "-register-all,-clear-no-such-hyp".

(** ** The Go standard library and third-party functions the code calls

    Functions whose behaviour is fixed outside the repository and is not
    reproduced here are the fields of one interface; every property below
    holds for every implementation of it. *)
Class GoLib := {
  (** [regexp.Regexp], [regexp.Compile] ([None]: the pattern is rejected)
      and its method [MatchString]. *)
  Regexp : Type;
  regexp_Compile : string → option Regexp;
  MatchString : Regexp → string → bool;
  (** [float64], [strconv.ParseFloat(s, 64)] and the comparisons [>], [<]. *)
  float64 : Type;
  ParseFloat : string → option float64;
  float64_gt : float64 → float64 → bool;
  float64_lt : float64 → float64 → bool;
  (** The dynamic type [any] of a decoded YAML scalar and its rendering by
      [fmt.Sprintf("%v", _)]. *)
  any : Type;
  Sprintf_v : any → string;
  (** Whether the validator's [required] tag accepts a value of type [any]
      (a nil interface is refused) or a [float64] (zero is refused). *)
  required_any : any → bool;
  required_float64 : float64 → bool;
  (** [strings.TrimSpace]. *)
  TrimSpace : string → string;
  (** The English message the validator's stock translations give for an
      error of a built-in tag (tag, field name, parameter). *)
  builtin_translation : string → string → string → string
}.

(** ** Package [strings] and [strconv] *)
Module strings.

(** [strings.HasPrefix(s, prefix)]. *)
Fixpoint HasPrefix (s prefix : string) {struct prefix} : bool :=
  match prefix, s with
  | EmptyString, _ => true
  | String _ _, EmptyString => false
  | String a p', String b s' => if Ascii.eqb a b then HasPrefix s' p' else false
  end.

(** [strings.Contains(s, substr)]. *)
Fixpoint Contains (s substr : string) : bool :=
  if HasPrefix s substr then true
  else match s with
       | EmptyString => false
       | String _ s' => Contains s' substr
       end.

(** [strings.Join(elems, sep)]. *)
Fixpoint Join (elems : list string) (sep : string) : string :=
  match elems with
  | [] => ""
  | [e] => e
  | e :: rest => e +:+ sep +:+ Join rest sep
  end.

(** [strings.Split(s, sep)] for a one-byte separator: the fields between
    the occurrences of [sep], always at least one. *)
Fixpoint split_from (cur : string) (s : string) (sep : ascii) : list string :=
  match s with
  | EmptyString => [String.rev cur]
  | String a s' =>
      if Ascii.eqb a sep then String.rev cur :: split_from "" s' sep
      else split_from (String a cur) s' sep
  end.

Definition Split (s : string) (sep : ascii) : list string := split_from "" s sep.

(** [slices.Contains] on strings. *)
Definition slices_Contains (l : list string) (v : string) : bool :=
  existsb (String.eqb v) l.

End strings.

Module strconv.

Definition digit (a : ascii) : option Z :=
  let n := Z.of_N (N_of_ascii a) in
  if (48 <=? n) && (n <=? 57) then Some (n - 48) else None.

Fixpoint digits (s : string) (acc : Z) : option Z :=
  match s with
  | EmptyString => Some acc
  | String a s' =>
      match digit a with
      | Some d => digits s' (acc * 10 + d)
      | None => None
      end
  end.

Definition MinInt : Z := - 2 ^ 63.
Definition MaxInt : Z := 2 ^ 63 - 1.

(** [strconv.Atoi]: an optional sign, then one or more decimal digits;
    a value outside the range of [int] is an error as well.  [None] is
    any non-nil error. *)
Definition Atoi (s : string) : option Z :=
  match s with
  | EmptyString => None
  | String c rest =>
      let '(neg, body) :=
        if Ascii.eqb c "-" then (true, rest)
        else if Ascii.eqb c "+" then (false, rest)
        else (false, s) in
      match body with
      | EmptyString => None
      | _ =>
          match digits body 0 with
          | None => None
          | Some n =>
              let v := if neg then - n else n in
              if (MinInt <=? v) && (v <=? MaxInt) then Some v else None
          end
      end
  end.

(** [fmt.Sprintf("%d", n)]. *)
Definition FormatInt (n : Z) : string := pretty n.

End strconv.

(** ** Package [cloudresource] and its AWS implementation *)
Module cloudresource.

Record ComplianceError := { Message : string }.
Record ComplianceWarning := { WarningMessage : string }.

(** [aws.AWSResource], the implementation of the [CloudResource]
    interface in the repository. *)
Record AWSResource := {
  ResourceARN : string;
  ResourceType : string;
  ServiceName : string;
  AccountID : string;
  ResourceRegion : string;
  ResourceTags : gmap string string;
  Errors : list ComplianceError;
  Warnings : list ComplianceWarning
}.

Definition Tags (r : AWSResource) : gmap string string := ResourceTags r.

Definition IsCompliant (r : AWSResource) : bool :=
  (length (Errors r) =? 0)%nat.

Definition AddComplianceError (r : AWSResource) (msg : string) : AWSResource :=
  {| ResourceARN := ResourceARN r; ResourceType := ResourceType r;
     ServiceName := ServiceName r; AccountID := AccountID r;
     ResourceRegion := ResourceRegion r; ResourceTags := ResourceTags r;
     Errors := Errors r ++ [ {| Message := msg |} ];
     Warnings := Warnings r |}.

Definition AddComplianceWarning (r : AWSResource) (msg : string) : AWSResource :=
  {| ResourceARN := ResourceARN r; ResourceType := ResourceType r;
     ServiceName := ServiceName r; AccountID := AccountID r;
     ResourceRegion := ResourceRegion r; ResourceTags := ResourceTags r;
     Errors := Errors r;
     Warnings := Warnings r ++ [ {| WarningMessage := msg |} ] |}.

Definition ComplianceErrors (r : AWSResource) : list ComplianceError := Errors r.
Definition ComplianceWarnings (r : AWSResource) : list ComplianceWarning := Warnings r.

(** The messages of the recorded errors and warnings, in order. *)
Definition error_messages (r : AWSResource) : list string :=
  map Message (ComplianceErrors r).
Definition warning_messages (r : AWSResource) : list string :=
  map WarningMessage (ComplianceWarnings r).

(** A resource as the discovery client creates it: tags, no findings. *)
Definition fresh (arn : string) (tags : gmap string string) : AWSResource :=
  {| ResourceARN := arn; ResourceType := ""; ServiceName := "";
     AccountID := ""; ResourceRegion := ""; ResourceTags := tags;
     Errors := []; Warnings := [] |}.

(** One mutation of the compliance state. *)
Inductive Mutation :=
| MutError (msg : string)
| MutWarning (msg : string).

Definition mutate (r : AWSResource) (m : Mutation) : AWSResource :=
  match m with
  | MutError msg => AddComplianceError r msg
  | MutWarning msg => AddComplianceWarning r msg
  end.

Definition mutate_all (r : AWSResource) (ms : list Mutation) : AWSResource :=
  foldl mutate r ms.

(** The errors a sequence of mutations records, in order. *)
Definition recorded_errors (ms : list Mutation) : list ComplianceError :=
  omap (fun m => match m with
                 | MutError msg => Some {| Message := msg |}
                 | MutWarning _ => None
                 end) ms.

End cloudresource.

(** ** Package [policy/types] *)
Module types.

(** [TagType] is a Go string type; any string can be decoded into it. *)
Definition TagType := string.
Definition TagTypeString : TagType := "string".
Definition TagTypeBool : TagType := "bool".
Definition TagTypeInt : TagType := "int".

Record Validation := {
  Type_ : TagType;
  AllowedValues : list string;
  Regex : string;
  MinValue : Z;
  MaxValue : Z
}.

Record Action := {
  MustContainKeys : list string;
  ShouldContainKeys : list string;
  Warn : string;
  Error : string
}.

Section WithGoLib.
Context `{!GoLib}.

Record ExistsCondition := { Exists_Key : string }.
Record EqualsCondition := { Equals_Key : string; Equals_Value : any }.
Record ContainsCondition := { Contains_Key : string; Contains_Value : string }.
Record NumericCondition := { Numeric_Key : string; Numeric_Value : float64 }.

(** [Condition]: every operator is a nil-able pointer; [And] and [Or]
    are slices of pointers whose nil-ness the validator observes. *)
Inductive Condition := mkCondition {
  Exists : option ExistsCondition;
  Equals : option EqualsCondition;
  NotEquals : option EqualsCondition;
  Contains : option ContainsCondition;
  GreaterThan : option NumericCondition;
  LessThan : option NumericCondition;
  And : option (list (option Condition));
  Or : option (list (option Condition))
}.

Record Rule := {
  When : option Condition;
  Then : option Action
}.

Record TagPolicy := {
  MandatoryKeys : list string;
  Validations : gmap string Validation;
  Rules : list Rule
}.

(** [Blueprint] and [ResourceConfig] embed a [*TagPolicy]. *)
Record Blueprint := { Blueprint_TagPolicy : option TagPolicy }.

Record ResourceConfig := {
  Config_TagPolicy : option TagPolicy;
  Extends : list string
}.

Record Policy := {
  Blueprints : option (gmap string (option Blueprint));
  Resources : option (gmap string (option (gmap string (option ResourceConfig))))
}.

Record ResourceDefinition := {
  Service : string;
  ResourceType : string;
  RD_TagPolicy : TagPolicy
}.

(** [len] of a slice that may be nil. *)
Definition len {A} (s : option (list A)) : nat :=
  match s with None => 0%nat | Some l => length l end.

(** The elements a [range] over a slice that may be nil visits. *)
Definition elems {A} (s : option (list A)) : list A :=
  match s with None => [] | Some l => l end.

End WithGoLib.

End types.

(** ** Package [ruler] *)
Module ruler.
Import cloudresource types.

Section WithGoLib.
Context `{!GoLib}.

Definition has_tag (resource : AWSResource) (key : string) : bool :=
  bool_decide (is_Some (Tags resource !! key)).

Definition validateMandatoryKeys (resource : AWSResource) (keys : list string)
  : AWSResource :=
  foldl (fun r key =>
           if has_tag r key then r
           else AddComplianceError r ("Missing mandatory tag: `" +:+ key +:+ "`"))
        resource keys.

Definition allowed_values_error (key value : string) (validation : Validation) : string :=
  "Tag `" +:+ key +:+ "` has value `" +:+ value +:+
  "` which is not in allowed values: `" +:+
  strings.Join (AllowedValues validation) ", " +:+ "`".

Definition regex_error (key value : string) (validation : Validation) : string :=
  "Tag `" +:+ key +:+ "` with value `" +:+ value +:+
  "` does not match regex: `" +:+ Regex validation +:+ "`".

Definition validateString (resource : AWSResource) (key value : string)
           (validation : Validation) : AWSResource :=
  let resource :=
    if (0 <? length (AllowedValues validation))%nat then
      let valid := strings.slices_Contains (AllowedValues validation) value in
      if negb valid then
        AddComplianceError resource (allowed_values_error key value validation)
      else resource
    else resource in
  if negb (String.eqb (Regex validation) "") then
    match regexp_Compile (Regex validation) with
    | Some regex =>
        if negb (MatchString regex value) then
          AddComplianceError resource (regex_error key value validation)
        else resource
    | None => resource
    end
  else resource.

Definition bool_error (key value : string) : string :=
  "Tag `" +:+ key +:+ "` has value `" +:+ value +:+ "` which is not a valid boolean".

Definition validateBool (resource : AWSResource) (key value : string) : AWSResource :=
  let valid := strings.slices_Contains ["true"; "false"] value in
  if negb valid then AddComplianceError resource (bool_error key value)
  else resource.

Definition not_integer_error (key value : string) : string :=
  "Tag `" +:+ key +:+ "` has value `" +:+ value +:+ "` which is not a valid integer".

Definition less_than_minimum_error (key : string) (intVal : Z) (validation : Validation)
  : string :=
  "Tag `" +:+ key +:+ "` has value `" +:+ strconv.FormatInt intVal +:+
  "` which is less than minimum: " +:+ strconv.FormatInt (MinValue validation).

Definition greater_than_maximum_error (key : string) (intVal : Z) (validation : Validation)
  : string :=
  "Tag `" +:+ key +:+ "` has value `" +:+ strconv.FormatInt intVal +:+
  "` which is greater than maximum: " +:+ strconv.FormatInt (MaxValue validation).

Definition validateInt (resource : AWSResource) (key value : string)
           (validation : Validation) : AWSResource :=
  match strconv.Atoi value with
  | None => AddComplianceError resource (not_integer_error key value)
  | Some intVal =>
      let resource :=
        if negb (MinValue validation =? 0) && (intVal <? MinValue validation) then
          AddComplianceError resource (less_than_minimum_error key intVal validation)
        else resource in
      let resource :=
        if negb (MaxValue validation =? 0) && (intVal >? MaxValue validation) then
          AddComplianceError resource (greater_than_maximum_error key intVal validation)
        else resource in
      if (0 <? length (AllowedValues validation))%nat then
        if negb (strings.slices_Contains (AllowedValues validation) value) then
          AddComplianceError resource (allowed_values_error key value validation)
        else resource
      else resource
  end.

(** The body of the loop of [validateTagValues] for one map entry. *)
Definition validateTagValue (resource : AWSResource) (entry : string * Validation)
  : AWSResource :=
  let '(key, validation) := entry in
  match Tags resource !! key with
  | None => resource
  | Some value =>
      if String.eqb (Type_ validation) TagTypeString then
        validateString resource key value validation
      else if String.eqb (Type_ validation) TagTypeBool then
        validateBool resource key value
      else if String.eqb (Type_ validation) TagTypeInt then
        validateInt resource key value validation
      else resource
  end.

Definition validateTagValues (resource : AWSResource)
           (validations : gmap string Validation) : AWSResource :=
  foldl validateTagValue resource (map_to_list validations).

(** [evaluateCondition] on a non-nil condition.  A sub-condition of
    [And] or [Or] goes through the nil test of [evaluateCondition]
    again, written out here at each element. *)
Fixpoint evaluate (resource : AWSResource) (condition : Condition) {struct condition}
  : bool :=
  match condition with
  | mkCondition cExists cEquals cNotEquals cContains cGreaterThan cLessThan cAnd cOr =>
      match cExists with
      | Some c => bool_decide (is_Some (Tags resource !! Exists_Key c))
      | None =>
      match cEquals with
      | Some c =>
          match Tags resource !! Equals_Key c with
          | None => false
          | Some value => String.eqb value (Sprintf_v (Equals_Value c))
          end
      | None =>
      match cNotEquals with
      | Some c =>
          match Tags resource !! Equals_Key c with
          | None => true
          | Some value => negb (String.eqb value (Sprintf_v (Equals_Value c)))
          end
      | None =>
      match cContains with
      | Some c =>
          match Tags resource !! Contains_Key c with
          | None => false
          | Some value => strings.Contains value (Contains_Value c)
          end
      | None =>
      match cGreaterThan with
      | Some c =>
          match Tags resource !! Numeric_Key c with
          | None => false
          | Some value =>
              match ParseFloat value with
              | None => false
              | Some numValue => float64_gt numValue (Numeric_Value c)
              end
          end
      | None =>
      match cLessThan with
      | Some c =>
          match Tags resource !! Numeric_Key c with
          | None => false
          | Some value =>
              match ParseFloat value with
              | None => false
              | Some numValue => float64_lt numValue (Numeric_Value c)
              end
          end
      | None =>
      match cAnd with
      | Some (sub :: subs) =>
          forallb (fun subCondition =>
                     match subCondition with
                     | None => false
                     | Some c => evaluate resource c
                     end) (sub :: subs)
      | _ =>
      match cOr with
      | Some (sub :: subs) =>
          existsb (fun subCondition =>
                     match subCondition with
                     | None => false
                     | Some c => evaluate resource c
                     end) (sub :: subs)
      | _ => false
      end end end end end end end end
  end.

Definition evaluateCondition (resource : AWSResource) (condition : option Condition)
  : bool :=
  match condition with
  | None => false
  | Some c => evaluate resource c
  end.

Definition applyAction (resource : AWSResource) (action : option Action) : AWSResource :=
  match action with
  | None => resource
  | Some action =>
      let resource :=
        foldl (fun r key =>
                 if has_tag r key then r
                 else AddComplianceError r
                        ("Missing required tag `" +:+ key +:+ "` based on rule condition"))
              resource (MustContainKeys action) in
      let resource :=
        foldl (fun r key =>
                 if has_tag r key then r
                 else AddComplianceWarning r
                        ("Missing recommended tag `" +:+ key +:+ "` based on rule condition"))
              resource (ShouldContainKeys action) in
      let resource :=
        if negb (String.eqb (Error action) "") then
          AddComplianceError resource (Error action)
        else resource in
      if negb (String.eqb (Warn action) "") then
        AddComplianceWarning resource (Warn action)
      else resource
  end.

Definition applyRule (resource : AWSResource) (rule : Rule) : AWSResource :=
  if evaluateCondition resource (When rule) then applyAction resource (Then rule)
  else resource.

Definition applyRules (resource : AWSResource) (rules : list Rule) : AWSResource :=
  foldl applyRule resource rules.

Definition Validate (resource : AWSResource) (policy : TagPolicy) : AWSResource :=
  let resource := validateMandatoryKeys resource (MandatoryKeys policy) in
  let resource := validateTagValues resource (Validations policy) in
  applyRules resource (Rules policy).

(** [ValidateAll]: the resources after validation and the two counts. *)
Definition ValidateAll (resources : list AWSResource) (policy : TagPolicy)
  : list AWSResource * Z * Z :=
  foldl (fun (acc : list AWSResource * Z * Z) resource =>
           let '(validated, compliant, nonCompliant) := acc in
           let resource := Validate resource policy in
           if IsCompliant resource
           then (validated ++ [resource], compliant + 1, nonCompliant)
           else (validated ++ [resource], compliant, nonCompliant + 1))
        ([], 0, 0) resources.

End WithGoLib.

End ruler.

(** ** Package [policy]: the resolver *)
Module policy.
Import types.

(** A panic-free run of a loop body that can panic: [None] is the panic. *)
Fixpoint foldM {A B} (f : A → B → option A) (a : A) (l : list B) : option A :=
  match l with
  | [] => Some a
  | b :: l' => match f a b with Some a' => foldM f a' l' | None => None end
  end.

Section WithGoLib.
Context `{!GoLib}.

Definition empty_TagPolicy : TagPolicy :=
  {| MandatoryKeys := []; Validations := ∅; Rules := [] |}.

(** The local state of [processResource]: the map [resourceKeys] (every
    value stored in it is [true], so it is a set of keys), and the
    validations and rules of the definition under construction. *)
Record merge_state := {
  resourceKeys : gset string;
  definition_Validations : gmap string Validation;
  definition_Rules : list Rule
}.

Definition add_key (keys : gset string) (key : string) : gset string :=
  {[ key ]} ∪ keys.

(** [parts[1]] of the trimmed path split at the dots; [None] when the
    index is out of range. *)
Definition blueprint_name (extendPath : string) : option string :=
  strings.Split (TrimSpace extendPath) "." !! 1%nat.

(** [config.Blueprints[name]] followed by the dereference of the
    blueprint and of its embedded policy; [None] when either is nil. *)
Definition lookup_blueprint (blueprints : gmap string (option Blueprint))
           (name : string) : option TagPolicy :=
  match blueprints !! name with
  | Some (Some blueprint) => Blueprint_TagPolicy blueprint
  | _ => None
  end.

(** The body of the loop over [resourceConfig.Extends]. *)
Definition extend (blueprints : gmap string (option Blueprint)) (own : TagPolicy)
           (st : merge_state) (extendPath : string) : option merge_state :=
  match blueprint_name extendPath with
  | None => None
  | Some name =>
      match lookup_blueprint blueprints name with
      | None => None
      | Some blueprint =>
          Some {| resourceKeys :=
                    foldl (fun keys key =>
                             if bool_decide (key ∈ keys) then keys else add_key keys key)
                          (resourceKeys st) (MandatoryKeys blueprint);
                  definition_Validations :=
                    foldl (fun vs '(key, validation) =>
                             match Validations own !! key with
                             | None => <[ key := validation ]> vs
                             | Some _ => vs
                             end)
                          (definition_Validations st)
                          (map_to_list (Validations blueprint));
                  definition_Rules := definition_Rules st ++ Rules blueprint |}
      end
  end.

(** [processResource].  The result is [None] when the Go code panics
    (index out of range on [parts[1]], nil blueprint); the returned
    error of the Go function is nil on every path.  The assignment of
    an empty policy to a nil [resourceConfig.TagPolicy] only matters
    through the reads that follow it, which [own] stands for. *)
Definition processResource (config : Policy) (service resourceType : string)
           (resourceConfig : option ResourceConfig) : option ResourceDefinition :=
  match resourceConfig with
  | None =>
      Some {| Service := service; ResourceType := resourceType;
              RD_TagPolicy := empty_TagPolicy |}
  | Some resourceConfig =>
      let own := default empty_TagPolicy (Config_TagPolicy resourceConfig) in
      let st0 := {| resourceKeys := foldl add_key ∅ (MandatoryKeys own);
                    definition_Validations := ∅;
                    definition_Rules := [] |} in
      let merged :=
        match Blueprints config with
        | Some blueprints =>
            if (0 <? length (Extends resourceConfig))%nat
            then foldM (extend blueprints own) st0 (Extends resourceConfig)
            else Some st0
        | None => Some st0
        end in
      match merged with
      | None => None
      | Some st =>
          Some {| Service := service; ResourceType := resourceType;
                  RD_TagPolicy :=
                    {| MandatoryKeys := elements (resourceKeys st);
                       Validations := Validations own ∪ definition_Validations st;
                       Rules := definition_Rules st ++ Rules own |} |}
      end
  end.

(** The (service, resource type, configuration) triples [ProcessPolicy]
    visits. *)
Definition declared_resources (config : Policy)
  : list (string * string * option ResourceConfig) :=
  match Resources config with
  | None => []
  | Some services =>
      flat_map (fun '(service, resource) =>
                  match resource with
                  | None => []
                  | Some resource =>
                      map (fun '(resourceType, resourceConfig) =>
                             (service, resourceType, resourceConfig))
                          (map_to_list resource)
                  end)
               (map_to_list services)
  end.

Definition ProcessPolicy (config : Policy) : option (list ResourceDefinition) :=
  foldM (fun definitions '(service, resourceType, resourceConfig) =>
           match processResource config service resourceType resourceConfig with
           | None => None
           | Some definition => Some (definitions ++ [definition])
           end)
        [] (declared_resources config).

(** The mandatory keys of the blueprints a configuration extends, as
    [processResource] resolves the references. *)
Definition extended_keys (config : Policy) (resourceConfig : ResourceConfig)
  : gset string :=
  match Blueprints config with
  | None => ∅
  | Some blueprints =>
      ⋃ (map (fun extendPath =>
                match blueprint_name extendPath with
                | None => ∅
                | Some name =>
                    match lookup_blueprint blueprints name with
                    | None => ∅
                    | Some blueprint => list_to_set (MandatoryKeys blueprint)
                    end
                end)
             (Extends resourceConfig))
  end.

Definition own_keys (resourceConfig : ResourceConfig) : gset string :=
  list_to_set (MandatoryKeys (default empty_TagPolicy (Config_TagPolicy resourceConfig))).

(** The reference resolves to a blueprint with a policy, so that the loop
    body of [processResource] does not panic on it. *)
Definition resolves (config : Policy) (extendPath : string) : bool :=
  match Blueprints config with
  | None => true
  | Some blueprints =>
      match blueprint_name extendPath with
      | None => false
      | Some name =>
          match lookup_blueprint blueprints name with
          | Some _ => true
          | None => false
          end
      end
  end.

(** The configuration with another [extends] list. *)
Definition with_Extends (resourceConfig : ResourceConfig) (extends : list string)
  : ResourceConfig :=
  {| Config_TagPolicy := Config_TagPolicy resourceConfig; Extends := extends |}.

(** *** Structural validation (file [validate.go])

    [validate.Struct] walks the policy along the [validate] struct
    tags of package [types]: the fields of a struct in declaration
    order, each with its tags from left to right (the first failing tag
    of a field ends that field), then the struct-level function
    registered for the type.  Every failure appends one entry to the
    error list and the walk goes on. *)

(** An entry of [validator.ValidationErrors]: the failed tag, the field
    name, the tag's parameter and the offending value when it is a
    string. *)
Record FieldError := {
  Tag : string;
  Field : string;
  Param : string;
  Value : string
}.

(** [sl.ReportError(value, fieldName, structFieldName, tag, param)]. *)
Definition ReportError (value fieldName tag param : string) : FieldError :=
  {| Tag := tag; Field := fieldName; Param := param; Value := value |}.

Definition when (b : bool) (errs : list FieldError) : list FieldError :=
  if b then errs else [].

Definition validateExtendsFormat (extend : string) : bool :=
  if String.eqb extend "" then false
  else
    match strings.Split extend "." with
    | [part0; part1] => String.eqb part0 "blueprints" && negb (String.eqb part1 "")
    | _ => false
    end.

Definition validateRegexCompilation (regex : string) : bool :=
  if String.eqb regex "" then true
  else match regexp_Compile regex with Some _ => true | None => false end.

Definition ValidateValidationStruct (v : Validation) : list FieldError :=
  when (String.eqb (Type_ v) TagTypeBool)
    (when (negb (MinValue v =? 0))
          [ReportError "" "MinValue" "no_extras_for_bool" ""] ++
     when (negb (MaxValue v =? 0))
          [ReportError "" "MaxValue" "no_extras_for_bool" ""] ++
     when (0 <? length (AllowedValues v))%nat
          [ReportError "" "AllowedValues" "no_extras_for_bool" ""] ++
     when (negb (String.eqb (Regex v) ""))
          [ReportError (Regex v) "Regex" "no_extras_for_bool" ""]) ++
  when (negb (String.eqb (Type_ v) TagTypeInt))
    (when (negb (MinValue v =? 0))
          [ReportError "" "MinValue" "only_int_supports_minmax" (Type_ v)] ++
     when (negb (MaxValue v =? 0))
          [ReportError "" "MaxValue" "only_int_supports_minmax" (Type_ v)]) ++
  when (negb (String.eqb (Type_ v) TagTypeInt) &&
        negb (String.eqb (Type_ v) TagTypeString) &&
        (0 <? length (AllowedValues v))%nat)
    [ReportError "" "AllowedValues" "allowedvalues_for_int_or_str_only" (Type_ v)] ++
  when (negb (String.eqb (Type_ v) TagTypeString) && negb (String.eqb (Regex v) ""))
    [ReportError (Regex v) "Regex" "regex_for_str_only" (Type_ v)] ++
  when (negb (String.eqb (Regex v) "") && (0 <? length (AllowedValues v))%nat)
    [ReportError "" "AllowedValues" "regex_xor_allowedvalues" ""].

Definition count_if {A} (o : option A) : nat :=
  match o with Some _ => 1 | None => 0 end.

Definition ValidateConditionStruct (condition : Condition) : list FieldError :=
  let count :=
    (count_if (Exists condition) + count_if (Equals condition) +
     count_if (NotEquals condition) + count_if (Contains condition) +
     count_if (GreaterThan condition) + count_if (LessThan condition) +
     (if (0 <? len (And condition)) then 1 else 0) +
     (if (0 <? len (Or condition)) then 1 else 0))%nat in
  when (negb (count =? 1)%nat)
    [ReportError "" "Condition" "exactly_one_condition_type" ""].

(** The check of one [extends] entry in [ValidatePolicyStruct]. *)
Definition check_blueprint_exists (policy : Policy) (sname rname extendName : string)
  : list FieldError :=
  if String.eqb extendName "" then []
  else
    match strings.Split extendName "." with
    | [_; name] =>
        let blueprintExists :=
          match Blueprints policy with
          | Some blueprints => bool_decide (is_Some (blueprints !! name))
          | None => false
          end in
        when (negb blueprintExists)
          [ReportError extendName name "blueprint_exists" (sname +:+ "." +:+ rname)]
    | _ => []
    end.

Definition ValidatePolicyStruct (policy : Policy) : list FieldError :=
  when (bool_decide (Resources policy = None))
    [ReportError "" "Resources" "required" ""] ++
  flat_map (fun '(sname, serviceResources) =>
              match serviceResources with
              | Some serviceResources =>
                  flat_map (fun '(rname, resourceConfig) =>
                              match resourceConfig with
                              | Some resourceConfig =>
                                  flat_map (check_blueprint_exists policy sname rname)
                                           (Extends resourceConfig)
                              | None => []
                              end)
                           (map_to_list serviceResources)
              | None => [ReportError "" "ResourceType" "required" ""]
              end)
           (map_to_list (default ∅ (Resources policy))).

(** The name of the element of a slice or map field: [name[index]]. *)
Definition element_name (name index : string) : string :=
  name +:+ "[" +:+ index +:+ "]".

(** Tags [omitempty,dive,required] on a slice of strings. *)
Definition dive_required (name : string) (l : list string) : list FieldError :=
  concat (imap (fun i x =>
                  when (String.eqb x "")
                    [ReportError x (element_name name (pretty i)) "required" ""])
               l).

(** Tag [required] on a string field. *)
Definition required_string (name : string) (x : string) : list FieldError :=
  when (String.eqb x "") [ReportError x name "required" ""].

Definition validate_Validation (v : Validation) : list FieldError :=
  (if String.eqb (Type_ v) "" then [ReportError (Type_ v) "type" "required" ""]
   else when (negb (strings.slices_Contains ["bool"; "string"; "int"] (Type_ v)))
          [ReportError (Type_ v) "type" "oneof" "bool string int"]) ++
  dive_required "allowedValues" (AllowedValues v) ++
  when (negb (validateRegexCompilation (Regex v)))
    [ReportError (Regex v) "regex" "valid_regex" ""] ++
  when (negb (MaxValue v =? 0) && negb (MaxValue v >=? MinValue v))
    [ReportError "" "maxValue" "gtecsfield" "MinValue"] ++
  ValidateValidationStruct v.

Definition validate_Action (a : Action) : list FieldError :=
  dive_required "mustContainKeys" (MustContainKeys a) ++
  dive_required "shouldContainKeys" (ShouldContainKeys a).

Definition validate_EqualsCondition (c : EqualsCondition) : list FieldError :=
  required_string "key" (Equals_Key c) ++
  when (negb (required_any (Equals_Value c))) [ReportError "" "value" "required" ""].

Definition validate_NumericCondition (c : NumericCondition) : list FieldError :=
  required_string "key" (Numeric_Key c) ++
  when (negb (required_float64 (Numeric_Value c))) [ReportError "" "value" "required" ""].

(** [And] and [Or] carry the tags [omitempty,min=1,dive]. *)
Fixpoint validate_Condition (condition : Condition) {struct condition}
  : list FieldError :=
  match condition with
  | mkCondition cExists cEquals cNotEquals cContains cGreaterThan cLessThan cAnd cOr =>
      match cExists with
      | Some c => required_string "key" (Exists_Key c)
      | None => []
      end ++
      match cEquals with Some c => validate_EqualsCondition c | None => [] end ++
      match cNotEquals with Some c => validate_EqualsCondition c | None => [] end ++
      match cContains with
      | Some c => required_string "key" (Contains_Key c) ++
                  required_string "value" (Contains_Value c)
      | None => []
      end ++
      match cGreaterThan with Some c => validate_NumericCondition c | None => [] end ++
      match cLessThan with Some c => validate_NumericCondition c | None => [] end ++
      match cAnd with
      | None => []
      | Some [] => [ReportError "" "and" "min" "1"]
      | Some l =>
          flat_map (fun sub =>
                      match sub with None => [] | Some c => validate_Condition c end) l
      end ++
      match cOr with
      | None => []
      | Some [] => [ReportError "" "or" "min" "1"]
      | Some l =>
          flat_map (fun sub =>
                      match sub with None => [] | Some c => validate_Condition c end) l
      end ++
      ValidateConditionStruct condition
  end.

Definition validate_Rule (rule : Rule) : list FieldError :=
  match When rule with
  | None => [ReportError "" "when" "required" ""]
  | Some c => validate_Condition c
  end ++
  match Then rule with
  | None => [ReportError "" "then" "required" ""]
  | Some a => validate_Action a
  end.

Definition validate_TagPolicy (p : TagPolicy) : list FieldError :=
  dive_required "mandatoryKeys" (MandatoryKeys p) ++
  flat_map (fun '(_, v) => validate_Validation v) (map_to_list (Validations p)) ++
  flat_map validate_Rule (Rules p).

Definition validate_Blueprint (b : Blueprint) : list FieldError :=
  match Blueprint_TagPolicy b with
  | None => [ReportError "" "TagPolicy" "required" ""]
  | Some p => validate_TagPolicy p
  end.

Definition validate_ResourceConfig (rc : ResourceConfig) : list FieldError :=
  match Config_TagPolicy rc with
  | None => []
  | Some p => validate_TagPolicy p
  end ++
  concat (imap (fun i extend =>
                  when (negb (validateExtendsFormat extend))
                    [ReportError extend (element_name "extends" (pretty i))
                                 "extends_format" ""])
               (Extends rc)).

(** [validate.Struct(policy)] on a non-nil policy. *)
Definition validate_Struct (policy : Policy) : list FieldError :=
  match Blueprints policy with
  | None => []
  | Some blueprints =>
      flat_map (fun '(_, b) => match b with None => [] | Some b => validate_Blueprint b end)
               (map_to_list blueprints)
  end ++
  match Resources policy with
  | None => [ReportError "" "resources" "required" ""]
  | Some services =>
      if (size services <? 1)%nat then [ReportError "" "resources" "min" "1"]
      else
        flat_map (fun '(sname, serviceResources) =>
                    when (String.eqb sname "")
                      [ReportError sname (element_name "resources" sname) "required" ""] ++
                    match serviceResources with
                    | None => []
                    | Some serviceResources =>
                        flat_map (fun '(_, rc) =>
                                    match rc with
                                    | None => []
                                    | Some rc => validate_ResourceConfig rc
                                    end)
                                 (map_to_list serviceResources)
                    end)
                 (map_to_list services)
  end ++
  ValidatePolicyStruct policy.

(** The translations registered in [registerCustomTranslations]; every
    other tag has the validator's stock translation. *)
Definition Translate (e : FieldError) : string :=
  if String.eqb (Tag e) "extends_format" then
    "'" +:+ Value e +:+ "' must be in the format 'blueprints.name'."
  else if String.eqb (Tag e) "valid_regex" then
    "Field '" +:+ Field e +:+ "' must contain a valid Go regular expression."
  else if String.eqb (Tag e) "no_extras_for_bool" then
    "Field '" +:+ Field e +:+ "' is not applicable when Type is 'bool'."
  else if String.eqb (Tag e) "only_int_supports_minmax" then
    "Field '" +:+ Field e +:+ "' is only applicable when Type is 'int' (current type: '"
    +:+ Param e +:+ "')."
  else if String.eqb (Tag e) "allowedvalues_for_int_or_str_only" then
    "Field '" +:+ Field e +:+
    "' is only applicable when Type is 'int' or 'string' (current type: '"
    +:+ Param e +:+ "')."
  else if String.eqb (Tag e) "regex_for_str_only" then
    "Field '" +:+ Field e +:+ "' is only applicable when Type is 'string' (current type: '"
    +:+ Param e +:+ "')."
  else if String.eqb (Tag e) "regex_xor_allowedvalues" then
    "Cannot specify both Regex and AllowedValues."
  else if String.eqb (Tag e) "exactly_one_condition_type" then
    "A Condition must specify exactly one operator (e.g., exists, equals, and, or)."
  else if String.eqb (Tag e) "blueprint_exists" then
    "Blueprint '" +:+ Field e +:+ "' referenced in '" +:+ Param e +:+
    "' does not exist in the 'blueprints' section."
  else builtin_translation (Tag e) (Field e) (Param e).

(** The errors [ValidatePolicy] returns. *)
Inductive PolicyError :=
| UnexpectedError
| ParserErrors (Messages : list string).

(** [ValidatePolicy]; [None] is the nil error.  A nil policy makes
    [validate.Struct] return an error that is not a list of field
    errors. *)
Definition ValidatePolicy (policy : option Policy) : option PolicyError :=
  match policy with
  | None => Some UnexpectedError
  | Some policy =>
      match validate_Struct policy with
      | [] => None
      | validationErrors =>
          let translatedErrors := map Translate validationErrors in
          if (0 <? length translatedErrors)%nat
          then Some (ParserErrors translatedErrors)
          else None
      end
  end.

Definition newline : string := String (ascii_of_nat 10) "".

(** The method [Error] of [ParserErrors]. *)
Definition ParserErrors_Error (Messages : list string) : string :=
  pretty (length Messages) +:+ " validation error(s) occurred:" +:+ newline +:+ "- " +:+
  strings.Join Messages (newline +:+ "- ").

(** [ParsePolicy]: the outer [option] is the panic of [ProcessPolicy]. *)
Definition ParsePolicy (policy : Policy)
  : option (list ResourceDefinition + PolicyError) :=
  match ValidatePolicy (Some policy) with
  | Some err => Some (inr err)
  | None =>
      match ProcessPolicy policy with
      | Some definitions => Some (inl definitions)
      | None => None
      end
  end.

(** The validations a policy declares, in a blueprint or in a resource
    configuration. *)
Definition declares_validation (policy : Policy) (v : Validation) : Prop :=
  (∃ blueprints name b p key,
      Blueprints policy = Some blueprints ∧ blueprints !! name = Some (Some b) ∧
      Blueprint_TagPolicy b = Some p ∧ Validations p !! key = Some v) ∨
  (∃ services sname serviceResources rname rc p key,
      Resources policy = Some services ∧
      services !! sname = Some (Some serviceResources) ∧
      serviceResources !! rname = Some (Some rc) ∧
      Config_TagPolicy rc = Some p ∧ Validations p !! key = Some v).

End WithGoLib.

End policy.

(** ** Package [patrol]: the orchestrator *)
Module patrol.
Import cloudresource types.

Record Options := {
  ConcurrentWorkers : Z;
  StopOnError : bool
}.

Definition DefaultOptions : Options :=
  {| ConcurrentWorkers := 10; StopOnError := false |}.

Section WithGoLib.
Context `{!GoLib}.

Record Result := {
  ResultDefinition : ResourceDefinition;
  Resources : list AWSResource;
  CompliantCount : Z;
  NonCompliantCount : Z;
  Error : option string
}.

(** The [Finder] the patrol is built with: the resources and the error
    [FindResources] returns for a service and a resource type. *)
Variable FindResources : string → string → list AWSResource * option string.

Variable opts : Options.

(** The body of the goroutine started for one definition, up to the
    [Result] it appends. *)
Definition worker (def : ResourceDefinition) : Result :=
  match FindResources (Service def) (ResourceType def) with
  | (_, Some err) =>
      {| ResultDefinition := def; Resources := []; CompliantCount := 0;
         NonCompliantCount := 0;
         Error := Some ("error finding resources for " +:+ Service def +:+ "." +:+
                        ResourceType def +:+ ": " +:+ err) |}
  | (resources, None) =>
      let '(resources, compliant, nonCompliant) :=
        ruler.ValidateAll resources (RD_TagPolicy def) in
      {| ResultDefinition := def; Resources := resources; CompliantCount := compliant;
         NonCompliantCount := nonCompliant; Error := None |}
  end.

(** Where the goroutine of [Run] itself stands. *)
Inductive Main :=
| Looping (rest : list ResourceDefinition)
  (** at the head of the [for] loop; past the loop, at the final
      [select], when [rest] is empty *)
| Sending (def : ResourceDefinition) (rest : list ResourceDefinition)
  (** after [wg.Add(1)], at the send on [semaphore] *)
| Returned (results : list Result) (err : option string).

(** The shared state of one call of [Run]. *)
Record State := {
  main : Main;
  doneClosed : bool;                    (** [done] has been closed *)
  wg : Z;                               (** the counter of [wg] *)
  semaphore : Z;                        (** the tokens held in [semaphore] *)
  running : list ResourceDefinition;    (** the workers started and not ended *)
  results : list Result;
  errorCh : option string;              (** the buffer of [errorCh] *)
  cancelled : bool                      (** [ctx] is done *)
}.

Definition initial (definitions : list ResourceDefinition) (cancelled : bool) : State :=
  {| main := Looping definitions; doneClosed := false; wg := 0; semaphore := 0;
     running := []; results := []; errorCh := None; cancelled := cancelled |}.

(** The steps the scheduler chooses between. *)
Inductive Event :=
| EvWaiter
  (** the goroutine started first: [wg.Wait()] returns, [done] is closed *)
| EvCancel
  (** the caller cancels [ctx] *)
| EvIterate
  (** [Run]: one loop head, the two non-blocking [select]s and [wg.Add(1)] *)
| EvDispatch
  (** [Run]: the send on [semaphore] and the [go] statement *)
| EvWorker (i : nat)
  (** the [i]-th running worker runs to its end: fetch, validation,
      append under the mutex, send on [errorCh], deferred receive from
      [semaphore] and [wg.Done()] *)
| EvSelectDone
| EvSelectCtx
| EvSelectError.
  (** [Run]: the final [select] takes the named case *)

Definition ctx_Err : string := "context canceled".

(** One step; [None] when the event is not enabled in the state. *)
Definition step (e : Event) (s : State) : option State :=
  match e with
  | EvWaiter =>
      if negb (doneClosed s) && (wg s =? 0) then
        Some {| main := main s; doneClosed := true; wg := wg s;
                semaphore := semaphore s; running := running s;
                results := results s; errorCh := errorCh s;
                cancelled := cancelled s |}
      else None
  | EvCancel =>
      Some {| main := main s; doneClosed := doneClosed s; wg := wg s;
              semaphore := semaphore s; running := running s;
              results := results s; errorCh := errorCh s; cancelled := true |}
  | EvIterate =>
      match main s with
      | Looping (def :: rest) =>
          match errorCh s, StopOnError opts with
          | Some err, true =>
              Some {| main := Returned (results s) (Some err);
                      doneClosed := doneClosed s; wg := wg s;
                      semaphore := semaphore s; running := running s;
                      results := results s; errorCh := None;
                      cancelled := cancelled s |}
          | _, _ =>
              if cancelled s then
                Some {| main := Returned (results s) (Some ctx_Err);
                        doneClosed := doneClosed s; wg := wg s;
                        semaphore := semaphore s; running := running s;
                        results := results s; errorCh := None;
                        cancelled := cancelled s |}
              else
                Some {| main := Sending def rest;
                        doneClosed := doneClosed s; wg := wg s + 1;
                        semaphore := semaphore s; running := running s;
                        results := results s; errorCh := None;
                        cancelled := cancelled s |}
          end
      | _ => None
      end
  | EvDispatch =>
      match main s with
      | Sending def rest =>
          if semaphore s <? ConcurrentWorkers opts then
            Some {| main := Looping rest;
                    doneClosed := doneClosed s; wg := wg s;
                    semaphore := semaphore s + 1; running := running s ++ [def];
                    results := results s; errorCh := errorCh s;
                    cancelled := cancelled s |}
          else None
      | _ => None
      end
  | EvWorker i =>
      match running s !! i with
      | Some def =>
          let result := worker def in
          Some {| main := main s; doneClosed := doneClosed s; wg := wg s - 1;
                  semaphore := semaphore s - 1; running := delete i (running s);
                  results := results s ++ [result];
                  errorCh :=
                    match Error result, errorCh s with
                    | Some err, None => if StopOnError opts then Some err else None
                    | _, buffered => buffered
                    end;
                  cancelled := cancelled s |}
      | None => None
      end
  | EvSelectDone =>
      match main s with
      | Looping [] =>
          if doneClosed s then
            Some {| main := Returned (results s) None;
                    doneClosed := doneClosed s; wg := wg s;
                    semaphore := semaphore s; running := running s;
                    results := results s; errorCh := errorCh s;
                    cancelled := cancelled s |}
          else None
      | _ => None
      end
  | EvSelectCtx =>
      match main s with
      | Looping [] =>
          if cancelled s then
            Some {| main := Returned (results s) (Some ctx_Err);
                    doneClosed := doneClosed s; wg := wg s;
                    semaphore := semaphore s; running := running s;
                    results := results s; errorCh := errorCh s;
                    cancelled := cancelled s |}
          else None
      | _ => None
      end
  | EvSelectError =>
      match main s, errorCh s with
      | Looping [], Some err =>
          Some {| main := Returned (results s) (Some err);
                  doneClosed := doneClosed s; wg := wg s;
                  semaphore := semaphore s; running := running s;
                  results := results s; errorCh := None;
                  cancelled := cancelled s |}
      | _, _ => None
      end
  end.

(** A schedule is the sequence of events the scheduler chose. *)
Fixpoint run (schedule : list Event) (s : State) : option State :=
  match schedule with
  | [] => Some s
  | e :: schedule' =>
      match step e s with
      | Some s' => run schedule' s'
      | None => None
      end
  end.

(** What [Run] returned, once it has. *)
Definition returned (s : State) : option (list Result * option string) :=
  match main s with
  | Returned results err => Some (results, err)
  | _ => None
  end.

(** The definitions [Run] has not dispatched yet. *)
Definition pending (s : State) : list ResourceDefinition :=
  match main s with
  | Looping rest => rest
  | Sending def rest => def :: rest
  | Returned _ _ => []
  end.

(** Nothing is buffered in [errorCh], [ctx] is not done, and [Run] has not
    returned an error. *)
Definition quiet (s : State) : Prop :=
  errorCh s = None ∧ cancelled s = false ∧
  ∀ out err, main s = Returned out err → err = None.

(** The recorded results are the workers' results for definitions taken
    from the input, each at most as often as it occurs there, and so are
    the results [Run] returned. *)
Definition accounted (definitions : list ResourceDefinition) (s : State) : Prop :=
  (∃ finished, results s = map worker finished ∧
               finished ++ running s ++ pending s ⊆+ definitions) ∧
  ∀ out err, main s = Returned out err →
             ∃ finished, out = map worker finished ∧ finished ⊆+ definitions.

(** The totals [Summary] computes in its loop, before it formats them:
    the number of results, the resources found, the compliant and the
    non-compliant ones, and the definitions with an error.  A result with
    an error only counts as such. *)
Record Totals := {
  processed : Z;
  totalResources : Z;
  totalCompliant : Z;
  totalNonCompliant : Z;
  definitionsWithErrors : Z
}.

Definition Summary_totals (results : list Result) : Totals :=
  foldl (fun totals result =>
           match Error result with
           | Some _ =>
               {| processed := processed totals;
                  totalResources := totalResources totals;
                  totalCompliant := totalCompliant totals;
                  totalNonCompliant := totalNonCompliant totals;
                  definitionsWithErrors := definitionsWithErrors totals + 1 |}
           | None =>
               {| processed := processed totals;
                  totalResources :=
                    totalResources totals + Z.of_nat (length (Resources result));
                  totalCompliant := totalCompliant totals + CompliantCount result;
                  totalNonCompliant := totalNonCompliant totals + NonCompliantCount result;
                  definitionsWithErrors := definitionsWithErrors totals |}
           end)
        {| processed := Z.of_nat (length results); totalResources := 0;
           totalCompliant := 0; totalNonCompliant := 0; definitionsWithErrors := 0 |}
        results.

(** [Run(ctx, definitions)] returns [out] under the schedule. *)
Definition Run_returns (definitions : list ResourceDefinition) (cancelled : bool)
           (schedule : list Event) (out : list Result * option string) : Prop :=
  ∃ s, run schedule (initial definitions cancelled) = Some s ∧ returned s = Some out.

End WithGoLib.

End patrol.

(** ** Package [aws]: the Resource Explorer provider *)
Module aws.
Import cloudresource.

(** A tag as Resource Explorer lists it in the [tags] property. *)
Record Tag := { Key : string; Value : string }.

(** [unmarshalTags].  [decoded] is what [UnmarshalSmithyDocument] stores
    into [tags]; [None] when it returns an error. *)
Definition unmarshalTags (decoded : option (list Tag)) : gmap string string :=
  match decoded with
  | Some tags => foldl (fun tagMap tag => <[ Key tag := Value tag ]> tagMap) ∅ tags
  | None => ∅
  end.

(** A property of a found resource: its name and, for its document, the
    outcome of decoding it as a list of tags. *)
Record Property := { Name : string; Data : option (list Tag) }.

Record Resource := {
  Arn : string;
  ResourceType : string;
  Service : string;
  OwningAccountId : string;
  Region : string;
  Properties : list Property
}.

Record SearchInput := {
  QueryString : string;
  ViewArn : option string;
  NextToken : option string
}.

Record SearchOutput := {
  Resources : list Resource;
  Output_NextToken : option string
}.

(** The body of the loop of [FindResources] over the resources of one
    response. *)
Definition to_AWSResource (r : Resource) : AWSResource :=
  {| ResourceARN := Arn r;
     cloudresource.ResourceType := ResourceType r;
     ServiceName := Service r;
     AccountID := OwningAccountId r;
     ResourceRegion := Region r;
     ResourceTags :=
       foldl (fun tags prop =>
                if negb (String.eqb (Name prop) "tags") then tags
                else unmarshalTags (Data prop))
             ∅ (Properties r);
     Errors := [];
     Warnings := [] |}.

Section WithClient.

(** [client.Search]: a response or an error. *)
Variable Search : SearchInput → SearchOutput + string.

(** The [Provider]'s view ARN. *)
Variable viewARN : string.

Definition view : option string :=
  if negb (String.eqb viewARN "") then Some viewARN else None.

Definition query (serviceName resourceName : string) : string :=
  "resourcetype:" +:+ serviceName +:+ ":" +:+ resourceName.

(** The [for] loop of [FindResources]; it ends on an error or on a
    response without a next token.  [None]: it has not ended within
    [fuel] requests. *)
Fixpoint FindResources_loop (fuel : nat) (serviceName resourceName : string)
         (resources : list AWSResource) (nextToken : option string)
  : option (list AWSResource * option string) :=
  match fuel with
  | O => None
  | S fuel =>
      match Search {| QueryString := query serviceName resourceName;
                      ViewArn := view; NextToken := nextToken |} with
      | inr err => Some ([], Some err)
      | inl resp =>
          let resources := resources ++ map to_AWSResource (Resources resp) in
          match Output_NextToken resp with
          | Some token => FindResources_loop fuel serviceName resourceName resources
                                             (Some token)
          | None => Some (resources, None)
          end
      end
  end.

Definition FindResources (fuel : nat) (serviceName resourceName : string)
  : option (list AWSResource * option string) :=
  FindResources_loop fuel serviceName resourceName [] None.

(** The client answers the requests of one search, from the request with
    token [token] on, with the pages [pages] and then, if [failure] is
    set, with that error. *)
Fixpoint serves (serviceName resourceName : string) (token : option string)
         (pages : list SearchOutput) (failure : option string) : Prop :=
  match pages with
  | [] =>
      match failure with
      | Some err =>
          Search {| QueryString := query serviceName resourceName;
                    ViewArn := view; NextToken := token |} = inr err
      | None => False
      end
  | page :: pages =>
      Search {| QueryString := query serviceName resourceName;
                ViewArn := view; NextToken := token |} = inl page ∧
      match Output_NextToken page with
      | Some next => serves serviceName resourceName (Some next) pages failure
      | None => pages = [] ∧ failure = None
      end
  end.

End WithClient.

(** The last tag of a list with the given key. *)
Definition last_tag (tags : list Tag) (key : string) : option Tag :=
  List.find (fun tag => String.eqb (Key tag) key) (rev tags).

(** The last property of a resource that is named tags. *)
Definition tags_property (r : Resource) : option Property :=
  List.find (fun prop => String.eqb (Name prop) "tags") (rev (Properties r)).

(** A client for concrete runs: two pages of one bucket each, or an error
    on the second request. *)
Definition bucket (name : string) (tags : list Tag) : Resource :=
  {| Arn := "arn:aws:s3:::" +:+ name; ResourceType := "s3:bucket"; Service := "s3";
     OwningAccountId := "123456789012"; Region := "eu-west-1";
     Properties := [ {| Name := "tags"; Data := Some tags |} ] |}.

Definition first_page : SearchOutput :=
  {| Resources := [bucket "logs" [ {| Key := "owner"; Value := "ops" |} ]];
     Output_NextToken := Some "page-2" |}.

Definition second_page : SearchOutput :=
  {| Resources := [bucket "data" [ {| Key := "owner"; Value := "dev" |};
                                   {| Key := "owner"; Value := "data" |} ]];
     Output_NextToken := None |}.

Definition two_pages (input : SearchInput) : SearchOutput + string :=
  match NextToken input with
  | None => inl first_page
  | Some _ => inl second_page
  end.

Definition failing_second (input : SearchInput) : SearchOutput + string :=
  match NextToken input with
  | None => inl first_page
  | Some _ => inr "throttled"
  end.

(** The ARNs of the resources a search returned. *)
Definition ARNs (out : option (list AWSResource * option string))
  : option (list string * option string) :=
  match out with
  | Some (resources, err) => Some (map ResourceARN resources, err)
  | None => None
  end.

End aws.

(** ** An implementation of the interface for concrete runs

    It covers a fragment on which the Go functions are plain: a pattern of
    letters and digits compiles and matches the strings that contain it;
    any other pattern is refused, as Go refuses the pattern [[];
    [ParseFloat] reads the whole numbers [strconv.Atoi] reads (Go also
    reads fractions and exponents, which no run below uses); a dynamic
    value is a string.  The stock translations are the validator's English
    texts for the built-in tags package [types] uses: [required], [min] on
    a map or slice, [oneof] and [gtecsfield]. *)
Module sample.

Definition alnum (a : ascii) : bool :=
  let n := Z.of_N (N_of_ascii a) in
  ((48 <=? n) && (n <=? 57)) || ((65 <=? n) && (n <=? 90)) || ((97 <=? n) && (n <=? 122)).

Fixpoint literal (pattern : string) : bool :=
  match pattern with
  | EmptyString => true
  | String a rest => alnum a && literal rest
  end.

Definition Compile (pattern : string) : option string :=
  if literal pattern then Some pattern else None.

Definition space (a : ascii) : bool :=
  let n := Z.of_N (N_of_ascii a) in
  ((9 <=? n) && (n <=? 13)) || (n =? 32).

Fixpoint trim_left (s : string) : string :=
  match s with
  | EmptyString => EmptyString
  | String a rest => if space a then trim_left rest else s
  end.

Definition Trim (s : string) : string :=
  String.rev (trim_left (String.rev (trim_left s))).

Definition translation (tag field param : string) : string :=
  if String.eqb tag "required" then field +:+ " is a required field"
  else if String.eqb tag "min" then
    field +:+ " must contain at least " +:+ param +:+
    (if String.eqb param "1" then " item" else " items")
  else if String.eqb tag "oneof" then field +:+ " must be one of [" +:+ param +:+ "]"
  else if String.eqb tag "gtecsfield" then
    field +:+ " must be greater than or equal to " +:+ param
  else "Key: '" +:+ field +:+ "' Error:Field validation for '" +:+ field +:+
       "' failed on the '" +:+ tag +:+ "' tag".

Definition lib : GoLib :=
  {| Regexp := string;
     regexp_Compile := Compile;
     MatchString := fun pattern s => strings.Contains s pattern;
     float64 := Z;
     ParseFloat := strconv.Atoi;
     float64_gt := Z.gtb;
     float64_lt := Z.ltb;
     any := string;
     Sprintf_v := fun s => s;
     required_any := fun s => negb (String.eqb s "");
     required_float64 := fun n => negb (n =? 0);
     TrimSpace := Trim;
     builtin_translation := translation |}.

End sample.

(** ** The scenarios and predicates the properties are stated on *)
Module scenarios.
Import cloudresource types.

Section WithGoLib.
Context `{!GoLib}.

(** The condition with no operator set, and the conditions with exactly
    one of [Equals] and [NotEquals]. *)
Definition no_condition : Condition :=
  mkCondition None None None None None None None None.

Definition Equals_condition (key : string) (value : any) : Condition :=
  mkCondition None (Some {| Equals_Key := key; Equals_Value := value |})
              None None None None None None.

Definition NotEquals_condition (key : string) (value : any) : Condition :=
  mkCondition None None (Some {| Equals_Key := key; Equals_Value := value |})
              None None None None None.

(** The policy of the production scenario; [prod] is the dynamic value
    whose string form is the text prod. *)
Definition production_policy (prod : any) : TagPolicy :=
  {| MandatoryKeys := ["environment"; "owner"; "cost-center"];
     Validations := ∅;
     Rules := [ {| When := Some (Equals_condition "environment" prod);
                   Then := Some {| MustContainKeys := ["backup-policy"];
                                   ShouldContainKeys := [];
                                   Warn := "";
                                   Error := "Production resources need backup policy" |} |} ] |}.

(** An [int] validation with bounds 1 and 90 and no allowed values. *)
Definition ttl_validation : Validation :=
  {| Type_ := TagTypeInt; AllowedValues := []; Regex := ""; MinValue := 1; MaxValue := 90 |}.

(** A condition on which [evaluateCondition] finds no operator: the six
    operator pointers are nil and [And] and [Or] have length zero. *)
Definition no_operator (c : Condition) : Prop :=
  Exists c = None ∧ Equals c = None ∧ NotEquals c = None ∧ Contains c = None ∧
  GreaterThan c = None ∧ LessThan c = None ∧ len (And c) = 0%nat ∧ len (Or c) = 0%nat.

(** One call of [validateString] records at most one error. *)
Definition records_at_most_one (r : AWSResource) (key value : string) (v : Validation)
  : Prop :=
  (length (Errors (ruler.validateString r key value v)) ≤ length (Errors r) + 1)%nat.

(** The validation with its [Regex] field cleared. *)
Definition without_regex (v : Validation) : Validation :=
  {| Type_ := Type_ v; AllowedValues := AllowedValues v; Regex := "";
     MinValue := MinValue v; MaxValue := MaxValue v |}.

(** The value fails the allowed-values check of [validateString] and
    [validateInt]: the list is not empty and the value is not in it. *)
Definition not_allowed (v : Validation) (value : string) : bool :=
  (0 <? length (AllowedValues v))%nat &&
  negb (strings.slices_Contains (AllowedValues v) value).

(** A validation that does not set both [Regex] and [AllowedValues]: what
    the struct-level check [regex_xor_allowedvalues] lets through. *)
Definition regex_xor_allowedvalues (v : Validation) : Prop :=
  Regex v = "" ∨ AllowedValues v = [].

End WithGoLib.

(** The blueprint-merge scenario: a blueprint with keys environment and
    owner, extended by a configuration that lists name and owner itself. *)
Definition base_policy : Policy (H := sample.lib) :=
  {| Blueprints :=
       Some {[ "base" := Some {| Blueprint_TagPolicy :=
                 Some {| MandatoryKeys := ["environment"; "owner"];
                         Validations := ∅; Rules := [] |} |} ]};
     Resources := None |}.

Definition instance_config : ResourceConfig (H := sample.lib) :=
  {| Config_TagPolicy := Some {| MandatoryKeys := ["name"; "owner"];
                                 Validations := ∅; Rules := [] |};
     Extends := ["blueprints.base"] |}.

(** A string validation that sets both a pattern and a list of values. *)
Definition both_validation : Validation :=
  {| Type_ := TagTypeString; AllowedValues := ["dev"]; Regex := "prod";
     MinValue := 0; MaxValue := 0 |}.

(** A boolean validation with a lower bound. *)
Definition bounded_flag_validation : Validation :=
  {| Type_ := TagTypeBool; AllowedValues := []; Regex := ""; MinValue := 1; MaxValue := 0 |}.

(** A policy with violations in three places: a validation with both a
    pattern and allowed values, a boolean validation with a bound, and a
    reference to a blueprint that is not declared. *)
Definition invalid_policy : Policy (H := sample.lib) :=
  {| Blueprints := None;
     Resources :=
       Some {[ "ec2" :=
         Some {[ "instance" :=
           Some {| Config_TagPolicy :=
                     Some {| MandatoryKeys := ["name"];
                             Validations := {[ "environment" := both_validation;
                                               "protected" := bounded_flag_validation ]};
                             Rules := [] |};
                   Extends := ["blueprints.nonexistent"] |} ]} ]} |}.

(** The orchestrator scenario: three definitions, the fetch of the second
    fails, one worker at a time, no stop on error. *)
Definition no_policy : TagPolicy (H := sample.lib) :=
  {| MandatoryKeys := []; Validations := ∅; Rules := [] |}.

Definition ec2_instance : ResourceDefinition (H := sample.lib) :=
  {| Service := "ec2"; ResourceType := "instance"; RD_TagPolicy := no_policy |}.
Definition s3_bucket : ResourceDefinition (H := sample.lib) :=
  {| Service := "s3"; ResourceType := "bucket"; RD_TagPolicy := no_policy |}.
Definition rds_db : ResourceDefinition (H := sample.lib) :=
  {| Service := "rds"; ResourceType := "db"; RD_TagPolicy := no_policy |}.

Definition three_definitions : list (ResourceDefinition (H := sample.lib)) :=
  [ec2_instance; s3_bucket; rds_db].

Definition failing_s3 (service resourceType : string) : list AWSResource * option string :=
  if String.eqb service "s3" then ([], Some "access denied") else ([], None).

Definition one_worker : patrol.Options :=
  {| patrol.ConcurrentWorkers := 1; patrol.StopOnError := false |}.

(** The goroutine waiting on [wg] runs before the first [wg.Add(1)]; the
    three definitions are then dispatched one after the other, and the
    final [select] finds [done] closed while the third worker is running. *)
Definition early_wait_schedule : list patrol.Event :=
  [ patrol.EvWaiter;
    patrol.EvIterate; patrol.EvDispatch; patrol.EvWorker 0;
    patrol.EvIterate; patrol.EvDispatch; patrol.EvWorker 0;
    patrol.EvIterate; patrol.EvDispatch;
    patrol.EvSelectDone ].

(** The first worker ends before the second [wg.Add(1)], the counter is
    zero and the waiting goroutine closes [done] at that moment. *)
Definition counter_zero_schedule : list patrol.Event :=
  [ patrol.EvIterate; patrol.EvDispatch; patrol.EvWorker 0;
    patrol.EvWaiter;
    patrol.EvIterate; patrol.EvDispatch; patrol.EvWorker 0;
    patrol.EvIterate; patrol.EvDispatch;
    patrol.EvSelectDone ].

(** Every worker ends before the waiting goroutine looks at the counter. *)
Definition late_wait_schedule : list patrol.Event :=
  [ patrol.EvIterate; patrol.EvDispatch; patrol.EvWorker 0;
    patrol.EvIterate; patrol.EvDispatch; patrol.EvWorker 0;
    patrol.EvIterate; patrol.EvDispatch; patrol.EvWorker 0;
    patrol.EvWaiter; patrol.EvSelectDone ].

(** A string validation whose pattern does not compile. *)
Definition broken_regex_validation : Validation :=
  {| Type_ := TagTypeString; AllowedValues := []; Regex := "[";
     MinValue := 0; MaxValue := 0 |}.

End scenarios.

(** ** Notions the further properties are stated with *)
Module derived.
Import cloudresource types.

(** [AddComplianceError] and [AddComplianceWarning] for each message of a
    list, in order. *)
Definition add_errors (r : AWSResource) (msgs : list string) : AWSResource :=
  foldl AddComplianceError r msgs.

Definition add_warnings (r : AWSResource) (msgs : list string) : AWSResource :=
  foldl AddComplianceWarning r msgs.

(** [after] is [before] with findings appended and nothing else changed. *)
Definition grows (before after : AWSResource) : Prop :=
  ResourceARN after = ResourceARN before ∧
  cloudresource.ResourceType after = cloudresource.ResourceType before ∧
  ServiceName after = ServiceName before ∧
  AccountID after = AccountID before ∧
  ResourceRegion after = ResourceRegion before ∧
  Tags after = Tags before ∧
  (∃ errors, Errors after = Errors before ++ errors) ∧
  (∃ warnings, Warnings after = Warnings before ++ warnings).

Definition mandatory_message (key : string) : string :=
  "Missing mandatory tag: `" +:+ key +:+ "`".

Definition required_message (key : string) : string :=
  "Missing required tag `" +:+ key +:+ "` based on rule condition".

Definition recommended_message (key : string) : string :=
  "Missing recommended tag `" +:+ key +:+ "` based on rule condition".

(** The literal message of an action, when it is set. *)
Definition literal (msg : string) : list string :=
  if String.eqb msg "" then [] else [msg].

(** The byte occurs in the string. *)
Fixpoint has_byte (s : string) (b : ascii) : bool :=
  match s with
  | EmptyString => false
  | String a s' => Ascii.eqb a b || has_byte s' b
  end.

Section WithGoLib.
Context `{!GoLib}.

(** The keys of a list the resource has no tag for, in order. *)
Definition missing_keys (r : AWSResource) (keys : list string) : list string :=
  List.filter (fun key => negb (ruler.has_tag r key)) keys.

(** The conditions with exactly one operator. *)
Definition Exists_condition (key : string) : Condition :=
  mkCondition (Some {| Exists_Key := key |}) None None None None None None None.

Definition Contains_condition (key value : string) : Condition :=
  mkCondition None None None (Some {| Contains_Key := key; Contains_Value := value |})
              None None None None.

Definition GreaterThan_condition (key : string) (value : float64) : Condition :=
  mkCondition None None None None (Some {| Numeric_Key := key; Numeric_Value := value |})
              None None None.

Definition LessThan_condition (key : string) (value : float64) : Condition :=
  mkCondition None None None None None (Some {| Numeric_Key := key; Numeric_Value := value |})
              None None.

Definition And_condition (subs : list (option Condition)) : Condition :=
  mkCondition None None None None None None (Some subs) None.

Definition Or_condition (subs : list (option Condition)) : Condition :=
  mkCondition None None None None None None None (Some subs).

(** The six operator pointers of a condition are nil. *)
Definition no_leaf_operator (c : Condition) : Prop :=
  Exists c = None ∧ Equals c = None ∧ NotEquals c = None ∧ Contains c = None ∧
  GreaterThan c = None ∧ LessThan c = None.

(** The type of a validation is one [validateTagValues] dispatches on. *)
Definition dispatched_type (v : Validation) : bool :=
  String.eqb (Type_ v) TagTypeString || String.eqb (Type_ v) TagTypeBool ||
  String.eqb (Type_ v) TagTypeInt.

(** An integer respects the bounds of a validation; a bound of zero is no
    bound. *)
Definition within_bounds (v : Validation) (n : Z) : Prop :=
  (MinValue v = 0 ∨ MinValue v ≤ n) ∧ (MaxValue v = 0 ∨ n ≤ MaxValue v).

(** The blueprint policy an [extends] entry resolves to in
    [processResource]. *)
Definition resolved (blueprints : gmap string (option Blueprint)) (extendPath : string)
  : option TagPolicy :=
  match policy.blueprint_name extendPath with
  | None => None
  | Some name => policy.lookup_blueprint blueprints name
  end.

(** The rules of the blueprints a configuration extends, in the order of
    its [extends] list. *)
Definition extended_rules (config : Policy) (rc : ResourceConfig) : list Rule :=
  match Blueprints config with
  | None => []
  | Some blueprints =>
      flat_map (fun extendPath =>
                  match resolved blueprints extendPath with
                  | Some blueprint => Rules blueprint
                  | None => []
                  end)
               (Extends rc)
  end.

(** Going through the [extends] entries in order, the validation of the
    last blueprint that has one for the key, starting from [start]. *)
Definition last_validation (blueprints : gmap string (option Blueprint)) (key : string)
           (start : option Validation) (extends : list string) : option Validation :=
  foldl (fun found extendPath =>
           match resolved blueprints extendPath with
           | Some blueprint =>
               match Validations blueprint !! key with
               | Some v => Some v
               | None => found
               end
           | None => found
           end)
        start extends.

Definition extended_validation (config : Policy) (rc : ResourceConfig) (key : string)
  : option Validation :=
  match Blueprints config with
  | None => None
  | Some blueprints => last_validation blueprints key None (Extends rc)
  end.

(** The fields of a validation fit its type: bounds only with int, allowed
    values only with int and string, a pattern only with string, and not
    both a pattern and allowed values. *)
Definition fits_type (v : Validation) : Prop :=
  (Type_ v = TagTypeInt ∨ (MinValue v = 0 ∧ MaxValue v = 0)) ∧
  (Type_ v = TagTypeInt ∨ Type_ v = TagTypeString ∨ AllowedValues v = []) ∧
  (Type_ v = TagTypeString ∨ Regex v = "") ∧
  (Regex v = "" ∨ AllowedValues v = []).

(** The number of operators a condition sets, as [ValidateConditionStruct]
    counts them. *)
Definition operator_count (c : Condition) : nat :=
  (policy.count_if (Exists c) + policy.count_if (Equals c) +
   policy.count_if (NotEquals c) + policy.count_if (Contains c) +
   policy.count_if (GreaterThan c) + policy.count_if (LessThan c) +
   (if (0 <? len (And c)) then 1 else 0) +
   (if (0 <? len (Or c)) then 1 else 0))%nat.

(** The policies a policy document declares: those of its blueprints and
    of its resource configurations. *)
Definition declares_policy (p : Policy) (tp : TagPolicy) : Prop :=
  (∃ blueprints name b,
      Blueprints p = Some blueprints ∧ blueprints !! name = Some (Some b) ∧
      Blueprint_TagPolicy b = Some tp) ∨
  (∃ services sname serviceResources rname rc,
      Resources p = Some services ∧
      services !! sname = Some (Some serviceResources) ∧
      serviceResources !! rname = Some (Some rc) ∧
      Config_TagPolicy rc = Some tp).

(** The resource configurations a policy document declares. *)
Definition declares_config (p : Policy) (sname rname : string) (rc : ResourceConfig)
  : Prop :=
  ∃ services serviceResources,
    Resources p = Some services ∧
    services !! sname = Some (Some serviceResources) ∧
    serviceResources !! rname = Some (Some rc).

(** [Run] has not returned. *)
Definition running_main (s : patrol.State) : Prop :=
  ∀ out err, patrol.main s ≠ patrol.Returned out err.


(** While [Run] has not returned, every definition is in exactly one
    place: finished (its result is recorded), running, or pending. *)
Definition conserved `{!GoLib}
           (FindResources : string → string → list AWSResource * option string)
           (definitions : list ResourceDefinition) (s : patrol.State) : Prop :=
  ∃ finished, patrol.results s = map (patrol.worker FindResources) finished ∧
              finished ++ patrol.running s ++ patrol.pending s ≡ₚ definitions.

(** An error in [errorCh], and an error [Run] returned, is the
    cancellation error of a cancelled context, or, under [StopOnError],
    the error of a result recorded before. *)
Definition explained `{!GoLib} (opts : patrol.Options) (s : patrol.State) : Prop :=
  (∀ e, patrol.errorCh s = Some e →
        patrol.StopOnError opts = true ∧
        ∃ r, r ∈ patrol.results s ∧ patrol.Error r = Some e) ∧
  (∀ out e, patrol.main s = patrol.Returned out (Some e) →
            (e = patrol.ctx_Err ∧ patrol.cancelled s = true) ∨
            (patrol.StopOnError opts = true ∧
             ∃ r, r ∈ out ∧ patrol.Error r = Some e)).

(** Nothing has been dispatched and [Run], if it has returned, returned
    no result and the cancellation error. *)
Definition never_started `{!GoLib} (definitions : list ResourceDefinition)
           (s : patrol.State) : Prop :=
  patrol.running s = [] ∧ patrol.results s = [] ∧ patrol.errorCh s = None ∧
  patrol.cancelled s = true ∧
  (patrol.main s = patrol.Looping definitions ∨
   patrol.main s = patrol.Returned [] (Some patrol.ctx_Err)).

(** The error of a result is [e]. *)
Definition failed_with (e : string) (r : patrol.Result) : Prop :=
  patrol.Error r = Some e.

(** The configuration's own policy, empty when it has none. *)
Definition own_policy (rc : ResourceConfig) : TagPolicy :=
  default policy.empty_TagPolicy (Config_TagPolicy rc).

(** The (service, resource type) pair of a declared resource and of a
    definition. *)
Definition declared_pair (declared : string * string * option ResourceConfig)
  : string * string :=
  (declared.1.1, declared.1.2).

Definition definition_pair (def : ResourceDefinition) : string * string :=
  (Service def, ResourceType def).

(** Every reference of every declared configuration resolves. *)
Definition all_resolve (config : Policy) : Prop :=
  ∀ service resourceType rc,
    (service, resourceType, Some rc) ∈ policy.declared_resources config →
    forallb (policy.resolves config) (Extends rc) = true.

End WithGoLib.

(** The merge scenario: two blueprints with a rule each and a validation
    for environment, the first also one for ttl; a configuration with its
    own rule and its own validation for ttl that extends both. *)
Definition rule_with_error (key error : string) : Rule (H := sample.lib) :=
  {| When := Some (Exists_condition (H := sample.lib) key);
     Then := Some {| MustContainKeys := []; ShouldContainKeys := [];
                     Warn := ""; Error := error |} |}.

Definition allowed (values : list string) : Validation :=
  {| Type_ := TagTypeString; AllowedValues := values; Regex := "";
     MinValue := 0; MaxValue := 0 |}.

Definition short_ttl : Validation :=
  {| Type_ := TagTypeInt; AllowedValues := []; Regex := ""; MinValue := 1; MaxValue := 30 |}.

Definition merge_policy : Policy (H := sample.lib) :=
  {| Blueprints :=
       Some {[ "base" := Some {| Blueprint_TagPolicy :=
                 Some {| MandatoryKeys := [];
                         Validations := {[ "environment" := allowed ["dev"; "prod"];
                                           "ttl" := scenarios.ttl_validation ]};
                         Rules := [rule_with_error "temporary" "base"] |} |};
               "strict" := Some {| Blueprint_TagPolicy :=
                 Some {| MandatoryKeys := [];
                         Validations := {[ "environment" := allowed ["prod"] ]};
                         Rules := [rule_with_error "public" "strict"] |} |} ]};
     Resources := None |}.

Definition merge_config : ResourceConfig (H := sample.lib) :=
  {| Config_TagPolicy :=
       Some {| MandatoryKeys := [];
               Validations := {[ "ttl" := short_ttl ]};
               Rules := [rule_with_error "legacy" "own"] |};
     Extends := ["blueprints.base"; "blueprints.strict"] |}.

(** A policy whose only rule has a condition without operator. *)
Definition operatorless_rule : Rule (H := sample.lib) :=
  {| When := Some scenarios.no_condition;
     Then := Some {| MustContainKeys := ["owner"]; ShouldContainKeys := [];
                     Warn := ""; Error := "" |} |}.

Definition operatorless_policy : Policy (H := sample.lib) :=
  {| Blueprints := None;
     Resources :=
       Some {[ "s3" :=
         Some {[ "bucket" :=
           Some {| Config_TagPolicy :=
                     Some {| MandatoryKeys := []; Validations := ∅;
                             Rules := [operatorless_rule] |};
                   Extends := [] |} ]} ]} |}.

(** Orchestrator scenarios: the three definitions all dispatched and
    finished with [Run] at its final [select]; and a run under
    [StopOnError] whose first fetch fails. *)
Definition all_finished_schedule : list patrol.Event :=
  [ patrol.EvIterate; patrol.EvDispatch; patrol.EvWorker 0;
    patrol.EvIterate; patrol.EvDispatch; patrol.EvWorker 0;
    patrol.EvIterate; patrol.EvDispatch; patrol.EvWorker 0 ].

Definition all_finished_state : patrol.State (H := sample.lib) :=
  {| patrol.main := patrol.Looping [];
     patrol.doneClosed := false; patrol.wg := 0; patrol.semaphore := 0;
     patrol.running := [];
     patrol.results := map (patrol.worker scenarios.failing_s3) scenarios.three_definitions;
     patrol.errorCh := None; patrol.cancelled := false |}.

Definition stop_on_error : patrol.Options :=
  {| patrol.ConcurrentWorkers := 1; patrol.StopOnError := true |}.

Definition failing_first : list (ResourceDefinition (H := sample.lib)) :=
  [scenarios.s3_bucket; scenarios.ec2_instance].

Definition stop_schedule : list patrol.Event :=
  [ patrol.EvIterate; patrol.EvDispatch; patrol.EvWorker 0; patrol.EvIterate ].

Definition s3_error : string := "error finding resources for s3.bucket: access denied".

(** A configuration whose reference names no declared blueprint. *)
Definition dangling_config : ResourceConfig (H := sample.lib) :=
  {| Config_TagPolicy := None; Extends := ["blueprints.missing"] |}.

End derived.

(** ** The structural violations of a policy document *)
Module violations.
Import types derived.

Section WithGoLib.
Context `{!GoLib}.










End WithGoLib.



(** A policy that passes validation: a blueprint with allowed values for
    environment, extended by a configuration with a pattern for name. *)
Definition pattern_validation : Validation :=
  {| Type_ := TagTypeString; AllowedValues := []; Regex := "web";
     MinValue := 0; MaxValue := 0 |}.

Definition accepted_policy : Policy (H := sample.lib) :=
  {| Blueprints :=
       Some {[ "base" := Some {| Blueprint_TagPolicy :=
                 Some {| MandatoryKeys := ["owner"];
                         Validations := {[ "environment" := allowed ["dev"; "prod"] ]};
                         Rules := [] |} |} ]};
     Resources :=
       Some {[ "ec2" :=
         Some {[ "instance" :=
           Some {| Config_TagPolicy :=
                     Some {| MandatoryKeys := [];
                             Validations := {[ "name" := pattern_validation ]};
                             Rules := [] |};
                   Extends := ["blueprints.base"] |} ]} ]} |}.

(** The definitions [ParsePolicy] returns hold one whose validation for
    the key has the pattern. *)
Definition resolves_pattern (p : Policy (H := sample.lib)) (key pattern : string) : bool :=
  match policy.ParsePolicy p with
  | Some (inl defs) =>
      existsb (fun def =>
                 match Validations (RD_TagPolicy def) !! key with
                 | Some v => String.eqb (Regex v) pattern
                 | None => false
                 end) defs
  | _ => false
  end.

End violations.

(** * Properties *)

Import cloudresource types scenarios derived.

(** ** Helper facts on strings *)

Lemma HasPrefix_app_l (a b sub : string) :
  strings.HasPrefix a sub = true → strings.HasPrefix (a +:+ b) sub = true.
Proof.
  revert a; induction sub as [|c sub IH]; intros a; simpl; [done|].
  destruct a as [|d a]; simpl; [done|].
  destruct (Ascii.eqb c d); [apply IH|done].
Qed.

Lemma Contains_app_r (a b sub : string) :
  strings.Contains b sub = true → strings.Contains (a +:+ b) sub = true.
Proof.
  intros Hb. induction a as [|c a IH]; simpl; [done|].
  rewrite IH. by destruct (strings.HasPrefix _ _).
Qed.

Lemma Contains_app_l (a b sub : string) :
  strings.Contains a sub = true → strings.Contains (a +:+ b) sub = true.
Proof.
  induction a as [|c a IH]; intros Ha.
  - destruct sub; [by destruct b|done].
  - change (String c a +:+ b) with (String c (a +:+ b)).
    simpl in Ha |- *.
    destruct (strings.HasPrefix (String c a) sub) eqn:Hp.
    + apply HasPrefix_app_l with (b := b) in Hp.
      change (String c a +:+ b) with (String c (a +:+ b)) in Hp.
      by rewrite Hp.
    + rewrite (IH Ha). by destruct (strings.HasPrefix (String c (a +:+ b)) sub).
Qed.

(** ** The resource model *)

Lemma Errors_mutate_all (r : AWSResource) (ms : list Mutation) :
  Errors (mutate_all r ms) = Errors r ++ recorded_errors ms.
Proof.
  revert r. induction ms as [|m ms IH]; intros r.
  - by rewrite app_nil_r.
  - change (mutate_all r (m :: ms)) with (mutate_all (mutate r m) ms).
    rewrite IH. destruct m; simpl; [by rewrite <- app_assoc|done].
Qed.

(** C7: for every resource, in its initial state and after any sequence of
    [AddComplianceError] and [AddComplianceWarning] calls, [IsCompliant]
    equals "the recorded error sequence has length 0"; that sequence is the
    initial one followed by the messages of the error calls, in order; one
    more [AddComplianceWarning] leaves [IsCompliant] unchanged and one more
    [AddComplianceError] makes it false; a resource without findings is
    compliant. *)
Theorem IsCompliant_tracks_errors (r : AWSResource) (ms : list Mutation) (msg : string) :
  let r' := mutate_all r ms in
  IsCompliant r' = (length (ComplianceErrors r') =? 0)%nat ∧
  ComplianceErrors r' = ComplianceErrors r ++ recorded_errors ms ∧
  IsCompliant (AddComplianceWarning r' msg) = IsCompliant r' ∧
  IsCompliant (AddComplianceError r' msg) = false ∧
  (∀ arn tags, IsCompliant (fresh arn tags) = true ∧ ComplianceErrors (fresh arn tags) = []).
Proof.
  intros r'. repeat split.
  - apply Errors_mutate_all.
  - unfold IsCompliant. simpl. rewrite length_app. simpl.
    apply Nat.eqb_neq. lia.
Qed.

(** ** The rule evaluation engine *)

Section Ruler.
Context `{!GoLib}.

(** C1: under the policy with mandatory keys environment, owner and
    cost-center and one rule "environment equals prod: must contain
    backup-policy, error Production resources need backup policy", a
    resource tagged exactly environment=prod and carrying no findings has
    after [Validate] exactly four errors: the two missing mandatory tags
    owner and cost-center, the missing required tag backup-policy and the
    rule's literal error; it is not compliant. *)
Theorem Validate_production_scenario (prod : any) (r : AWSResource) :
  Sprintf_v prod = "prod" →
  Tags r = {[ "environment" := "prod" ]} →
  Errors r = [] →
  let r' := ruler.Validate r (production_policy prod) in
  error_messages r' =
    [ "Missing mandatory tag: `owner`";
      "Missing mandatory tag: `cost-center`";
      "Missing required tag `backup-policy` based on rule condition";
      "Production resources need backup policy" ] ∧
  length (ComplianceErrors r') = 4%nat ∧
  IsCompliant r' = false.
Proof.
  intros Hprod Htags Herrs.
  destruct r as [arn rtype service account region tags errors warnings].
  simpl in Htags, Herrs. subst tags errors.
  unfold ruler.Validate, production_policy, ruler.applyRules, ruler.validateTagValues.
  cbn [MandatoryKeys Validations Rules].
  rewrite map_to_list_empty.
  cbn [foldl].
  unfold ruler.applyRule, ruler.evaluateCondition, Equals_condition.
  cbn [When Then ruler.evaluate Equals_Key Equals_Value].
  rewrite Hprod.
  vm_compute. done.
Qed.

End Ruler.

Lemma Validate_production_scenario_witness :
  let r := fresh "arn:aws:ec2:instance/i-1" {[ "environment" := "prod" ]} in
  error_messages (ruler.Validate (H := sample.lib) r
                    (production_policy (H := sample.lib) "prod")) =
    [ "Missing mandatory tag: `owner`";
      "Missing mandatory tag: `cost-center`";
      "Missing required tag `backup-policy` based on rule condition";
      "Production resources need backup policy" ].
Proof.
  intros r.
  apply (Validate_production_scenario (H := sample.lib) "prod" r);
    reflexivity.
Defined.

Section Conditions.
Context `{!GoLib}.

(** C2: for every resource and every condition whose operator is
    NotEquals(key, value) (no Exists and no Equals set before it),
    [evaluateCondition] is true when the key is absent from the tags, true
    when the key is present with a value different from the string form of
    the condition value, and false exactly when the key is present with a
    value equal to that string form. *)
Theorem evaluateCondition_NotEquals (r : AWSResource) (c : Condition)
        (key : string) (value : any) :
  Exists c = None →
  Equals c = None →
  NotEquals c = Some {| Equals_Key := key; Equals_Value := value |} →
  (Tags r !! key = None → ruler.evaluateCondition r (Some c) = true) ∧
  (∀ x, Tags r !! key = Some x → x ≠ Sprintf_v value →
        ruler.evaluateCondition r (Some c) = true) ∧
  (ruler.evaluateCondition r (Some c) = false ↔ Tags r !! key = Some (Sprintf_v value)).
Proof.
  intros HEx HEq HNe.
  destruct c as [cEx cEq cNe cCo cGt cLt cAnd cOr].
  simpl in HEx, HEq, HNe. subst cEx cEq cNe.
  unfold ruler.evaluateCondition. cbn [ruler.evaluate Equals_Key Equals_Value].
  destruct (Tags r !! key) as [x|] eqn:Hx.
  - destruct (String.eqb_spec x (Sprintf_v value)) as [->|Hne]; simpl.
    + repeat split; try done. intros y [= <-] Hy. by destruct Hy.
    + repeat split; try done. intros [= ->]. by destruct Hne.
  - repeat split; done.
Qed.

(** C10: a nil condition, and a condition with the six operator pointers
    nil and [And] and [Or] of length zero, evaluates to false on every
    resource; a rule with such a [When] leaves the resource as it is,
    whatever its [Then], alone or anywhere in a rule list. *)
Theorem evaluateCondition_no_operator (r : AWSResource) (c : Condition)
        (action : option Action) (before after : list Rule) :
  no_operator c →
  ruler.evaluateCondition r None = false ∧
  ruler.evaluateCondition r (Some c) = false ∧
  ruler.applyRule r {| When := None; Then := action |} = r ∧
  ruler.applyRule r {| When := Some c; Then := action |} = r ∧
  ruler.applyRules r (before ++ {| When := None; Then := action |} :: after) =
    ruler.applyRules r (before ++ after) ∧
  ruler.applyRules r (before ++ {| When := Some c; Then := action |} :: after) =
    ruler.applyRules r (before ++ after).
Proof.
  intros (HEx & HEq & HNe & HCo & HGt & HLt & HAnd & HOr).
  assert (Hc : ∀ r', ruler.evaluateCondition r' (Some c) = false).
  { intros r'. destruct c as [cEx cEq cNe cCo cGt cLt cAnd cOr].
    simpl in HEx, HEq, HNe, HCo, HGt, HLt, HAnd, HOr. subst.
    unfold ruler.evaluateCondition. cbn [ruler.evaluate].
    destruct cAnd as [[|? ?]|]; try discriminate;
      destruct cOr as [[|? ?]|]; try discriminate; reflexivity. }
  assert (Hrule : ∀ r', ruler.applyRule r' {| When := Some c; Then := action |} = r').
  { intros r'. unfold ruler.applyRule. cbn [When]. by rewrite Hc. }
  split_and!.
  - done.
  - apply Hc.
  - done.
  - apply Hrule.
  - unfold ruler.applyRules. by rewrite !foldl_app.
  - unfold ruler.applyRules. rewrite !foldl_app. cbn [foldl]. by rewrite Hrule.
Qed.

End Conditions.

Lemma evaluateCondition_NotEquals_witness :
  let r := fresh "arn:aws:s3:::bucket" {[ "environment" := "dev" ]} in
  ruler.evaluateCondition (H := sample.lib) r
    (Some (NotEquals_condition (H := sample.lib) "environment" "prod")) = true.
Proof.
  intros r.
  apply (evaluateCondition_NotEquals (H := sample.lib) r
           (NotEquals_condition (H := sample.lib) "environment" "prod")
           "environment" "prod" eq_refl eq_refl eq_refl) with (x := "dev");
    [reflexivity | discriminate].
Defined.

Lemma evaluateCondition_no_operator_witness :
  let r := fresh "arn:aws:s3:::bucket" {[ "environment" := "prod" ]} in
  ruler.evaluateCondition (H := sample.lib) r (Some (no_condition (H := sample.lib))) = false.
Proof.
  intros r.
  apply (evaluateCondition_no_operator (H := sample.lib) r no_condition None [] []).
  repeat split; reflexivity.
Defined.

Section ValueValidation.
Context `{!GoLib}.

Lemma Contains_not_integer (key value : string) :
  strings.Contains (ruler.not_integer_error key value) "not a valid integer" = true.
Proof.
  unfold ruler.not_integer_error. by do 4 apply Contains_app_r.
Qed.

Lemma Contains_greater_than_maximum (key : string) (n : Z) (v : Validation) :
  strings.Contains (ruler.greater_than_maximum_error key n v) "greater than maximum" = true.
Proof.
  unfold ruler.greater_than_maximum_error.
  do 4 apply Contains_app_r. by apply Contains_app_l.
Qed.

Lemma Contains_not_in_allowed_values (key value : string) (v : Validation) :
  strings.Contains (ruler.allowed_values_error key value v) "not in allowed values" = true.
Proof.
  unfold ruler.allowed_values_error.
  do 4 apply Contains_app_r. by apply Contains_app_l.
Qed.

Lemma Contains_does_not_match_regex (key value : string) (v : Validation) :
  strings.Contains (ruler.regex_error key value v) "does not match regex" = true.
Proof.
  unfold ruler.regex_error.
  do 4 apply Contains_app_r. by apply Contains_app_l.
Qed.

(** C3: for an int validation with MinValue 1, MaxValue 90 and no allowed
    values, on any resource and key: the value 30 records no error; 150
    records exactly one error, whose text contains "greater than maximum";
    thirty records exactly one error, whose text contains "not a valid
    integer".  For every int validation, a value [strconv.Atoi] rejects
    records exactly the not-a-valid-integer error and nothing else (no
    minimum, maximum or allowed-values error, no warning).  A present tag
    whose validation has type int is validated by [validateInt]. *)
Theorem validateInt_bounds_and_parse (r : AWSResource) (key : string) (v : Validation) :
  MinValue v = 1 →
  MaxValue v = 90 →
  AllowedValues v = [] →
  Errors (ruler.validateInt r key "30" v) = Errors r ∧
  (Errors (ruler.validateInt r key "150" v) =
     Errors r ++ [ {| Message := "Tag `" +:+ key +:+
                                 "` has value `150` which is greater than maximum: 90" |} ] ∧
   strings.Contains ("Tag `" +:+ key +:+
                     "` has value `150` which is greater than maximum: 90")
                    "greater than maximum" = true) ∧
  (Errors (ruler.validateInt r key "thirty" v) =
     Errors r ++ [ {| Message := "Tag `" +:+ key +:+
                                 "` has value `thirty` which is not a valid integer" |} ] ∧
   strings.Contains ("Tag `" +:+ key +:+
                     "` has value `thirty` which is not a valid integer")
                    "not a valid integer" = true) ∧
  (∀ (w : Validation) (value : string),
      strconv.Atoi value = None →
      Errors (ruler.validateInt r key value w) =
        Errors r ++ [ {| Message := ruler.not_integer_error key value |} ] ∧
      Warnings (ruler.validateInt r key value w) = Warnings r ∧
      strings.Contains (ruler.not_integer_error key value) "not a valid integer" = true) ∧
  (∀ (w : Validation) (value : string),
      Tags r !! key = Some value →
      Type_ w = TagTypeInt →
      ruler.validateTagValue r (key, w) = ruler.validateInt r key value w).
Proof.
  intros Hmin Hmax Hallowed.
  split_and!.
  - unfold ruler.validateInt. rewrite Hmin, Hmax, Hallowed. reflexivity.
  - unfold ruler.validateInt, ruler.greater_than_maximum_error.
    rewrite Hmin, Hmax, Hallowed. reflexivity.
  - do 2 apply Contains_app_r. reflexivity.
  - reflexivity.
  - apply (Contains_not_integer key "thirty").
  - intros w value Hparse. unfold ruler.validateInt. rewrite Hparse.
    split_and!; [reflexivity | reflexivity | apply Contains_not_integer].
  - intros w value Htag Htype. unfold ruler.validateTagValue.
    rewrite Htag, Htype. reflexivity.
Qed.

(** The errors one call of [validateString] appends. *)
Lemma validateString_errors (r : AWSResource) (key value : string) (v : Validation) :
  Errors (ruler.validateString r key value v) =
    Errors r ++
    (if not_allowed v value
     then [ {| Message := ruler.allowed_values_error key value v |} ] else []) ++
    (if negb (String.eqb (Regex v) "")
     then match regexp_Compile (Regex v) with
          | Some regex =>
              if MatchString regex value then []
              else [ {| Message := ruler.regex_error key value v |} ]
          | None => []
          end
     else []) ∧
  Warnings (ruler.validateString r key value v) = Warnings r.
Proof.
  unfold ruler.validateString, not_allowed.
  destruct (0 <? length (AllowedValues v))%nat;
    destruct (strings.slices_Contains (AllowedValues v) value);
    destruct (String.eqb (Regex v) ""); simpl;
    try destruct (regexp_Compile (Regex v)) as [regex|];
    try destruct (MatchString regex value); simpl;
    rewrite ?app_nil_r, <- ?app_assoc; done.
Qed.

(** C8, amended: for every validation that does not set both [Regex] and
    [AllowedValues], one call of [validateString] records at most one
    error: when the allowed values are a non-empty list without the value,
    exactly the allowed-values error; otherwise, when the pattern is set,
    compiles and does not match the value, exactly the regex error. *)
Theorem validateString_at_most_one (r : AWSResource) (key value : string) (v : Validation) :
  regex_xor_allowedvalues v →
  records_at_most_one r key value v ∧
  (not_allowed v value = true →
   Errors (ruler.validateString r key value v) =
     Errors r ++ [ {| Message := ruler.allowed_values_error key value v |} ] ∧
   strings.Contains (ruler.allowed_values_error key value v) "not in allowed values" = true) ∧
  (not_allowed v value = false →
   Regex v ≠ "" →
   ∀ regex, regexp_Compile (Regex v) = Some regex →
            MatchString regex value = false →
   Errors (ruler.validateString r key value v) =
     Errors r ++ [ {| Message := ruler.regex_error key value v |} ] ∧
   strings.Contains (ruler.regex_error key value v) "does not match regex" = true).
Proof.
  intros Hxor.
  destruct (validateString_errors r key value v) as [Herr _].
  split_and!.
  - unfold records_at_most_one. rewrite Herr.
    destruct Hxor as [Hre|Hav].
    + rewrite Hre. simpl. rewrite app_nil_r.
      destruct (not_allowed v value); rewrite ?app_nil_r, ?length_app; simpl; lia.
    + unfold not_allowed. rewrite Hav. simpl.
      destruct (negb (String.eqb (Regex v) "")); [|rewrite app_nil_r; lia].
      destruct (regexp_Compile (Regex v)) as [regex|]; [|rewrite app_nil_r; lia].
      destruct (MatchString regex value); rewrite ?app_nil_r, ?length_app; simpl; lia.
  - intros Hna. split; [|apply Contains_not_in_allowed_values].
    rewrite Herr, Hna.
    destruct Hxor as [Hre|Hav].
    + by rewrite Hre.
    + unfold not_allowed in Hna. by rewrite Hav in Hna.
  - intros Hna Hre regex Hcompile Hmatch.
    split; [|apply Contains_does_not_match_regex].
    rewrite Herr, Hna, Hcompile, Hmatch.
    by destruct (String.eqb_spec (Regex v) "").
Qed.

(** C9: when the [Regex] of a validation does not compile, on every
    resource, key and present value [validateString] does what it does for
    the same validation without a pattern: the only error it can record is
    the allowed-values one, and it records no warning. *)
Theorem validateString_regex_not_compiling (r : AWSResource) (key value : string)
        (v : Validation) :
  regexp_Compile (Regex v) = None →
  ruler.validateString r key value v = ruler.validateString r key value (without_regex v) ∧
  Errors (ruler.validateString r key value v) =
    Errors r ++ (if not_allowed v value
                 then [ {| Message := ruler.allowed_values_error key value v |} ] else []) ∧
  Warnings (ruler.validateString r key value v) = Warnings r.
Proof.
  intros Hcompile.
  destruct (validateString_errors r key value v) as [Herr Hwarn].
  split_and!.
  - unfold ruler.validateString, ruler.allowed_values_error, without_regex.
    cbn [Regex AllowedValues]. rewrite Hcompile.
    by destruct (negb (String.eqb (Regex v) "")).
  - rewrite Herr, Hcompile.
    destruct (negb (String.eqb (Regex v) "")); by rewrite app_nil_r.
  - done.
Qed.

End ValueValidation.

Lemma validateInt_bounds_and_parse_witness :
  let r := fresh "arn:aws:ec2:instance/i-1" {[ "ttl" := "150" ]} in
  error_messages (ruler.validateInt r "ttl" "150" ttl_validation) =
    [ "Tag `ttl` has value `150` which is greater than maximum: 90" ].
Proof.
  intros r.
  destruct (validateInt_bounds_and_parse (H := sample.lib) r "ttl" ttl_validation
              eq_refl eq_refl eq_refl) as (_ & [H150 _] & _).
  unfold error_messages, ComplianceErrors. rewrite H150. reflexivity.
Defined.

Lemma validateString_at_most_one_witness :
  let r := fresh "arn:aws:ec2:instance/i-1" {[ "environment" := "test" ]} in
  let v := {| Type_ := TagTypeString; AllowedValues := ["dev"; "prod"]; Regex := "";
              MinValue := 0; MaxValue := 0 |} in
  records_at_most_one (H := sample.lib) r "environment" "test" v.
Proof.
  intros r v.
  apply (validateString_at_most_one (H := sample.lib) r "environment" "test" v).
  left. reflexivity.
Defined.

(** C8 as stated fails: a validation that sets both a pattern and a list of
    allowed values makes one call of [validateString] record two errors for
    a value that is in neither. *)
Lemma validateString_records_both :
  let r := fresh "arn:aws:ec2:instance/i-1" {[ "environment" := "test" ]} in
  error_messages (ruler.validateString (H := sample.lib) r "environment" "test"
                    both_validation) =
    [ "Tag `environment` has value `test` which is not in allowed values: `dev`";
      "Tag `environment` with value `test` does not match regex: `prod`" ] ∧
  ¬ records_at_most_one (H := sample.lib) r "environment" "test" both_validation.
Proof.
  intros r. split; [reflexivity|].
  unfold records_at_most_one. vm_compute. lia.
Qed.

Lemma validateString_regex_not_compiling_witness :
  let r := fresh "arn:aws:ec2:instance/i-1" {[ "name" := "web" ]} in
  Errors (ruler.validateString (H := sample.lib) r "name" "web" broken_regex_validation) = [].
Proof.
  intros r.
  destruct (validateString_regex_not_compiling (H := sample.lib) r "name" "web"
              broken_regex_validation eq_refl) as (_ & Herr & _).
  rewrite Herr. reflexivity.
Defined.

(** ** The policy resolver *)

Section Resolver.
Context `{!GoLib}.

Lemma foldl_add_key (keys : gset string) (l : list string) :
  foldl policy.add_key keys l = keys ∪ list_to_set l.
Proof.
  revert keys. induction l as [|key l IH]; intros keys; simpl.
  - set_solver.
  - rewrite IH. unfold policy.add_key. set_solver.
Qed.

Lemma foldl_add_missing_key (keys : gset string) (l : list string) :
  foldl (fun keys key => if bool_decide (key ∈ keys) then keys else policy.add_key keys key)
        keys l = keys ∪ list_to_set l.
Proof.
  revert keys. induction l as [|key l IH]; intros keys; simpl.
  - set_solver.
  - rewrite IH. unfold policy.add_key. case_bool_decide; set_solver.
Qed.

Lemma foldM_extend_keys (config : Policy) (blueprints : gmap string (option Blueprint))
      (own : TagPolicy) (rc : ResourceConfig) (paths : list string)
      (st : policy.merge_state) :
  Blueprints config = Some blueprints →
  forallb (policy.resolves config) paths = true →
  ∃ st', policy.foldM (policy.extend blueprints own) st paths = Some st' ∧
         policy.resourceKeys st' =
           policy.resourceKeys st ∪ policy.extended_keys config (policy.with_Extends rc paths).
Proof.
  intros Hbp. unfold policy.extended_keys, policy.with_Extends. cbn [Extends]. rewrite Hbp.
  revert st. induction paths as [|path paths IH]; intros st Hres.
  - exists st. split; [done|]. simpl. set_solver.
  - simpl in Hres. apply andb_true_iff in Hres as [Hpath Hrest].
    unfold policy.resolves in Hpath. rewrite Hbp in Hpath.
    destruct (policy.blueprint_name path) as [name|] eqn:Hname; [|done].
    destruct (policy.lookup_blueprint blueprints name) as [blueprint|] eqn:Hlookup; [|done].
    destruct (IH {| policy.resourceKeys :=
                      foldl (fun keys key =>
                               if bool_decide (key ∈ keys) then keys
                               else policy.add_key keys key)
                            (policy.resourceKeys st) (MandatoryKeys blueprint);
                    policy.definition_Validations :=
                      foldl (fun vs '(key, validation) =>
                               match Validations own !! key with
                               | None => <[ key := validation ]> vs
                               | Some _ => vs
                               end)
                            (policy.definition_Validations st)
                            (map_to_list (Validations blueprint));
                    policy.definition_Rules := policy.definition_Rules st ++ Rules blueprint |}
                Hrest) as (st' & Hfold & Hkeys).
    exists st'. split.
    + simpl. unfold policy.extend at 1. by rewrite Hname, Hlookup.
    + rewrite Hkeys. cbn [policy.resourceKeys]. rewrite foldl_add_missing_key.
      simpl. rewrite Hname, Hlookup. set_solver.
Qed.



(** The definition [processResource] returns when every reference
    resolves, and its mandatory keys. *)
Lemma processResource_keys (config : Policy) (service resourceType : string)
      (rc : ResourceConfig) :
  forallb (policy.resolves config) (Extends rc) = true →
  ∃ def, policy.processResource config service resourceType (Some rc) = Some def ∧
         Service def = service ∧ ResourceType def = resourceType ∧
         ∃ keys : gset string,
           MandatoryKeys (RD_TagPolicy def) = elements keys ∧
           keys = policy.own_keys rc ∪ policy.extended_keys config rc.
Proof.
  intros Hres. unfold policy.processResource.
  set (own := default policy.empty_TagPolicy (Config_TagPolicy rc)).
  set (st0 := {| policy.resourceKeys := foldl policy.add_key ∅ (MandatoryKeys own);
                 policy.definition_Validations := ∅;
                 policy.definition_Rules := [] |}).
  assert (Hst0 : policy.resourceKeys st0 = policy.own_keys rc).
  { unfold st0, policy.own_keys. cbn [policy.resourceKeys].
    rewrite foldl_add_key. fold own. set_solver. }
  destruct (Blueprints config) as [blueprints|] eqn:Hbp.
  - destruct (foldM_extend_keys config blueprints own rc (Extends rc) st0 Hbp Hres)
      as (st' & Hfold & Hkeys).
    assert (Hwith : policy.with_Extends rc (Extends rc) = rc) by by destruct rc.
    rewrite Hwith, Hst0 in Hkeys.
    destruct (Extends rc) as [|path paths] eqn:Hext.
    + simpl in Hfold. injection Hfold as <-. simpl.
      eexists. split_and!; [done..|]. exists (policy.resourceKeys st0).
      split; [done|]. by rewrite <- Hkeys.
    + cbn [length Nat.ltb Nat.leb]. rewrite Hfold.
      eexists. split_and!; [done..|]. exists (policy.resourceKeys st'). by split.
  - eexists. split_and!; [done..|]. exists (policy.resourceKeys st0).
    split; [done|]. rewrite Hst0. unfold policy.extended_keys. rewrite Hbp. set_solver.
Qed.


End Resolver.


Example processResource_base_instance :
  ∃ def,
    policy.processResource base_policy "ec2" "instance" (Some instance_config) = Some def ∧
    (list_to_set (MandatoryKeys (RD_TagPolicy def)) : gset string) =
      {[ "name"; "environment"; "owner" ]} ∧
    length (MandatoryKeys (RD_TagPolicy def)) = 3%nat.
Proof.
  eexists. split; [reflexivity|]. split; vm_compute; reflexivity.
Qed.

(** ** Structural validation of a policy *)

Lemma Join_Contains (msgs : list string) (sep m sub : string) :
  In m msgs → strings.Contains m sub = true →
  strings.Contains (strings.Join msgs sep) sub = true.
Proof.
  intros Hin Hsub. induction msgs as [|e rest IH]; [done|].
  destruct rest as [|e' rest'].
  - destruct Hin as [->|[]]. done.
  - change (strings.Join (e :: e' :: rest') sep)
      with (e +:+ sep +:+ strings.Join (e' :: rest') sep).
    destruct Hin as [->|Hin].
    + by apply Contains_app_l.
    + do 2 apply Contains_app_r. by apply IH.
Qed.

Section Validation.
Context `{!GoLib}.

Lemma ValidatePolicy_unfold (p : Policy) :
  policy.ValidatePolicy (Some p) =
    match policy.validate_Struct p with
    | [] => None
    | errs => Some (policy.ParserErrors (map policy.Translate errs))
    end.
Proof.
  unfold policy.ValidatePolicy. by destruct (policy.validate_Struct p).
Qed.

Lemma In_validate_TagPolicy (p : TagPolicy) (key : string) (v : Validation)
      (e : policy.FieldError) :
  Validations p !! key = Some v →
  In e (policy.validate_Validation v) →
  In e (policy.validate_TagPolicy p).
Proof.
  intros Hv He. unfold policy.validate_TagPolicy.
  apply in_or_app; right. apply in_or_app; left.
  apply in_flat_map. exists (key, v). split; [|done].
  apply list_elem_of_In. by apply elem_of_map_to_list.
Qed.

Lemma In_validate_Struct (p : Policy) (v : Validation) (e : policy.FieldError) :
  policy.declares_validation p v →
  In e (policy.validate_Validation v) →
  In e (policy.validate_Struct p).
Proof.
  intros [Hbp|Hres] He; unfold policy.validate_Struct.
  - destruct Hbp as (blueprints & name & b & tp & key & Hbps & Hb & Htp & Hv).
    apply in_or_app; left. rewrite Hbps.
    apply in_flat_map. exists (name, Some b). split.
    + apply list_elem_of_In. by apply elem_of_map_to_list.
    + unfold policy.validate_Blueprint. rewrite Htp.
      by apply (In_validate_TagPolicy tp key v).
  - destruct Hres as (services & sname & sr & rname & rc & tp & key &
                      Hsv & Hsr & Hrc & Htp & Hv).
    apply in_or_app; right. apply in_or_app; left. rewrite Hsv.
    destruct (size services <? 1)%nat eqn:Hsize.
    { apply Nat.ltb_lt in Hsize.
      assert (services = ∅) as -> by (apply map_size_empty_iff; lia).
      by rewrite lookup_empty in Hsr. }
    apply in_flat_map. exists (sname, Some sr). split.
    + apply list_elem_of_In. by apply elem_of_map_to_list.
    + apply in_or_app; right.
      apply in_flat_map. exists (rname, Some rc). split.
      * apply list_elem_of_In. by apply elem_of_map_to_list.
      * unfold policy.validate_ResourceConfig. rewrite Htp.
        apply in_or_app; left. by apply (In_validate_TagPolicy tp key v).
Qed.

End Validation.

(** The three violations of [invalid_policy] give four messages, all in
    one aggregate. *)
Example ValidatePolicy_invalid_policy :
  ∃ msgs, policy.ValidatePolicy (Some invalid_policy) = Some (policy.ParserErrors msgs) ∧
          length msgs = 4%nat ∧
          In "Cannot specify both Regex and AllowedValues." msgs ∧
          In "Field 'MinValue' is not applicable when Type is 'bool'." msgs ∧
          In "Field 'MinValue' is only applicable when Type is 'int' (current type: 'bool')."
             msgs ∧
          In ("Blueprint 'nonexistent' referenced in 'ec2.instance' does not exist " +:+
              "in the 'blueprints' section.") msgs.
Proof.
  eexists. split; [vm_compute; reflexivity|]. vm_compute. tauto.
Qed.

(** ** The orchestrator *)

Section Orchestrator.
Context `{!GoLib}.
Variable FindResources : string → string → list AWSResource * option string.
Variable opts : patrol.Options.

(** A definition whose fetch fails contributes a result with an error, no
    resources and zero counts. *)
Lemma worker_fetch_failed (def : ResourceDefinition) (resources : list AWSResource)
      (err : string) :
  FindResources (Service def) (ResourceType def) = (resources, Some err) →
  ∃ msg, patrol.Error (patrol.worker FindResources def) = Some msg ∧
         patrol.Resources (patrol.worker FindResources def) = [] ∧
         patrol.CompliantCount (patrol.worker FindResources def) = 0 ∧
         patrol.NonCompliantCount (patrol.worker FindResources def) = 0 ∧
         patrol.ResultDefinition (patrol.worker FindResources def) = def.
Proof.
  intros Hfetch. unfold patrol.worker. rewrite Hfetch. eexists. by split_and!.
Qed.

Lemma worker_fetch_succeeded (def : ResourceDefinition) (resources : list AWSResource) :
  FindResources (Service def) (ResourceType def) = (resources, None) →
  patrol.Error (patrol.worker FindResources def) = None ∧
  patrol.ResultDefinition (patrol.worker FindResources def) = def.
Proof.
  intros Hfetch. unfold patrol.worker. rewrite Hfetch.
  by destruct (ruler.ValidateAll resources (RD_TagPolicy def)) as [[? ?] ?].
Qed.

Lemma step_quiet (e : patrol.Event) (s s' : patrol.State) :
  patrol.StopOnError opts = false →
  e ≠ patrol.EvCancel →
  patrol.step FindResources opts e s = Some s' →
  patrol.quiet s → patrol.quiet s'.
Proof.
  intros Hstop Hev Hstep (Hch & Hctx & Hret).
  destruct e; simpl in Hstep; try done;
    repeat case_match; simplify_eq; rewrite ?Hstop in *;
    unfold patrol.quiet; simpl; split_and!; try done;
    try (intros out' err' [= <- <-]; done); try congruence.
Qed.

Lemma run_quiet (schedule : list patrol.Event) (s s' : patrol.State) :
  patrol.StopOnError opts = false →
  patrol.EvCancel ∉ schedule →
  patrol.run FindResources opts schedule s = Some s' →
  patrol.quiet s → patrol.quiet s'.
Proof.
  intros Hstop. revert s. induction schedule as [|e schedule IH]; intros s Hev Hrun Hq.
  - by injection Hrun as <-.
  - simpl in Hrun.
    destruct (patrol.step FindResources opts e s) as [s1|] eqn:Hstep; [|done].
    apply not_elem_of_cons in Hev as [Hne Hev].
    apply (IH s1 Hev Hrun). by apply (step_quiet e s).
Qed.

Lemma step_accounted (definitions : list ResourceDefinition)
      (e : patrol.Event) (s s' : patrol.State) :
  patrol.step FindResources opts e s = Some s' →
  patrol.accounted FindResources definitions s →
  patrol.accounted FindResources definitions s'.
Proof.
  intros Hstep [(finished & Hres & Hsub) Hret].
  assert (Hfin : finished ⊆+ definitions).
  { etrans; [|exact Hsub]. apply submseteq_inserts_r. done. }
  assert (Hnow : ∃ finished', patrol.results s = map (patrol.worker FindResources) finished' ∧
                              finished' ⊆+ definitions) by by exists finished.
  destruct e; simpl in Hstep.
  - (* the waiting goroutine *)
    destruct (negb (patrol.doneClosed s) && (patrol.wg s =? 0)); simplify_eq.
    split; [exists finished; split; [done|exact Hsub] | exact Hret].
  - (* cancellation *)
    simplify_eq. split; [exists finished; split; [done|exact Hsub] | exact Hret].
  - (* loop head *)
    unfold patrol.pending in Hsub.
    destruct (patrol.main s) as [[|def rest]|def rest|out err] eqn:Hmain; try done.
    destruct (patrol.errorCh s) as [buffered|], (patrol.StopOnError opts),
      (patrol.cancelled s); simplify_eq;
      (split; [exists finished; split; [done|] | ]);
      unfold patrol.pending; simpl; try done;
      try (intros ? ? [= <- <-]; by exists finished);
      (etrans; [|exact Hsub]);
      (apply submseteq_app; [done|]); (apply submseteq_app; [done|]);
      apply submseteq_nil_l.
  - (* dispatch *)
    unfold patrol.pending in Hsub.
    destruct (patrol.main s) as [rest|def rest|out err] eqn:Hmain; try done.
    destruct (patrol.semaphore s <? patrol.ConcurrentWorkers opts); simplify_eq.
    split; [|done]. exists finished. split; [done|].
    unfold patrol.pending; simpl. by rewrite <- (app_assoc (patrol.running s)).
  - (* a worker ends *)
    destruct (patrol.running s !! i) as [def|] eqn:Hrun; simplify_eq.
    split; [|exact Hret].
    exists (finished ++ [def]). split.
    + simpl. by rewrite map_app, Hres.
    + etrans; [|exact Hsub]. apply Permutation_submseteq.
      change (patrol.pending _) with (patrol.pending s). simpl.
      rewrite (delete_Permutation (patrol.running s) i def Hrun) at 2.
      rewrite <- !app_assoc. simpl. done.
  - (* final select, done *)
    destruct (patrol.main s) as [[|def rest]|def rest|out err] eqn:Hmain; try done.
    destruct (patrol.doneClosed s); simplify_eq.
    split; [exists finished; split; [done|] | intros ? ? [= <- <-]; by exists finished].
    unfold patrol.pending at 1; simpl. etrans; [|exact Hsub].
    apply submseteq_app; [done|]. apply submseteq_app; [done|]. apply submseteq_nil_l.
  - (* final select, ctx *)
    destruct (patrol.main s) as [[|def rest]|def rest|out err] eqn:Hmain; try done.
    destruct (patrol.cancelled s); simplify_eq.
    split; [exists finished; split; [done|] | intros ? ? [= <- <-]; by exists finished].
    unfold patrol.pending at 1; simpl. etrans; [|exact Hsub].
    apply submseteq_app; [done|]. apply submseteq_app; [done|]. apply submseteq_nil_l.
  - (* final select, errorCh *)
    destruct (patrol.main s) as [[|def rest]|def rest|out err] eqn:Hmain; try done.
    destruct (patrol.errorCh s); simplify_eq.
    split; [exists finished; split; [done|] | intros ? ? [= <- <-]; by exists finished].
    unfold patrol.pending at 1; simpl. etrans; [|exact Hsub].
    apply submseteq_app; [done|]. apply submseteq_app; [done|]. apply submseteq_nil_l.
Qed.

Lemma run_accounted (definitions : list ResourceDefinition)
      (schedule : list patrol.Event) (s s' : patrol.State) :
  patrol.run FindResources opts schedule s = Some s' →
  patrol.accounted FindResources definitions s →
  patrol.accounted FindResources definitions s'.
Proof.
  revert s. induction schedule as [|e schedule IH]; intros s Hrun Hacc.
  - by injection Hrun as <-.
  - simpl in Hrun.
    destruct (patrol.step FindResources opts e s) as [s1|] eqn:Hstep; [|done].
    apply (IH s1 Hrun). by apply (step_accounted definitions e s).
Qed.

Lemma initial_accounted (definitions : list ResourceDefinition) (cancelled : bool) :
  patrol.accounted FindResources definitions (patrol.initial definitions cancelled).
Proof.
  split; [|done]. exists []. by split.
Qed.

Lemma initial_quiet (definitions : list ResourceDefinition) :
  patrol.quiet (patrol.initial definitions false).
Proof. by split_and!. Qed.

(** What every return of [Run] satisfies when [StopOnError] is off and the
    context is never cancelled: no top-level error, and the results are
    the workers' results for some of the definitions, each at most once
    per occurrence in the input. *)
Lemma Run_returns_sound (definitions : list ResourceDefinition)
      (schedule : list patrol.Event) (out : list patrol.Result) (err : option string) :
  patrol.StopOnError opts = false →
  patrol.EvCancel ∉ schedule →
  patrol.Run_returns FindResources opts definitions false schedule (out, err) →
  err = None ∧
  ∃ finished, out = map (patrol.worker FindResources) finished ∧
              finished ⊆+ definitions ∧
              (length out ≤ length definitions)%nat.
Proof.
  intros Hstop Hev (s & Hrun & Hret).
  unfold patrol.returned in Hret.
  destruct (patrol.main s) as [rest|def rest|out' err'] eqn:Hmain; simplify_eq.
  pose proof (run_quiet schedule _ s Hstop Hev Hrun (initial_quiet definitions))
    as (_ & _ & Herr).
  pose proof (run_accounted definitions schedule _ s Hrun
                (initial_accounted definitions false)) as [_ Hout].
  split; [by apply (Herr out)|].
  destruct (Hout out err Hmain) as (finished & -> & Hsub).
  exists finished. split_and!; [done..|].
  rewrite length_map. by apply submseteq_length.
Qed.

(** Running a schedule to a returned state is a return of [Run]. *)
Lemma Run_returns_run (definitions : list ResourceDefinition) (cancelled : bool)
      (schedule : list patrol.Event) (out : list patrol.Result * option string) :
  match patrol.run FindResources opts schedule (patrol.initial definitions cancelled) with
  | Some s => patrol.returned s
  | None => None
  end = Some out →
  patrol.Run_returns FindResources opts definitions cancelled schedule out.
Proof.
  intros Hrun.
  destruct (patrol.run FindResources opts schedule (patrol.initial definitions cancelled))
    as [s|] eqn:Hs; [|done].
  by exists s.
Qed.

End Orchestrator.

(** C6: with [StopOnError] off and a context that is never cancelled, [Run]
    on three definitions, one of whose fetches fails, can return, without a
    top-level error, only two results: the goroutine that waits on [wg] is
    started before the first [wg.Add(1)], finds the counter at zero and
    closes [done]; the final [select] then returns while the last worker
    has not appended its result. *)
Theorem Run_returns_before_last_worker :
  patrol.StopOnError one_worker = false ∧
  (patrol.EvCancel ∉ early_wait_schedule) ∧
  length three_definitions = 3%nat ∧
  ∃ out,
    patrol.Run_returns failing_s3 one_worker three_definitions false
                       early_wait_schedule (out, None) ∧
    out = map (patrol.worker failing_s3) [ec2_instance; s3_bucket] ∧
    length out = 2%nat.
Proof.
  split_and!.
  - done.
  - unfold early_wait_schedule. rewrite !not_elem_of_cons.
    split_and!; try discriminate. apply not_elem_of_nil.
  - done.
  - exists (map (patrol.worker failing_s3) [ec2_instance; s3_bucket]).
    split_and!; [|reflexivity|reflexivity].
    apply Run_returns_run.
    vm_cast_no_check
      (eq_refl (Some (map (patrol.worker failing_s3) [ec2_instance; s3_bucket],
                      @None string))).
Qed.

(** The same early return when the waiting goroutine looks at the counter
    between the end of the first worker and the second [wg.Add(1)]. *)
Example Run_returns_after_counter_zero :
  ∃ out,
    patrol.Run_returns failing_s3 one_worker three_definitions false
                       counter_zero_schedule (out, None) ∧
    length out = 2%nat.
Proof.
  exists (map (patrol.worker failing_s3) [ec2_instance; s3_bucket]).
  split; [|reflexivity]. apply Run_returns_run.
  vm_cast_no_check
    (eq_refl (Some (map (patrol.worker failing_s3) [ec2_instance; s3_bucket],
                    @None string))).
Qed.

(** When every worker ends before the waiting goroutine looks at the
    counter, the three results are there and exactly one carries an error. *)
Example Run_returns_all_results :
  ∃ out,
    patrol.Run_returns failing_s3 one_worker three_definitions false
                       late_wait_schedule (out, None) ∧
    map (fun r => Service (patrol.ResultDefinition r)) out = ["ec2"; "s3"; "rds"] ∧
    map (fun r => bool_decide (is_Some (patrol.Error r))) out = [false; true; false] ∧
    map (fun r => length (patrol.Resources r)) out = [0; 0; 0]%nat ∧
    map patrol.CompliantCount out = [0; 0; 0] ∧
    map patrol.NonCompliantCount out = [0; 0; 0].
Proof.
  exists (map (patrol.worker failing_s3) three_definitions).
  split.
  - apply Run_returns_run.
    vm_cast_no_check
      (eq_refl (Some (map (patrol.worker failing_s3) three_definitions, @None string))).
  - split_and!; vm_compute; reflexivity.
Qed.

(** * Further properties of the rule evaluation engine *)

Lemma Errors_add_errors (r : AWSResource) (msgs : list string) :
  Errors (add_errors r msgs) = Errors r ++ map (fun m => {| Message := m |}) msgs ∧
  Warnings (add_errors r msgs) = Warnings r ∧
  Tags (add_errors r msgs) = Tags r.
Proof.
  revert r. induction msgs as [|m msgs IH]; intros r.
  - by rewrite app_nil_r.
  - change (add_errors r (m :: msgs)) with (add_errors (AddComplianceError r m) msgs).
    destruct (IH (AddComplianceError r m)) as (-> & -> & ->).
    simpl. by rewrite <- app_assoc.
Qed.

Lemma Warnings_add_warnings (r : AWSResource) (msgs : list string) :
  Warnings (add_warnings r msgs) =
    Warnings r ++ map (fun m => {| WarningMessage := m |}) msgs ∧
  Errors (add_warnings r msgs) = Errors r ∧
  Tags (add_warnings r msgs) = Tags r.
Proof.
  revert r. induction msgs as [|m msgs IH]; intros r.
  - by rewrite app_nil_r.
  - change (add_warnings r (m :: msgs)) with (add_warnings (AddComplianceWarning r m) msgs).
    destruct (IH (AddComplianceWarning r m)) as (-> & -> & ->).
    simpl. by rewrite <- app_assoc.
Qed.

Section RulerLoops.
Context `{!GoLib}.

(** The loops over keys that record an error, or a warning, for each key
    without a tag. *)
Lemma foldl_missing_errors (msg : string → string) (r : AWSResource) (keys : list string) :
  foldl (fun r key => if ruler.has_tag r key then r else AddComplianceError r (msg key))
        r keys =
  add_errors r (map msg (missing_keys r keys)).
Proof.
  revert r. induction keys as [|key keys IH]; intros r; [done|].
  cbn [foldl]. rewrite IH. unfold missing_keys. cbn [List.filter].
  destruct (ruler.has_tag r key) eqn:Hkey; simpl; [done|].
  f_equal.
Qed.

Lemma foldl_missing_warnings (msg : string → string) (r : AWSResource)
      (keys : list string) :
  foldl (fun r key => if ruler.has_tag r key then r else AddComplianceWarning r (msg key))
        r keys =
  add_warnings r (map msg (missing_keys r keys)).
Proof.
  revert r. induction keys as [|key keys IH]; intros r; [done|].
  cbn [foldl]. rewrite IH. unfold missing_keys. cbn [List.filter].
  destruct (ruler.has_tag r key) eqn:Hkey; simpl; [done|].
  f_equal.
Qed.

(** X1: [validateMandatoryKeys] records one "Missing mandatory tag" error
    for each listed key (each occurrence) the resource has no tag for, in
    the order of the list, after the errors already there; it records
    nothing for a key that is present, no warning, and leaves the tags. *)
Theorem validateMandatoryKeys_errors (r : AWSResource) (keys : list string) :
  Errors (ruler.validateMandatoryKeys r keys) =
    Errors r ++ map (fun key => {| Message := mandatory_message key |})
                    (missing_keys r keys) ∧
  Warnings (ruler.validateMandatoryKeys r keys) = Warnings r ∧
  Tags (ruler.validateMandatoryKeys r keys) = Tags r ∧
  (∀ key, key ∈ missing_keys r keys ↔ key ∈ keys ∧ Tags r !! key = None).
Proof.
  unfold ruler.validateMandatoryKeys.
  rewrite (foldl_missing_errors mandatory_message).
  destruct (Errors_add_errors r (map mandatory_message (missing_keys r keys)))
    as (-> & -> & ->).
  split_and!; [by rewrite map_map|done|done|].
  intros key. unfold missing_keys. rewrite !list_elem_of_In, filter_In.
  unfold ruler.has_tag. rewrite negb_true_iff, bool_decide_eq_false.
  rewrite <- eq_None_not_Some. done.
Qed.

End RulerLoops.

Lemma grows_refl (r : AWSResource) : grows r r.
Proof.
  unfold grows. split_and!; try done; exists []; by rewrite app_nil_r.
Qed.

Lemma grows_trans (r1 r2 r3 : AWSResource) : grows r1 r2 → grows r2 r3 → grows r1 r3.
Proof.
  intros (? & ? & ? & ? & ? & ? & [e1 He1] & [w1 Hw1])
         (? & ? & ? & ? & ? & ? & [e2 He2] & [w2 Hw2]).
  unfold grows. split_and!; try congruence.
  - exists (e1 ++ e2). by rewrite He2, He1, <- app_assoc.
  - exists (w1 ++ w2). by rewrite Hw2, Hw1, <- app_assoc.
Qed.

Lemma grows_AddComplianceError (r : AWSResource) (msg : string) :
  grows r (AddComplianceError r msg).
Proof.
  unfold grows. split_and!; try done; [by eexists|]. exists []. by rewrite app_nil_r.
Qed.

Lemma grows_AddComplianceWarning (r : AWSResource) (msg : string) :
  grows r (AddComplianceWarning r msg).
Proof.
  unfold grows. split_and!; try done; [|by eexists]. exists []. by rewrite app_nil_r.
Qed.

Lemma grows_foldl {A} (f : AWSResource → A → AWSResource) (l : list A) (r : AWSResource) :
  (∀ r x, grows r (f r x)) → grows r (foldl f r l).
Proof.
  intros Hf. revert r. induction l as [|x l IH]; intros r; [apply grows_refl|].
  simpl. eapply grows_trans; [apply Hf|apply IH].
Qed.

Section RulerGrows.
Context `{!GoLib}.

Lemma grows_validateTagValue (r : AWSResource) (entry : string * Validation) :
  grows r (ruler.validateTagValue r entry).
Proof.
  destruct entry as [key v]. unfold ruler.validateTagValue.
  destruct (Tags r !! key) as [value|]; [|apply grows_refl].
  repeat case_match; try apply grows_refl.
  - unfold ruler.validateString.
    repeat case_match;
      repeat first [ apply grows_refl
                   | apply grows_AddComplianceError
                   | eapply grows_trans; [apply grows_AddComplianceError|] ].
  - unfold ruler.validateBool.
    case_match; [apply grows_AddComplianceError|apply grows_refl].
  - unfold ruler.validateInt.
    repeat case_match;
      repeat first [ apply grows_refl
                   | apply grows_AddComplianceError
                   | eapply grows_trans; [apply grows_AddComplianceError|] ].
Qed.

Lemma grows_applyAction (r : AWSResource) (action : option Action) :
  grows r (ruler.applyAction r action).
Proof.
  destruct action as [action|]; [|apply grows_refl]. unfold ruler.applyAction.
  cbv zeta.
  set (r1 := foldl _ r (MustContainKeys action)).
  set (r2 := foldl _ r1 (ShouldContainKeys action)).
  assert (H1 : grows r r1).
  { apply grows_foldl. intros r' key.
    case_match; [apply grows_refl|apply grows_AddComplianceError]. }
  assert (H2 : grows r1 r2).
  { apply grows_foldl. intros r' key.
    case_match; [apply grows_refl|apply grows_AddComplianceWarning]. }
  eapply grows_trans; [exact H1|]. eapply grows_trans; [exact H2|].
  clearbody r1 r2.
  repeat case_match;
    repeat first [ apply grows_refl
                 | apply grows_AddComplianceWarning
                 | apply grows_AddComplianceError
                 | eapply grows_trans; [apply grows_AddComplianceError|] ].
Qed.

Lemma grows_Validate (r : AWSResource) (p : TagPolicy) : grows r (ruler.Validate r p).
Proof.
  unfold ruler.Validate. cbv zeta.
  set (r1 := ruler.validateMandatoryKeys r (MandatoryKeys p)).
  set (r2 := ruler.validateTagValues r1 (Validations p)).
  assert (H1 : grows r r1).
  { unfold r1, ruler.validateMandatoryKeys. apply grows_foldl. intros r' key.
    case_match; [apply grows_refl|apply grows_AddComplianceError]. }
  assert (H2 : grows r1 r2).
  { unfold r2, ruler.validateTagValues. apply grows_foldl, grows_validateTagValue. }
  eapply grows_trans; [exact H1|]. eapply grows_trans; [exact H2|].
  unfold ruler.applyRules. apply grows_foldl. intros r' rule.
  unfold ruler.applyRule. case_match; [apply grows_applyAction|apply grows_refl].
Qed.

(** X2: [Validate] only appends findings.  For every resource and policy
    the tags and the identity fields are unchanged, the earlier errors and
    warnings are kept in front of the new ones, and so a resource that is
    not compliant before is not compliant after. *)
Theorem Validate_only_appends (r : AWSResource) (p : TagPolicy) :
  Tags (ruler.Validate r p) = Tags r ∧
  ResourceARN (ruler.Validate r p) = ResourceARN r ∧
  cloudresource.ResourceType (ruler.Validate r p) = cloudresource.ResourceType r ∧
  ServiceName (ruler.Validate r p) = ServiceName r ∧
  AccountID (ruler.Validate r p) = AccountID r ∧
  ResourceRegion (ruler.Validate r p) = ResourceRegion r ∧
  (∃ errors, Errors (ruler.Validate r p) = Errors r ++ errors) ∧
  (∃ warnings, Warnings (ruler.Validate r p) = Warnings r ++ warnings) ∧
  (IsCompliant r = false → IsCompliant (ruler.Validate r p) = false).
Proof.
  destruct (grows_Validate r p)
    as (Harn & Htype & Hservice & Haccount & Hregion & Htags & [es Hes] & [ws Hws]).
  split_and!; [done..|by exists es|by exists ws|].
  unfold IsCompliant. rewrite Hes, length_app.
  rewrite !Nat.eqb_neq. lia.
Qed.

End RulerGrows.

Section RulerValues.
Context `{!GoLib}.

(** X3: a present tag whose validation has type bool is accepted exactly
    when its value is the text true or the text false (case-sensitive);
    any other value records one "not a valid boolean" error.  The other
    fields of the validation play no part. *)
Theorem validateTagValue_bool (r : AWSResource) (key value : string) (v : Validation) :
  Tags r !! key = Some value →
  Type_ v = TagTypeBool →
  (value = "true" ∨ value = "false" → ruler.validateTagValue r (key, v) = r) ∧
  (value ≠ "true" → value ≠ "false" →
   ruler.validateTagValue r (key, v) = AddComplianceError r (ruler.bool_error key value) ∧
   strings.Contains (ruler.bool_error key value) "not a valid boolean" = true).
Proof.
  intros Htag Htype. unfold ruler.validateTagValue. rewrite Htag, Htype.
  cbn [String.eqb TagTypeBool TagTypeString Ascii.eqb Bool.eqb].
  unfold ruler.validateBool, strings.slices_Contains. cbn [existsb].
  split.
  - intros [-> | ->]; reflexivity.
  - intros Ht Hf.
    destruct (String.eqb_spec value "true") as [|_]; [done|].
    destruct (String.eqb_spec value "false") as [|_]; [done|].
    split; [reflexivity|].
    unfold ruler.bool_error. by do 4 apply Contains_app_r.
Qed.

(** The errors [validateInt] appends for a value that parses. *)
Lemma validateInt_errors (r : AWSResource) (key value : string) (v : Validation) (n : Z) :
  strconv.Atoi value = Some n →
  ruler.validateInt r key value v =
    add_errors r
      ((if negb (MinValue v =? 0) && (n <? MinValue v)
        then [ruler.less_than_minimum_error key n v] else []) ++
       (if negb (MaxValue v =? 0) && (n >? MaxValue v)
        then [ruler.greater_than_maximum_error key n v] else []) ++
       (if not_allowed v value then [ruler.allowed_values_error key value v] else [])).
Proof.
  intros Hparse. unfold ruler.validateInt, not_allowed. rewrite Hparse.
  destruct (negb (MinValue v =? 0) && (n <? MinValue v));
    destruct (negb (MaxValue v =? 0) && (n >? MaxValue v));
    destruct (0 <? length (AllowedValues v))%nat;
    destruct (strings.slices_Contains (AllowedValues v) value); reflexivity.
Qed.

(** X4: for a value that parses as the integer [n] and a validation
    without allowed values, [validateInt] leaves the resource as it is
    exactly when [n] respects each bound that is not zero: a [MinValue] or
    [MaxValue] of 0 is never enforced. *)
Theorem validateInt_accepts (r : AWSResource) (key value : string) (v : Validation) (n : Z) :
  strconv.Atoi value = Some n →
  AllowedValues v = [] →
  (ruler.validateInt r key value v = r ↔ within_bounds v n).
Proof.
  intros Hparse Hallowed. rewrite (validateInt_errors r key value v n Hparse).
  unfold not_allowed, within_bounds. rewrite Hallowed. cbn [length Nat.ltb Nat.leb andb].
  rewrite app_nil_r.
  destruct (Z.eqb_spec (MinValue v) 0) as [Hmin|Hmin];
    destruct (Z.eqb_spec (MaxValue v) 0) as [Hmax|Hmax];
    destruct (Z.ltb_spec n (MinValue v)) as [Hlo|Hlo];
    destruct (Z.gtb_spec n (MaxValue v)) as [Hhi|Hhi];
    cbn [negb andb app add_errors foldl];
    (split; [intros Hsame|intros [[?|?] [?|?]]]; try done; try lia;
     try (split; [by (left + right; lia) | by (left + right; lia)]);
     apply (f_equal (fun x => length (Errors x))) in Hsame;
     simpl in Hsame; rewrite ?length_app in Hsame; simpl in Hsame; lia).
Qed.

(** X5: [validateTagValues] leaves the resource as it is when every
    validation is for a key the resource has no tag for, or has a type
    other than string, bool and int. *)
Theorem validateTagValues_skips (r : AWSResource) (validations : gmap string Validation) :
  (∀ key v, validations !! key = Some v →
            Tags r !! key = None ∨ dispatched_type v = false) →
  ruler.validateTagValues r validations = r.
Proof.
  intros Hskip. unfold ruler.validateTagValues.
  assert (Hall : ∀ entry, entry ∈ map_to_list validations →
                          ruler.validateTagValue r entry = r).
  { intros [key v] Hin. apply elem_of_map_to_list in Hin.
    unfold ruler.validateTagValue.
    destruct (Hskip key v Hin) as [->|Htype]; [done|].
    destruct (Tags r !! key); [|done].
    unfold dispatched_type in Htype.
    apply orb_false_iff in Htype as [Htype Hint].
    apply orb_false_iff in Htype as [Hstring Hbool].
    by rewrite Hstring, Hbool, Hint. }
  induction (map_to_list validations) as [|entry l IH]; [done|].
  simpl. rewrite Hall by apply list_elem_of_here.
  apply IH. intros e He. apply Hall. by apply list_elem_of_further.
Qed.

End RulerValues.

Lemma validateTagValue_bool_witness :
  let r := fresh "arn:aws:ec2:instance/i-1" {[ "protected" := "True" ]} in
  error_messages (ruler.validateTagValue (H := sample.lib) r
                    ("protected", bounded_flag_validation)) =
    [ "Tag `protected` has value `True` which is not a valid boolean" ].
Proof.
  intros r.
  destruct (validateTagValue_bool (H := sample.lib) r "protected" "True"
              bounded_flag_validation eq_refl eq_refl) as [_ Hbad].
  destruct Hbad as [-> _]; [discriminate|discriminate|reflexivity].
Defined.

Lemma validateInt_accepts_witness :
  let r := fresh "arn:aws:ec2:instance/i-1" {[ "ttl" := "-5" ]} in
  let v := {| Type_ := TagTypeInt; AllowedValues := []; Regex := "";
              MinValue := 0; MaxValue := 90 |} in
  ruler.validateInt r "ttl" "-5" v = r.
Proof.
  intros r v.
  apply (validateInt_accepts r "ttl" "-5" v (-5) eq_refl eq_refl).
  split; [by left|right; simpl; lia].
Defined.

Lemma validateTagValues_skips_witness :
  let r := fresh "arn:aws:ec2:instance/i-1" {[ "name" := "web" ]} in
  ruler.validateTagValues (H := sample.lib) r {[ "ttl" := ttl_validation ]} = r.
Proof.
  intros r.
  apply (validateTagValues_skips (H := sample.lib)).
  intros key v Hv. apply lookup_singleton_Some in Hv as [<- <-]. by left.
Defined.

Section RulerConditions.
Context `{!GoLib}.

(** X6: for a condition without a leaf operator, a non-empty [And] is true
    exactly when every sub-condition is (a nil sub-condition counts as
    false) and decides alone, whatever [Or] holds; when [And] is nil or
    empty, a non-empty [Or] is true exactly when some sub-condition is. *)
Theorem evaluateCondition_And_Or (r : AWSResource) (c : Condition)
        (sub : option Condition) (subs : list (option Condition)) :
  no_leaf_operator c →
  (And c = Some (sub :: subs) →
   ruler.evaluateCondition r (Some c) =
     forallb (ruler.evaluateCondition r) (sub :: subs)) ∧
  (len (And c) = 0%nat → Or c = Some (sub :: subs) →
   ruler.evaluateCondition r (Some c) =
     existsb (ruler.evaluateCondition r) (sub :: subs)).
Proof.
  intros (HEx & HEq & HNe & HCo & HGt & HLt).
  destruct c as [cEx cEq cNe cCo cGt cLt cAnd cOr].
  simpl in HEx, HEq, HNe, HCo, HGt, HLt. subst.
  unfold ruler.evaluateCondition. cbn [And Or]. split.
  - intros ->. reflexivity.
  - intros Hand ->. destruct cAnd as [[|? ?]|]; try discriminate; reflexivity.
Qed.

(** X7: on every resource NotEquals(key, value) is the negation of
    Equals(key, value), an absent key included. *)
Theorem evaluateCondition_NotEquals_negates_Equals (r : AWSResource)
        (key : string) (value : any) :
  ruler.evaluateCondition r (Some (NotEquals_condition key value)) =
    negb (ruler.evaluateCondition r (Some (Equals_condition key value))).
Proof.
  unfold ruler.evaluateCondition, NotEquals_condition, Equals_condition.
  cbn [ruler.evaluate Equals_Key Equals_Value].
  by destruct (Tags r !! key).
Qed.

(** X8: on a resource without a tag for the key, Exists, Equals, Contains,
    GreaterThan and LessThan are all false; GreaterThan and LessThan are
    also false on a value [ParseFloat] rejects; Exists is true on any
    present key, and Contains with the empty substring as well. *)
Theorem evaluateCondition_leaf_edges (r : AWSResource) (key : string) :
  (Tags r !! key = None →
   ∀ value text bound,
     ruler.evaluateCondition r (Some (Exists_condition key)) = false ∧
     ruler.evaluateCondition r (Some (Equals_condition key value)) = false ∧
     ruler.evaluateCondition r (Some (Contains_condition key text)) = false ∧
     ruler.evaluateCondition r (Some (GreaterThan_condition key bound)) = false ∧
     ruler.evaluateCondition r (Some (LessThan_condition key bound)) = false) ∧
  (∀ x, Tags r !! key = Some x →
        ruler.evaluateCondition r (Some (Exists_condition key)) = true ∧
        ruler.evaluateCondition r (Some (Contains_condition key "")) = true ∧
        (ParseFloat x = None →
         ∀ bound,
           ruler.evaluateCondition r (Some (GreaterThan_condition key bound)) = false ∧
           ruler.evaluateCondition r (Some (LessThan_condition key bound)) = false)).
Proof.
  unfold ruler.evaluateCondition, Exists_condition, Equals_condition, Contains_condition,
    GreaterThan_condition, LessThan_condition.
  cbn [ruler.evaluate Exists_Key Equals_Key Contains_Key Contains_Value Numeric_Key].
  split.
  - intros Hkey value text bound. rewrite Hkey.
    split_and!; try done; apply bool_decide_eq_false; by intros [? ?].
  - intros x Hkey. rewrite Hkey. split; [|split].
    + apply bool_decide_eq_true. by exists x.
    + by destruct x.
    + intros Hparse bound. by rewrite Hparse.
Qed.

Lemma missing_keys_Tags (r r' : AWSResource) (keys : list string) :
  Tags r' = Tags r → missing_keys r' keys = missing_keys r keys.
Proof.
  intros Htags. unfold missing_keys, ruler.has_tag. by rewrite Htags.
Qed.

(** X9: when a rule applies, [applyAction] appends, in this order, one
    "Missing required tag" error for each [MustContainKeys] entry without a
    tag and then the [Error] text if it is not empty, and one "Missing
    recommended tag" warning for each [ShouldContainKeys] entry without a
    tag and then the [Warn] text if it is not empty; a nil action does
    nothing.  So only a missing required key or an [Error] text can make a
    compliant resource non-compliant. *)
Theorem applyAction_findings (r : AWSResource) (action : Action) :
  let errors := map required_message (missing_keys r (MustContainKeys action)) ++
                literal (Error action) in
  let warnings := map recommended_message (missing_keys r (ShouldContainKeys action)) ++
                  literal (Warn action) in
  Errors (ruler.applyAction r (Some action)) =
    Errors r ++ map (fun m => {| Message := m |}) errors ∧
  Warnings (ruler.applyAction r (Some action)) =
    Warnings r ++ map (fun m => {| WarningMessage := m |}) warnings ∧
  Tags (ruler.applyAction r (Some action)) = Tags r ∧
  ruler.applyAction r None = r ∧
  (IsCompliant (ruler.applyAction r (Some action)) =
     IsCompliant r && (length errors =? 0)%nat).
Proof.
  intros errors warnings.
  assert (Hall : Errors (ruler.applyAction r (Some action)) =
                   Errors r ++ map (fun m => {| Message := m |}) errors ∧
                 Warnings (ruler.applyAction r (Some action)) =
                   Warnings r ++ map (fun m => {| WarningMessage := m |}) warnings ∧
                 Tags (ruler.applyAction r (Some action)) = Tags r).
  { unfold ruler.applyAction. cbv zeta.
    rewrite (foldl_missing_errors required_message).
    rewrite (foldl_missing_warnings recommended_message).
    set (r1 := add_errors r (map required_message (missing_keys r (MustContainKeys action)))).
    destruct (Errors_add_errors r
                (map required_message (missing_keys r (MustContainKeys action))))
      as (He1 & Hw1 & Ht1). fold r1 in He1, Hw1, Ht1.
    rewrite (missing_keys_Tags r r1 _ Ht1).
    set (r2 := add_warnings r1
                 (map recommended_message (missing_keys r (ShouldContainKeys action)))).
    destruct (Warnings_add_warnings r1
                (map recommended_message (missing_keys r (ShouldContainKeys action))))
      as (Hw2 & He2 & Ht2). fold r2 in He2, Hw2, Ht2.
    unfold errors, warnings, literal. rewrite !map_app.
    destruct (String.eqb (Error action) ""), (String.eqb (Warn action) "");
      cbn [negb Errors Warnings Tags ResourceTags AddComplianceError AddComplianceWarning
           map];
      fold (Tags r2); rewrite ?He2, ?Hw2, ?Ht2, ?He1, ?Hw1, ?Ht1, ?app_nil_r, <- ?app_assoc;
      done. }
  destruct Hall as (He & Hw & Ht). split_and!; [done..|].
  unfold IsCompliant. rewrite He, length_app, length_map.
  destruct (Errors r), errors; reflexivity.
Qed.

(** The accumulator of the loop of [ValidateAll]. *)
Lemma ValidateAll_foldl (p : TagPolicy) (resources validated : list AWSResource)
      (compliant nonCompliant : Z) :
  foldl (fun (acc : list AWSResource * Z * Z) resource =>
           let '(validated, compliant, nonCompliant) := acc in
           let resource := ruler.Validate resource p in
           if IsCompliant resource
           then (validated ++ [resource], compliant + 1, nonCompliant)
           else (validated ++ [resource], compliant, nonCompliant + 1))
        (validated, compliant, nonCompliant) resources =
  (validated ++ map (fun r => ruler.Validate r p) resources,
   compliant +
     Z.of_nat (length (List.filter IsCompliant (map (fun r => ruler.Validate r p) resources))),
   nonCompliant +
     Z.of_nat (length (List.filter (fun r => negb (IsCompliant r))
                                   (map (fun r => ruler.Validate r p) resources)))).
Proof.
  revert validated compliant nonCompliant.
  induction resources as [|r resources IH]; intros validated compliant nonCompliant.
  - simpl. by rewrite app_nil_r, !Z.add_0_r.
  - cbn [foldl map List.filter].
    destruct (IsCompliant (ruler.Validate r p)); rewrite IH; cbn [negb length];
      rewrite <- app_assoc; cbn [app]; f_equal; try done; try lia;
      f_equal; try done; lia.
Qed.

(** X10: [ValidateAll] validates every resource once, in order; the first
    count is the number of resources compliant after their validation, the
    second the number of those that are not, and the two add up to the
    number of resources. *)
Theorem ValidateAll_counts (resources : list AWSResource) (p : TagPolicy) :
  let validated := map (fun r => ruler.Validate r p) resources in
  ruler.ValidateAll resources p =
    (validated,
     Z.of_nat (length (List.filter IsCompliant validated)),
     Z.of_nat (length (List.filter (fun r => negb (IsCompliant r)) validated))) ∧
  Z.of_nat (length (List.filter IsCompliant validated)) +
  Z.of_nat (length (List.filter (fun r => negb (IsCompliant r)) validated)) =
    Z.of_nat (length resources).
Proof.
  intros validated. split.
  - unfold ruler.ValidateAll. by rewrite ValidateAll_foldl.
  - assert (Hlen : length validated = length resources) by apply length_map.
    rewrite <- Hlen. clearbody validated. clear Hlen.
    induction validated as [|r l IH]; [done|].
    cbn [List.filter length]. destruct (IsCompliant r); cbn [negb length]; lia.
Qed.

End RulerConditions.

Lemma evaluateCondition_And_Or_witness :
  let sub := Some (Equals_condition (H := sample.lib) "environment" "prod") in
  let subs := [ Some (Exists_condition (H := sample.lib) "critical") ] in
  let c := And_condition (H := sample.lib) (sub :: subs) in
  ruler.evaluateCondition (H := sample.lib)
    (fresh "arn:aws:ec2:instance/i-1" {[ "environment" := "prod"; "critical" := "true" ]})
    (Some c) = true ∧
  ruler.evaluateCondition (H := sample.lib)
    (fresh "arn:aws:ec2:instance/i-2" {[ "environment" := "prod" ]}) (Some c) = false.
Proof.
  intros sub subs c.
  assert (Hc : no_leaf_operator (H := sample.lib) c) by by repeat split.
  split.
  - destruct (evaluateCondition_And_Or (H := sample.lib)
                (fresh "arn:aws:ec2:instance/i-1"
                       {[ "environment" := "prod"; "critical" := "true" ]})
                c sub subs Hc) as [Hand _].
    rewrite (Hand eq_refl). reflexivity.
  - destruct (evaluateCondition_And_Or (H := sample.lib)
                (fresh "arn:aws:ec2:instance/i-2" {[ "environment" := "prod" ]})
                c sub subs Hc) as [Hand _].
    rewrite (Hand eq_refl). reflexivity.
Defined.

(** * Further properties of the policy resolver *)

Section ResolverMerge.
Context `{!GoLib}.

(** The loop of [processResource] over the validations of one blueprint. *)
Lemma foldl_blueprint_validations (own : TagPolicy) (l : list (string * Validation))
      (vs : gmap string Validation) (key : string) :
  NoDup l.*1 →
  foldl (fun vs '(key, validation) =>
           match Validations own !! key with
           | None => <[ key := validation ]> vs
           | Some _ => vs
           end) vs l !! key =
  match Validations own !! key with
  | Some _ => vs !! key
  | None => match (list_to_map l : gmap string Validation) !! key with
            | Some v => Some v
            | None => vs !! key
            end
  end.
Proof.
  revert vs. induction l as [|[k v] l IH]; intros vs Hnodup.
  - simpl. rewrite lookup_empty. by destruct (Validations own !! key).
  - apply NoDup_cons in Hnodup as [Hk Hnodup]. cbn [foldl]. rewrite (IH _ Hnodup).
    cbn [list_to_map foldr]. fold (list_to_map (M := gmap string Validation) l).
    destruct (Validations own !! key) as [w|] eqn:Hown.
    + destruct (Validations own !! k) eqn:Hownk; [done|].
      rewrite lookup_insert_ne; [done|]. intros ->. congruence.
    + destruct (decide (k = key)) as [->|Hne].
      * rewrite Hown, lookup_insert_eq.
        rewrite (not_elem_of_list_to_map_1 _ _ Hk). by rewrite lookup_insert_eq.
      * rewrite (lookup_insert_ne (list_to_map l)) by done.
        destruct (list_to_map l !! key); [done|].
        destruct (Validations own !! k); [done|]. by rewrite lookup_insert_ne.
Qed.

Lemma foldM_extend_merge (blueprints : gmap string (option Blueprint)) (own : TagPolicy)
      (paths : list string) (st st' : policy.merge_state) :
  policy.foldM (policy.extend blueprints own) st paths = Some st' →
  policy.definition_Rules st' =
    policy.definition_Rules st ++
    flat_map (fun extendPath =>
                match resolved blueprints extendPath with
                | Some blueprint => Rules blueprint
                | None => []
                end) paths ∧
  (∀ key, policy.definition_Validations st' !! key =
          match Validations own !! key with
          | Some _ => policy.definition_Validations st !! key
          | None => last_validation blueprints key
                      (policy.definition_Validations st !! key) paths
          end).
Proof.
  revert st. induction paths as [|path paths IH]; intros st Hfold.
  - injection Hfold as <-. split; [by rewrite app_nil_r|].
    intros key. by destruct (Validations own !! key).
  - simpl in Hfold.
    destruct (policy.extend blueprints own st path) as [st1|] eqn:Hstep; [|done].
    destruct (IH st1 Hfold) as [Hrules Hvals].
    unfold policy.extend in Hstep. unfold last_validation, resolved. cbn [flat_map foldl].
    destruct (policy.blueprint_name path) as [name|]; [|done].
    destruct (policy.lookup_blueprint blueprints name) as [blueprint|]; [|done].
    injection Hstep as <-. cbn [policy.definition_Rules policy.definition_Validations] in *.
    split; [by rewrite Hrules, <- app_assoc|].
    intros key. rewrite Hvals.
    rewrite (foldl_blueprint_validations own _ _ key)
      by apply NoDup_fst_map_to_list.
    rewrite list_to_map_to_list.
    destruct (Validations own !! key); [done|].
    unfold last_validation, resolved.
    by destruct (Validations blueprint !! key).
Qed.

Lemma foldM_extend_Some (config : Policy) (blueprints : gmap string (option Blueprint))
      (own : TagPolicy) (paths : list string) (st st' : policy.merge_state) :
  Blueprints config = Some blueprints →
  policy.foldM (policy.extend blueprints own) st paths = Some st' →
  forallb (policy.resolves config) paths = true.
Proof.
  intros Hbp. revert st. induction paths as [|path paths IH]; intros st Hfold; [done|].
  simpl in Hfold.
  destruct (policy.extend blueprints own st path) as [st1|] eqn:Hstep; [|done].
  simpl. rewrite (IH st1 Hfold), andb_true_r.
  unfold policy.resolves. rewrite Hbp. unfold policy.extend in Hstep.
  destruct (policy.blueprint_name path) as [name|]; [|done].
  by destruct (policy.lookup_blueprint blueprints name).
Qed.

(** The state [processResource] reaches after the loop over [extends]. *)
Lemma processResource_state (config : Policy) (rc : ResourceConfig)
      (st0 st : policy.merge_state) :
  policy.definition_Validations st0 = ∅ →
  policy.definition_Rules st0 = [] →
  match Blueprints config with
  | Some blueprints =>
      if (0 <? length (Extends rc))%nat
      then policy.foldM (policy.extend blueprints (own_policy rc)) st0 (Extends rc)
      else Some st0
  | None => Some st0
  end = Some st →
  forallb (policy.resolves config) (Extends rc) = true ∧
  policy.definition_Rules st = extended_rules config rc ∧
  (∀ key, policy.definition_Validations st !! key =
          match Validations (own_policy rc) !! key with
          | Some _ => None
          | None => extended_validation config rc key
          end).
Proof.
  intros Hvs0 Hrs0. unfold extended_rules, extended_validation.
  destruct (Blueprints config) as [blueprints|] eqn:Hbp.
  - destruct (Extends rc) as [|path paths] eqn:Hext.
    + cbn [length Nat.ltb Nat.leb]. intros [= <-]. split_and!; [done..|].
      intros key. rewrite Hvs0, lookup_empty.
      by destruct (Validations (own_policy rc) !! key).
    + cbn [length Nat.ltb Nat.leb]. intros Hfold. split_and!.
      * by apply (foldM_extend_Some config blueprints (own_policy rc) _ st0 st).
      * destruct (foldM_extend_merge blueprints (own_policy rc) _ st0 st Hfold)
          as [Hrules _].
        by rewrite Hrules, Hrs0.
      * intros key.
        destruct (foldM_extend_merge blueprints (own_policy rc) _ st0 st Hfold)
          as [_ Hvals].
        by rewrite Hvals, Hvs0, lookup_empty.
  - intros [= <-]. split_and!; [|done|].
    + unfold policy.resolves. rewrite Hbp. by induction (Extends rc).
    + intros key. rewrite Hvs0, lookup_empty.
      by destruct (Validations (own_policy rc) !! key).
Qed.

(** What [processResource] puts into the definition it returns. *)
Lemma processResource_merged (config : Policy) (service resourceType : string)
      (rc : ResourceConfig) (def : ResourceDefinition) :
  policy.processResource config service resourceType (Some rc) = Some def →
  forallb (policy.resolves config) (Extends rc) = true ∧
  Rules (RD_TagPolicy def) = extended_rules config rc ++ Rules (own_policy rc) ∧
  (∀ key, Validations (RD_TagPolicy def) !! key =
          match Validations (own_policy rc) !! key with
          | Some v => Some v
          | None => extended_validation config rc key
          end).
Proof.
  unfold policy.processResource. fold (own_policy rc).
  set (st0 := {| policy.resourceKeys := foldl policy.add_key ∅ (MandatoryKeys (own_policy rc));
                 policy.definition_Validations := ∅;
                 policy.definition_Rules := [] |}).
  destruct (match Blueprints config with
            | Some blueprints =>
                if (0 <? length (Extends rc))%nat
                then policy.foldM (policy.extend blueprints (own_policy rc)) st0 (Extends rc)
                else Some st0
            | None => Some st0
            end) as [st|] eqn:Hst; [|done].
  intros [= <-]. cbn [RD_TagPolicy Rules Validations].
  destruct (processResource_state config rc st0 st eq_refl eq_refl Hst)
    as (Hres & Hrules & Hvals).
  split_and!; [done|by rewrite Hrules|].
  intros key. specialize (Hvals key).
  destruct (Validations (own_policy rc) !! key) as [v|] eqn:Hown.
  - by apply lookup_union_Some_l.
  - by rewrite lookup_union_r.
Qed.

(** X11: when [processResource] returns a definition for a configuration,
    its rules are the rules of the blueprints of the [extends] list, in
    the order of that list, followed by the configuration's own rules;
    nothing is dropped or merged. *)
Theorem processResource_rules (config : Policy) (service resourceType : string)
        (rc : ResourceConfig) (def : ResourceDefinition) :
  policy.processResource config service resourceType (Some rc) = Some def →
  Rules (RD_TagPolicy def) = extended_rules config rc ++ Rules (own_policy rc) ∧
  length (Rules (RD_TagPolicy def)) =
    (length (extended_rules config rc) + length (Rules (own_policy rc)))%nat.
Proof.
  intros Hdef.
  destruct (processResource_merged config service resourceType rc def Hdef)
    as (_ & Hrules & _).
  split; [done|]. by rewrite Hrules, length_app.
Qed.

(** X12: when [processResource] returns a definition for a configuration,
    the validation of a key is the configuration's own one when it has
    one; otherwise it is the validation of the last blueprint of the
    [extends] list that has one for the key, and there is none when no
    blueprint has. *)
Theorem processResource_validations (config : Policy) (service resourceType : string)
        (rc : ResourceConfig) (def : ResourceDefinition) (key : string) :
  policy.processResource config service resourceType (Some rc) = Some def →
  Validations (RD_TagPolicy def) !! key =
    match Validations (own_policy rc) !! key with
    | Some v => Some v
    | None => extended_validation config rc key
    end.
Proof.
  intros Hdef.
  destruct (processResource_merged config service resourceType rc def Hdef)
    as (_ & _ & Hvals).
  apply Hvals.
Qed.

End ResolverMerge.

Section ResolverProcess.
Context `{!GoLib}.

(** X13: for a configuration that is present [processResource] returns a
    definition exactly when every entry of its [extends] list resolves to
    a blueprint with a policy (always when the policy has no blueprints
    section); on any other entry the Go code panics.  The definition
    carries the service and resource type it was asked for, and an absent
    configuration gives the definition with an empty policy. *)
Theorem processResource_returns_iff (config : Policy) (service resourceType : string)
        (rc : ResourceConfig) :
  (is_Some (policy.processResource config service resourceType (Some rc)) ↔
   forallb (policy.resolves config) (Extends rc) = true) ∧
  (∀ resourceConfig def,
     policy.processResource config service resourceType resourceConfig = Some def →
     Service def = service ∧ ResourceType def = resourceType) ∧
  policy.processResource config service resourceType None =
    Some {| Service := service; ResourceType := resourceType;
            RD_TagPolicy := policy.empty_TagPolicy |}.
Proof.
  split_and!; [split| |done].
  - intros [def Hdef].
    by destruct (processResource_merged config service resourceType rc def Hdef).
  - intros Hres.
    destruct (processResource_keys config service resourceType rc Hres) as (def & -> & _).
    by eexists.
  - intros [rc'|] def; [|by intros [= <-]].
    intros Hdef.
    destruct (processResource_merged config service resourceType rc' def Hdef)
      as (Hres & _).
    destruct (processResource_keys config service resourceType rc' Hres)
      as (def' & Hdef' & Hs & Ht & _).
    rewrite Hdef in Hdef'. by injection Hdef' as <-.
Qed.

Lemma processResource_is_Some (config : Policy) (service resourceType : string)
      (resourceConfig : option ResourceConfig) :
  is_Some (policy.processResource config service resourceType resourceConfig) ↔
  match resourceConfig with
  | Some rc => forallb (policy.resolves config) (Extends rc) = true
  | None => True
  end.
Proof.
  destruct resourceConfig as [rc|]; [|by split; [|eexists]].
  split.
  - intros [def Hdef].
    by destruct (processResource_merged config service resourceType rc def Hdef).
  - intros Hres.
    destruct (processResource_keys config service resourceType rc Hres) as (def & -> & _).
    by eexists.
Qed.

Lemma processResource_pair (config : Policy) (service resourceType : string)
      (resourceConfig : option ResourceConfig) (def : ResourceDefinition) :
  policy.processResource config service resourceType resourceConfig = Some def →
  definition_pair def = (service, resourceType).
Proof.
  destruct resourceConfig as [rc|]; [|by intros [= <-]].
  intros Hdef.
  destruct (processResource_merged config service resourceType rc def Hdef) as (Hres & _).
  destruct (processResource_keys config service resourceType rc Hres)
    as (def' & Hdef' & Hs & Ht & _).
  rewrite Hdef in Hdef'. injection Hdef' as <-. unfold definition_pair. by rewrite Hs, Ht.
Qed.

(** The loop of [ProcessPolicy]. *)
Lemma ProcessPolicy_foldM (config : Policy)
      (l : list (string * string * option ResourceConfig))
      (acc : list ResourceDefinition) :
  match policy.foldM
          (fun definitions '(service, resourceType, resourceConfig) =>
             match policy.processResource config service resourceType resourceConfig with
             | None => None
             | Some definition => Some (definitions ++ [definition])
             end) acc l with
  | Some defs =>
      (∃ new, defs = acc ++ new ∧ map definition_pair new = map declared_pair l) ∧
      ∀ service resourceType rc,
        (service, resourceType, Some rc) ∈ l →
        forallb (policy.resolves config) (Extends rc) = true
  | None =>
      ∃ service resourceType rc,
        (service, resourceType, Some rc) ∈ l ∧
        forallb (policy.resolves config) (Extends rc) = false
  end.
Proof.
  revert acc. induction l as [|[[service resourceType] orc] l IH]; intros acc.
  - simpl. split; [exists []; by rewrite app_nil_r|]. intros ? ? ? Hin. by inversion Hin.
  - cbn [policy.foldM].
    destruct (policy.processResource config service resourceType orc) as [def|] eqn:Hdef.
    + specialize (IH (acc ++ [def])).
      destruct (policy.foldM _ (acc ++ [def]) l) as [defs|].
      * destruct IH as [(new & -> & Hpairs) Hres]. split.
        -- exists (def :: new). split; [by rewrite <- app_assoc|].
           cbn [map]. rewrite Hpairs. f_equal.
           apply (processResource_pair config service resourceType orc def Hdef).
        -- intros s t rc Hin. apply elem_of_cons in Hin as [Heq|Hin]; [|by eapply Hres].
           injection Heq as -> -> <-.
           apply (processResource_is_Some config service resourceType (Some rc)).
           by eexists.
      * destruct IH as (s & t & rc & Hin & Hres).
        exists s, t, rc. split; [by apply list_elem_of_further|done].
    + destruct orc as [rc|]; [|done].
      exists service, resourceType, rc. split; [apply list_elem_of_here|].
      destruct (forallb (policy.resolves config) (Extends rc)) eqn:Hres; [|done].
      apply (processResource_is_Some config service resourceType (Some rc)) in Hres.
      destruct Hres as [def' Hdef']. congruence.
Qed.

(** X14: [ProcessPolicy] returns definitions exactly when every reference
    of every declared configuration resolves (otherwise the Go code
    panics); it then returns one definition for each declared (service,
    resource type) pair, in the order the pairs are visited, a pair
    without configuration included; a policy without resources gives no
    definition. *)
Theorem ProcessPolicy_one_definition_per_resource (config : Policy) :
  (is_Some (policy.ProcessPolicy config) ↔ all_resolve config) ∧
  (∀ defs, policy.ProcessPolicy config = Some defs →
           map definition_pair defs = map declared_pair (policy.declared_resources config) ∧
           length defs = length (policy.declared_resources config)) ∧
  (Resources config = None ∨ Resources config = Some ∅ →
   policy.ProcessPolicy config = Some []).
Proof.
  pose proof (ProcessPolicy_foldM config (policy.declared_resources config) []) as Hfold.
  fold (policy.ProcessPolicy config) in Hfold.
  split_and!.
  - split.
    + intros [defs Hdefs]. rewrite Hdefs in Hfold. destruct Hfold as [_ Hres]. exact Hres.
    + intros Hall. destruct (policy.ProcessPolicy config) as [defs|]; [by eexists|].
      destruct Hfold as (s & t & rc & Hin & Hres). by rewrite (Hall s t rc Hin) in Hres.
  - intros defs Hdefs. rewrite Hdefs in Hfold.
    destruct Hfold as [(new & -> & Hpairs) _]. simpl. split; [done|].
    by rewrite <- (length_map definition_pair), Hpairs, length_map.
  - intros [Hnil|Hempty]; unfold policy.ProcessPolicy, policy.declared_resources.
    + by rewrite Hnil.
    + rewrite Hempty. by rewrite map_to_list_empty.
Qed.

End ResolverProcess.

Lemma processResource_rules_witness :
  ∃ def,
    policy.processResource merge_policy "ec2" "instance" (Some merge_config) = Some def ∧
    Rules (RD_TagPolicy def) =
      [ rule_with_error "temporary" "base"; rule_with_error "public" "strict";
        rule_with_error "legacy" "own" ].
Proof.
  destruct (processResource_keys (H := sample.lib) merge_policy "ec2" "instance"
              merge_config eq_refl) as (def & Hdef & _).
  exists def. split; [done|].
  destruct (processResource_rules (H := sample.lib) merge_policy "ec2" "instance"
              merge_config def Hdef) as [-> _].
  reflexivity.
Defined.

Lemma processResource_validations_witness :
  ∃ def,
    policy.processResource merge_policy "ec2" "instance" (Some merge_config) = Some def ∧
    Validations (RD_TagPolicy def) !! "environment" = Some (allowed ["prod"]) ∧
    Validations (RD_TagPolicy def) !! "ttl" = Some short_ttl ∧
    Validations (RD_TagPolicy def) !! "owner" = None.
Proof.
  destruct (processResource_keys (H := sample.lib) merge_policy "ec2" "instance"
              merge_config eq_refl) as (def & Hdef & _).
  exists def. split; [done|].
  rewrite !(processResource_validations (H := sample.lib) merge_policy "ec2" "instance"
              merge_config def _ Hdef).
  split_and!; reflexivity.
Defined.

Lemma processResource_returns_iff_witness :
  policy.processResource merge_policy "ec2" "instance" (Some dangling_config) = None.
Proof.
  destruct (processResource_returns_iff (H := sample.lib) merge_policy "ec2" "instance"
              dangling_config) as ([Hsome _] & _).
  destruct (policy.processResource merge_policy "ec2" "instance" (Some dangling_config))
    as [def|]; [|done].
  assert (Hres : forallb (policy.resolves merge_policy) (Extends dangling_config) = true)
    by (apply Hsome; by eexists).
  discriminate Hres.
Defined.

(** ** The format of an [extends] reference *)

Lemma append_cons (c : ascii) (x y : string) : String c x +:+ y = String c (x +:+ y).
Proof. reflexivity. Qed.

Lemma append_empty_r (x : string) : x +:+ "" = x.
Proof. induction x as [|c x IH]; [done|]. by rewrite append_cons, IH. Qed.

Lemma append_String_assoc (x : string) (a : ascii) (s : string) :
  (x +:+ String a "") +:+ s = x +:+ String a s.
Proof. induction x as [|c x IH]; [done|]. by rewrite !append_cons, IH. Qed.

Lemma rev_app_append (s1 s2 : string) :
  String.rev_app s1 s2 = String.rev s1 +:+ s2.
Proof.
  unfold String.rev. revert s2. induction s1 as [|a s1 IH]; intros s2; [done|].
  cbn [String.rev_app]. rewrite (IH (String a s2)), (IH (String a "")).
  by rewrite append_String_assoc.
Qed.

(** [split_from] either finds no separator and returns the one field, or
    cuts at the first separator and goes on behind it. *)
Lemma split_from_cases (cur s : string) (sep : ascii) :
  (has_byte s sep = false ∧
   strings.split_from cur s sep = [String.rev cur +:+ s]) ∨
  (∃ a b, s = a +:+ String sep b ∧ has_byte a sep = false ∧
          strings.split_from cur s sep =
            (String.rev cur +:+ a) :: strings.split_from "" b sep).
Proof.
  revert cur. induction s as [|c s IH]; intros cur.
  - left. split; [done|]. cbn [strings.split_from]. by rewrite append_empty_r.
  - cbn [strings.split_from has_byte]. destruct (Ascii.eqb_spec c sep) as [->|Hne].
    + right. exists "", s. split_and!; [done..|]. by rewrite append_empty_r.
    + destruct (IH (String c cur)) as [[Hno Hsplit]|(a & b & -> & Hno & Hsplit)].
      * left. split; [done|]. rewrite Hsplit. unfold String.rev at 1.
        cbn [String.rev_app]. by rewrite rev_app_append, append_String_assoc.
      * right. exists (String c a), b. split_and!.
        -- done.
        -- cbn [has_byte]. rewrite Hno. by destruct (Ascii.eqb_spec c sep).
        -- rewrite Hsplit. unfold String.rev at 1.
           cbn [String.rev_app]. by rewrite rev_app_append, append_String_assoc.
Qed.

Lemma split_from_singleton (s x : string) (sep : ascii) :
  strings.split_from "" s sep = [x] → x = s ∧ has_byte s sep = false.
Proof.
  destruct (split_from_cases "" s sep) as [[Hno ->]|(a & b & -> & Hno & ->)].
  - by intros [= <-].
  - intros [= _ Hnil].
    by destruct (split_from_cases "" b sep) as [[_ Hb]|(? & ? & _ & _ & Hb)];
      rewrite Hb in Hnil.
Qed.

Lemma has_byte_append_sep (a b : string) (sep : ascii) :
  has_byte (a +:+ String sep b) sep = true.
Proof.
  induction a as [|c a IH].
  - change ("" +:+ String sep b) with (String sep b). cbn [has_byte].
    by rewrite Ascii.eqb_refl.
  - rewrite append_cons. cbn [has_byte]. by rewrite IH, orb_true_r.
Qed.

(** X15: [validateExtendsFormat] accepts exactly the references made of
    the text blueprints, one dot and a non-empty name without a dot; the
    empty string, a missing or second dot, another prefix and an empty
    name are refused. *)
Theorem validateExtendsFormat_spec (extend : string) :
  policy.validateExtendsFormat extend = true ↔
  ∃ name, extend = "blueprints." +:+ name ∧ name ≠ "" ∧ has_byte name "." = false.
Proof.
  unfold policy.validateExtendsFormat, strings.Split. split.
  - destruct (String.eqb extend ""); [done|].
    destruct (split_from_cases "" extend ".") as [[_ ->]|(a & b & -> & Hno & ->)]; [done|].
    change (String.rev "" +:+ a) with a.
    destruct (strings.split_from "" b ".") as [|p1 [|? ?]] eqn:Hb; [done| |done].
    intros Hok. apply andb_true_iff in Hok as [Ha Hp1].
    apply String.eqb_eq in Ha as ->.
    apply split_from_singleton in Hb as [-> Hdot].
    exists b. split_and!; [done| |done].
    intros ->. by rewrite String.eqb_refl in Hp1.
  - intros (name & -> & Hname & Hdot).
    change ("blueprints." +:+ name) with ("blueprints" +:+ String "." name).
    change (String.eqb ("blueprints" +:+ String "." name) "") with false. cbv iota.
    destruct (split_from_cases "" ("blueprints" +:+ String "." name) ".")
      as [[Hno _]|(a & b & Heq & Hno & ->)].
    { by rewrite has_byte_append_sep in Hno. }
    change (String.rev "" +:+ a) with a.
    assert (a = "blueprints" ∧ b = name) as [-> ->].
    { clear -Heq Hno.
      do 10 (destruct a as [|? a]; [by simplify_eq|];
             rewrite append_cons in Heq; injection Heq as <- Heq;
             cbn [has_byte] in Hno; try done).
      destruct a as [|? a]; [by simplify_eq|].
      rewrite append_cons in Heq. injection Heq as <- Heq. cbn in Hno. done. }
    destruct (split_from_cases "" name ".") as [[_ ->]|(x & y & -> & _ & _)].
    + change (String.rev "" +:+ name) with name.
      rewrite String.eqb_refl. cbn [andb].
      by destruct (String.eqb_spec name "").
    + by rewrite has_byte_append_sep in Hdot.
Qed.

(** * Further properties of the structural validation *)

Lemma HasPrefix_append (p s : string) : strings.HasPrefix (p +:+ s) p = true.
Proof.
  induction p as [|a p IH]; [done|].
  rewrite append_cons. cbn [strings.HasPrefix]. by rewrite Ascii.eqb_refl.
Qed.

Lemma append_assoc (a b c : string) : a +:+ b +:+ c = (a +:+ b) +:+ c.
Proof. induction a as [|x a IH]; [done|]. by rewrite !append_cons, IH. Qed.

Lemma Contains_refl (s : string) : strings.Contains s s = true.
Proof.
  pose proof (HasPrefix_append s "") as Hp. rewrite append_empty_r in Hp.
  destruct s; cbn [strings.Contains]; by rewrite Hp.
Qed.

Section ValidationStruct.
Context `{!GoLib}.

Lemma ValidateValidationStruct_nil_fits (v : Validation) :
  policy.ValidateValidationStruct v = [] → fits_type v.
Proof.
  unfold policy.ValidateValidationStruct, fits_type, policy.when.
  destruct v as [type allowedValues regex minValue maxValue]. cbn [Type_ AllowedValues Regex MinValue MaxValue].
  destruct (String.eqb_spec type TagTypeBool) as [Hb|Hb];
    destruct (String.eqb_spec type TagTypeInt) as [Hi|Hi];
    destruct (String.eqb_spec type TagTypeString) as [Hs|Hs];
    try (subst type; discriminate);
    destruct (Z.eqb_spec minValue 0) as [Hmin|Hmin];
    destruct (Z.eqb_spec maxValue 0) as [Hmax|Hmax];
    destruct allowedValues as [|a0 al];
    destruct (String.eqb_spec regex "") as [Hre|Hre];
    cbn [negb andb app length Nat.ltb Nat.leb];
    (intros Hnil; try discriminate Hnil; by repeat split; eauto).
Qed.

(** X16: [ValidateValidationStruct] reports nothing exactly when the
    fields fit the type: [MinValue] and [MaxValue] are zero unless the type
    is int, [AllowedValues] is empty unless the type is int or string,
    [Regex] is empty unless the type is string, and [Regex] and
    [AllowedValues] are not both set. *)
Theorem ValidateValidationStruct_accepts (v : Validation) :
  policy.ValidateValidationStruct v = [] ↔ fits_type v.
Proof.
  unfold policy.ValidateValidationStruct, fits_type, policy.when.
  destruct v as [type allowedValues regex minValue maxValue]. cbn [Type_ AllowedValues Regex MinValue MaxValue].
  destruct (String.eqb_spec type TagTypeBool) as [Hb|Hb];
    destruct (String.eqb_spec type TagTypeInt) as [Hi|Hi];
    destruct (String.eqb_spec type TagTypeString) as [Hs|Hs];
    try (subst type; discriminate);
    destruct (Z.eqb_spec minValue 0) as [Hmin|Hmin];
    destruct (Z.eqb_spec maxValue 0) as [Hmax|Hmax];
    destruct allowedValues as [|a0 al];
    destruct (String.eqb_spec regex "") as [Hre|Hre];
    cbn [negb andb app length Nat.ltb Nat.leb];
    (split; [intros Hnil; try discriminate Hnil; by repeat split; eauto
            | intros (H1 & H2 & H3 & H4); try done; exfalso;
              repeat match goal with
                     | H : _ ∨ _ |- _ => destruct H
                     | H : _ ∧ _ |- _ => destruct H
                     end; congruence]).
Qed.

Lemma validate_Validation_nil (v : Validation) :
  policy.validate_Validation v = [] →
  strings.slices_Contains ["bool"; "string"; "int"] (Type_ v) = true ∧
  policy.validateRegexCompilation (Regex v) = true ∧
  policy.ValidateValidationStruct v = [].
Proof.
  unfold policy.validate_Validation, policy.when. intros Hnil.
  apply app_eq_nil in Hnil as [Htype Hnil].
  apply app_eq_nil in Hnil as [_ Hnil].
  apply app_eq_nil in Hnil as [Hregex Hnil].
  apply app_eq_nil in Hnil as [_ Hstruct].
  split_and!; [|by destruct (policy.validateRegexCompilation (Regex v))|done].
  destruct (String.eqb (Type_ v) ""); [done|].
  by destruct (strings.slices_Contains ["bool"; "string"; "int"] (Type_ v)).
Qed.

(** What the walk of the validator guarantees of a validation it finds
    nothing on. *)
Lemma validate_Validation_nil_guarantees (v : Validation) :
  policy.validate_Validation v = [] →
  (Type_ v = TagTypeBool ∨ Type_ v = TagTypeString ∨ Type_ v = TagTypeInt) ∧
  fits_type v ∧
  regex_xor_allowedvalues v ∧
  (Regex v = "" ∨ ∃ regex, regexp_Compile (Regex v) = Some regex).
Proof.
  intros Hnil. destruct (validate_Validation_nil v Hnil) as (Htype & Hregex & Hstruct).
  apply ValidateValidationStruct_nil_fits in Hstruct.
  split_and!.
  - unfold strings.slices_Contains in Htype. cbn [existsb] in Htype.
    destruct (String.eqb_spec (Type_ v) "bool"); [by left|].
    destruct (String.eqb_spec (Type_ v) "string"); [by right; left|].
    destruct (String.eqb_spec (Type_ v) "int"); [by right; right|done].
  - done.
  - by destruct Hstruct as (_ & _ & _ & Hxor).
  - unfold policy.validateRegexCompilation in Hregex.
    destruct (String.eqb_spec (Regex v) ""); [by left|].
    destruct (regexp_Compile (Regex v)) as [regex|]; [|done]. right. by exists regex.
Qed.

Lemma In_ValidatePolicyStruct (p : Policy) (e : policy.FieldError) :
  In e (policy.ValidatePolicyStruct p) → In e (policy.validate_Struct p).
Proof.
  intros He. unfold policy.validate_Struct. do 2 (apply in_or_app; right). done.
Qed.

Lemma ValidatePolicy_In (p : Policy) (e : policy.FieldError) :
  In e (policy.validate_Struct p) →
  ∃ msgs, policy.ValidatePolicy (Some p) = Some (policy.ParserErrors msgs) ∧
          In (policy.Translate e) msgs.
Proof.
  intros Hin. rewrite ValidatePolicy_unfold.
  destruct (policy.validate_Struct p) as [|e0 errs] eqn:Herrs; [done|].
  eexists. split; [done|]. by apply in_map.
Qed.

(** X18: validation fails for a policy whose [resources] section is
    missing (both the field tag and the struct-level check report it) or
    empty, and for a policy that lists a service without any resource
    type; a nil policy gives the unexpected-error result. *)
Theorem ValidatePolicy_rejects_missing_resources (p : Policy) :
  (Resources p = None →
   ∃ msgs, policy.ValidatePolicy (Some p) = Some (policy.ParserErrors msgs) ∧
           In (builtin_translation "required" "resources" "") msgs ∧
           In (builtin_translation "required" "Resources" "") msgs) ∧
  (Resources p = Some ∅ →
   ∃ msgs, policy.ValidatePolicy (Some p) = Some (policy.ParserErrors msgs) ∧
           In (builtin_translation "min" "resources" "1") msgs) ∧
  (∀ services sname,
     Resources p = Some services → services !! sname = Some None →
     ∃ msgs, policy.ValidatePolicy (Some p) = Some (policy.ParserErrors msgs) ∧
             In (builtin_translation "required" "ResourceType" "") msgs) ∧
  policy.ValidatePolicy None = Some policy.UnexpectedError.
Proof.
  split_and!; [| | |done].
  - intros Hnil.
    assert (H1 : In (policy.ReportError "" "resources" "required" "")
                    (policy.validate_Struct p)).
    { unfold policy.validate_Struct. rewrite Hnil.
      apply in_or_app; right. apply in_or_app; left. by left. }
    assert (H2 : In (policy.ReportError "" "Resources" "required" "")
                    (policy.validate_Struct p)).
    { apply In_ValidatePolicyStruct. unfold policy.ValidatePolicyStruct. rewrite Hnil.
      apply in_or_app; left. by left. }
    rewrite ValidatePolicy_unfold.
    destruct (policy.validate_Struct p) as [|e0 errs] eqn:Herrs; [done|].
    eexists. split; [done|]. split.
    + apply (in_map policy.Translate) in H1. exact H1.
    + apply (in_map policy.Translate) in H2. exact H2.
  - intros Hempty.
    destruct (ValidatePolicy_In p (policy.ReportError "" "resources" "min" "1"))
      as (msgs & Hmsgs & Hin).
    { unfold policy.validate_Struct. rewrite Hempty.
      apply in_or_app; right. apply in_or_app; left. by left. }
    by exists msgs.
  - intros services sname Hres Hsvc.
    destruct (ValidatePolicy_In p (policy.ReportError "" "ResourceType" "required" ""))
      as (msgs & Hmsgs & Hin).
    { apply In_ValidatePolicyStruct. unfold policy.ValidatePolicyStruct. rewrite Hres.
      apply in_or_app; right. apply in_flat_map. exists (sname, None).
      split; [|by left]. apply list_elem_of_In. by apply elem_of_map_to_list. }
    by exists msgs.
Qed.

(** X19: a declared resource configuration with an [extends] entry of two
    dot-separated parts whose second part names no declared blueprint
    makes validation fail with the message that names the blueprint and
    the service and resource type that refer to it. *)
Theorem ValidatePolicy_reports_missing_blueprint (p : Policy) (sname rname : string)
        (rc : ResourceConfig) (extendName part0 name : string) :
  declares_config p sname rname rc →
  In extendName (Extends rc) →
  strings.Split extendName "." = [part0; name] →
  match Blueprints p with
  | Some blueprints => blueprints !! name = None
  | None => True
  end →
  ∃ msgs, policy.ValidatePolicy (Some p) = Some (policy.ParserErrors msgs) ∧
          In ("Blueprint '" +:+ name +:+ "' referenced in '" +:+
              (sname +:+ "." +:+ rname) +:+
              "' does not exist in the 'blueprints' section.") msgs.
Proof.
  intros (services & sr & Hres & Hsvc & Hrc) Hin Hsplit Hmissing.
  destruct (ValidatePolicy_In p
              (policy.ReportError extendName name "blueprint_exists"
                                  (sname +:+ "." +:+ rname)))
    as (msgs & Hmsgs & Hmsg).
  - apply In_ValidatePolicyStruct. unfold policy.ValidatePolicyStruct. rewrite Hres.
    apply in_or_app; right. apply in_flat_map. exists (sname, Some sr).
    split; [apply list_elem_of_In; by apply elem_of_map_to_list|].
    apply in_flat_map. exists (rname, Some rc).
    split; [apply list_elem_of_In; by apply elem_of_map_to_list|].
    apply in_flat_map. exists extendName. split; [done|].
    unfold policy.check_blueprint_exists. rewrite Hsplit.
    destruct (String.eqb_spec extendName "") as [->|_]; [done|].
    destruct (Blueprints p) as [blueprints|].
    + rewrite bool_decide_eq_false_2; [by left|]. rewrite Hmissing. by intros [? ?].
    + by left.
  - exists msgs. split; [done|]. exact Hmsg.
Qed.

(** X20: the text of a [ParserErrors] error starts with the number of
    messages and contains every message. *)
Theorem ParserErrors_Error_lists_messages (msgs : list string) :
  strings.HasPrefix (policy.ParserErrors_Error msgs)
                    (pretty (length msgs) +:+ " validation error(s) occurred:") = true ∧
  ∀ m, In m msgs → strings.Contains (policy.ParserErrors_Error msgs) m = true.
Proof.
  unfold policy.ParserErrors_Error. split.
  - rewrite append_assoc. apply HasPrefix_append.
  - intros m Hin. do 4 apply Contains_app_r.
    apply (Join_Contains msgs _ m m Hin), Contains_refl.
Qed.

End ValidationStruct.

Section ValidationRules.
Context `{!GoLib}.

Lemma In_validate_Struct_policy (p : Policy) (tp : TagPolicy) (e : policy.FieldError) :
  declares_policy p tp →
  In e (policy.validate_TagPolicy tp) →
  In e (policy.validate_Struct p).
Proof.
  intros [Hbp|Hres] He; unfold policy.validate_Struct.
  - destruct Hbp as (blueprints & name & b & Hbps & Hb & Htp).
    apply in_or_app; left. rewrite Hbps.
    apply in_flat_map. exists (name, Some b). split.
    + apply list_elem_of_In. by apply elem_of_map_to_list.
    + unfold policy.validate_Blueprint. by rewrite Htp.
  - destruct Hres as (services & sname & sr & rname & rc & Hsv & Hsr & Hrc & Htp).
    apply in_or_app; right. apply in_or_app; left. rewrite Hsv.
    destruct (size services <? 1)%nat eqn:Hsize.
    { apply Nat.ltb_lt in Hsize.
      assert (services = ∅) as -> by (apply map_size_empty_iff; lia).
      by rewrite lookup_empty in Hsr. }
    apply in_flat_map. exists (sname, Some sr). split.
    + apply list_elem_of_In. by apply elem_of_map_to_list.
    + apply in_or_app; right.
      apply in_flat_map. exists (rname, Some rc). split.
      * apply list_elem_of_In. by apply elem_of_map_to_list.
      * unfold policy.validate_ResourceConfig. rewrite Htp.
        apply in_or_app; left. done.
Qed.

Lemma ValidateConditionStruct_count (c : Condition) :
  operator_count c ≠ 1%nat →
  policy.ValidateConditionStruct c =
    [policy.ReportError "" "Condition" "exactly_one_condition_type" ""].
Proof.
  intros Hcount. unfold policy.ValidateConditionStruct. fold (operator_count c).
  by destruct (Nat.eqb_spec (operator_count c) 1).
Qed.

(** X21: a policy that declares, in a blueprint or a resource
    configuration, a rule whose condition does not set exactly one
    operator (none, or several) fails validation with the message "A
    Condition must specify exactly one operator"; conversely the
    struct-level check passes a condition with exactly one. *)
Theorem ValidatePolicy_rejects_operator_count (p : Policy) (tp : TagPolicy)
        (rule : Rule) (c : Condition) :
  declares_policy p tp →
  In rule (Rules tp) →
  When rule = Some c →
  (operator_count c ≠ 1%nat →
   ∃ msgs, policy.ValidatePolicy (Some p) = Some (policy.ParserErrors msgs) ∧
           In "A Condition must specify exactly one operator (e.g., exists, equals, and, or)."
              msgs) ∧
  (operator_count c = 1%nat → policy.ValidateConditionStruct c = []).
Proof.
  intros Hdecl Hrule Hwhen. split.
  - intros Hcount.
    destruct (ValidatePolicy_In p
                (policy.ReportError "" "Condition" "exactly_one_condition_type" ""))
      as (msgs & Hmsgs & Hmsg); [|by exists msgs].
    apply (In_validate_Struct_policy p tp _ Hdecl).
    unfold policy.validate_TagPolicy. do 2 (apply in_or_app; right).
    apply in_flat_map. exists rule. split; [done|].
    unfold policy.validate_Rule. rewrite Hwhen. apply in_or_app; left.
    pose proof (ValidateConditionStruct_count c Hcount) as Hstruct.
    destruct c as [cEx cEq cNe cCo cGt cLt cAnd cOr]. cbn [policy.validate_Condition].
    do 8 (apply in_or_app; right). rewrite Hstruct. by left.
  - intros Hcount. unfold policy.ValidateConditionStruct. fold (operator_count c).
    by rewrite Hcount.
Qed.

End ValidationRules.

Lemma ValidatePolicy_reports_missing_blueprint_witness :
  ∃ msgs, policy.ValidatePolicy (Some invalid_policy) = Some (policy.ParserErrors msgs) ∧
          In ("Blueprint 'nonexistent' referenced in 'ec2.instance' does not exist " +:+
              "in the 'blueprints' section.") msgs.
Proof.
  apply (ValidatePolicy_reports_missing_blueprint (H := sample.lib) invalid_policy
           "ec2" "instance"
           {| Config_TagPolicy :=
                Some {| MandatoryKeys := ["name"];
                        Validations := {[ "environment" := both_validation;
                                          "protected" := bounded_flag_validation ]};
                        Rules := [] |};
              Extends := ["blueprints.nonexistent"] |}
           "blueprints.nonexistent" "blueprints" "nonexistent").
  - eexists _, _. split_and!; reflexivity.
  - by left.
  - reflexivity.
  - exact I.
Defined.

Lemma ValidatePolicy_rejects_operator_count_witness :
  ∃ msgs, policy.ValidatePolicy (Some operatorless_policy) =
            Some (policy.ParserErrors msgs) ∧
          In "A Condition must specify exactly one operator (e.g., exists, equals, and, or)."
             msgs.
Proof.
  destruct (ValidatePolicy_rejects_operator_count (H := sample.lib) operatorless_policy
              {| MandatoryKeys := []; Validations := ∅; Rules := [operatorless_rule] |}
              operatorless_rule no_condition) as [Hreject _].
  - right. eexists _, "s3", _, "bucket", _. split_and!; reflexivity.
  - by left.
  - reflexivity.
  - apply Hreject. discriminate.
Defined.

(** * The structural violations a policy validation collects *)

Import violations.

(** ** The walk of the validator finds exactly the structural violations *)







Section Violations.
Context `{!GoLib}.









End Violations.

Section ConditionTrees.
Context `{!GoLib}.








End ConditionTrees.

Lemma In_flat_map_to_list {V B} (f : string * V → list B) (m : gmap string V) (e : B) :
  In e (flat_map f (map_to_list m)) ↔ ∃ k v, m !! k = Some v ∧ In e (f (k, v)).
Proof.
  rewrite in_flat_map. split.
  - intros ([k v] & Hin & He). exists k, v. split; [|done].
    by apply elem_of_map_to_list, list_elem_of_In.
  - intros (k & v & Hkv & He). exists (k, v). split; [|done].
    by apply list_elem_of_In, elem_of_map_to_list.
Qed.

Section PolicyViolations.
Context `{!GoLib}.










End PolicyViolations.

Section CollectsAll.
Context `{!GoLib}.


End CollectsAll.


Section AcceptedPolicies.
Context `{!GoLib}.

(** Every definition [ProcessPolicy] returns is what [processResource]
    returns for a declared resource. *)
Lemma ProcessPolicy_In (config : Policy)
      (l : list (string * string * option ResourceConfig))
      (acc defs : list ResourceDefinition) (def : ResourceDefinition) :
  policy.foldM
    (fun definitions '(service, resourceType, resourceConfig) =>
       match policy.processResource config service resourceType resourceConfig with
       | None => None
       | Some definition => Some (definitions ++ [definition])
       end) acc l = Some defs →
  In def defs →
  In def acc ∨
  ∃ service resourceType resourceConfig,
    In (service, resourceType, resourceConfig) l ∧
    policy.processResource config service resourceType resourceConfig = Some def.
Proof.
  revert acc. induction l as [|[[service resourceType] orc] l IH]; intros acc Hfold Hin.
  - injection Hfold as <-. by left.
  - cbn [policy.foldM] in Hfold.
    destruct (policy.processResource config service resourceType orc) as [d|] eqn:Hd;
      [|done].
    destruct (IH _ Hfold Hin) as [Hacc|(s & t & rc & Hl & Hdef)].
    + apply in_app_iff in Hacc as [Hacc|[<-|[]]]; [by left|].
      right. exists service, resourceType, orc. split; [by left|done].
    + right. exists s, t, rc. split; [by right|done].
Qed.

Lemma declared_resources_config (config : Policy) (service resourceType : string)
      (rc : ResourceConfig) :
  In (service, resourceType, Some rc) (policy.declared_resources config) →
  declares_config config service resourceType rc.
Proof.
  unfold policy.declared_resources, declares_config.
  destruct (Resources config) as [services|]; [|done].
  rewrite In_flat_map_to_list. intros (sname & [sr|] & Hsr & Hin); [|done].
  apply in_map_iff in Hin as ([rname orc] & [= <- <- ->] & Hin).
  apply list_elem_of_In, elem_of_map_to_list in Hin.
  by exists services, sr.
Qed.

Lemma last_validation_Some (blueprints : gmap string (option Blueprint)) (key : string)
      (start : option Validation) (paths : list string) (v : Validation) :
  last_validation blueprints key start paths = Some v →
  start = Some v ∨
  ∃ path blueprint, In path paths ∧ resolved blueprints path = Some blueprint ∧
                    Validations blueprint !! key = Some v.
Proof.
  unfold last_validation. revert start.
  induction paths as [|path paths IH]; intros start Hlast; [by left|].
  cbn [foldl] in Hlast. apply IH in Hlast as [Hstart|(path' & bp & Hin & Hres & Hv)].
  - destruct (resolved blueprints path) as [bp|] eqn:Hres; [|by left].
    destruct (Validations bp !! key) as [w|] eqn:Hw; [|by left].
    right. exists path, bp. split_and!; [by left|done|congruence].
  - right. exists path', bp. split_and!; [by right|done..].
Qed.

(** A validation of a resolved definition is one the policy declares, in
    the configuration or in a blueprint. *)
Lemma processResource_validation_declared (config : Policy)
      (service resourceType : string) (rc : ResourceConfig) (def : ResourceDefinition)
      (key : string) (v : Validation) :
  declares_config config service resourceType rc →
  policy.processResource config service resourceType (Some rc) = Some def →
  Validations (RD_TagPolicy def) !! key = Some v →
  policy.declares_validation config v.
Proof.
  intros (services & sr & Hres & Hsr & Hrc) Hdef Hv.
  destruct (processResource_merged config service resourceType rc def Hdef)
    as (_ & _ & Hvals).
  rewrite Hvals in Hv. unfold own_policy in Hv.
  destruct (Config_TagPolicy rc) as [tp|] eqn:Htp; cbn [default from_option id] in Hv.
  - destruct (Validations tp !! key) as [w|] eqn:Hw.
    + injection Hv as ->. right.
      by exists services, service, sr, resourceType, rc, tp, key.
    + clear Htp Hw. revert Hv. unfold extended_validation.
      destruct (Blueprints config) as [blueprints|] eqn:Hbps; [|done].
      intros Hv. apply last_validation_Some in Hv as [Hv|(path & bp & _ & Hbp & Hv)];
        [done|].
      unfold resolved, policy.lookup_blueprint in Hbp.
      destruct (policy.blueprint_name path) as [name|]; [|done].
      destruct (blueprints !! name) as [[b|]|] eqn:Hb; [|done..].
      left. by exists blueprints, name, b, bp, key.
  - cbn [policy.empty_TagPolicy Validations] in Hv. rewrite lookup_empty in Hv.
    revert Hv. unfold extended_validation.
    destruct (Blueprints config) as [blueprints|] eqn:Hbps; [|done].
    intros Hv. apply last_validation_Some in Hv as [Hv|(path & bp & _ & Hbp & Hv)];
      [done|].
    unfold resolved, policy.lookup_blueprint in Hbp.
    destruct (policy.blueprint_name path) as [name|]; [|done].
    destruct (blueprints !! name) as [[b|]|] eqn:Hb; [|done..].
    left. by exists blueprints, name, b, bp, key.
Qed.

(** X17: the rule engine never meets a validation that structural
    validation would have refused.  Every validation of every definition
    [ParsePolicy] returns (so the policy passed [ValidatePolicy] and was
    resolved by [ProcessPolicy]) has one of the three types and fields that
    fit it, does not set both a pattern and allowed values, and has a
    pattern that is empty or compiles; hence [validateString] records at
    most one error for it, on every resource, key and value. *)
Theorem ParsePolicy_validations_guaranteed (p : Policy)
        (defs : list ResourceDefinition) (def : ResourceDefinition)
        (key : string) (v : Validation) :
  policy.ParsePolicy p = Some (inl defs) →
  In def defs →
  Validations (RD_TagPolicy def) !! key = Some v →
  (Type_ v = TagTypeBool ∨ Type_ v = TagTypeString ∨ Type_ v = TagTypeInt) ∧
  fits_type v ∧
  regex_xor_allowedvalues v ∧
  (Regex v = "" ∨ ∃ regex, regexp_Compile (Regex v) = Some regex) ∧
  (∀ r tag value, records_at_most_one r tag value v).
Proof.
  unfold policy.ParsePolicy. intros Hparse Hdef Hv.
  destruct (policy.ValidatePolicy (Some p)) as [err|] eqn:Hvalid; [done|].
  destruct (policy.ProcessPolicy p) as [defs'|] eqn:Hprocess; [|done].
  injection Hparse as ->.
  assert (Hdecl : policy.declares_validation p v).
  { destruct (ProcessPolicy_In p _ [] defs def Hprocess Hdef)
      as [[]|(service & resourceType & [rc|] & Hin & Hres)].
    - apply (processResource_validation_declared p service resourceType rc def key v);
        [by apply declared_resources_config|done..].
    - injection Hres as <-. cbn [RD_TagPolicy policy.empty_TagPolicy Validations] in Hv.
      by rewrite lookup_empty in Hv. }
  assert (Hnil : policy.validate_Validation v = []).
  { rewrite ValidatePolicy_unfold in Hvalid.
    destruct (policy.validate_Struct p) as [|e0 errs] eqn:Herrs; [|done].
    destruct (policy.validate_Validation v) as [|e es] eqn:Hes; [done|].
    exfalso.
    assert (Hin : In e (policy.validate_Struct p)).
    { apply (In_validate_Struct p v e Hdecl). rewrite Hes. by left. }
    by rewrite Herrs in Hin. }
  destruct (validate_Validation_nil_guarantees v Hnil) as (Htype & Hfits & Hxor & Hcompile).
  split_and!; [done..|].
  intros r tag value. unfold records_at_most_one.
  destruct (validateString_errors r tag value v) as [-> _].
  destruct Hxor as [Hre|Hav].
  - rewrite Hre. simpl. rewrite app_nil_r.
    destruct (not_allowed v value); rewrite ?app_nil_r, ?length_app; simpl; lia.
  - unfold not_allowed. rewrite Hav. simpl.
    destruct (negb (String.eqb (Regex v) "")); [|rewrite app_nil_r; lia].
    destruct (regexp_Compile (Regex v)) as [regex|]; [|rewrite app_nil_r; lia].
    destruct (MatchString regex value); rewrite ?app_nil_r, ?length_app; simpl; lia.
Qed.

End AcceptedPolicies.

Lemma ParsePolicy_validations_guaranteed_witness :
  ∃ defs def v,
    policy.ParsePolicy accepted_policy = Some (inl defs) ∧ In def defs ∧
    Validations (RD_TagPolicy def) !! "name" = Some v ∧ Regex v = "web" ∧
    regex_xor_allowedvalues v ∧
    (∃ regex, regexp_Compile (GoLib := sample.lib) (Regex v) = Some regex).
Proof.
  assert (Hrun : resolves_pattern accepted_policy "name" "web" = true)
    by (vm_compute; reflexivity).
  unfold resolves_pattern in Hrun.
  destruct (policy.ParsePolicy accepted_policy) as [[defs|err]|] eqn:Hparse; [|done..].
  apply existsb_exists in Hrun as (def & Hdef & Hname).
  destruct (Validations (RD_TagPolicy def) !! "name") as [v|] eqn:Hv; [|done].
  apply String.eqb_eq in Hname.
  destruct (ParsePolicy_validations_guaranteed (H := sample.lib) accepted_policy defs def
              "name" v Hparse Hdef Hv) as (_ & _ & Hxor & Hcompile & _).
  exists defs, def, v. split_and!; [done..|].
  destruct Hcompile as [Hempty|Hregex]; [|done]. by rewrite Hname in Hempty.
Defined.

(** * Further properties of the orchestrator *)

Section OrchestratorInvariants.
Context `{!GoLib}.
Variable FindResources : string → string → list AWSResource * option string.
Variable opts : patrol.Options.

(** An invariant of every step holds after every schedule. *)
Lemma run_invariant (P : patrol.State → Prop) (schedule : list patrol.Event)
      (s s' : patrol.State) :
  (∀ e s1 s2, patrol.step FindResources opts e s1 = Some s2 → P s1 → P s2) →
  patrol.run FindResources opts schedule s = Some s' → P s → P s'.
Proof.
  intros Hstep. revert s. induction schedule as [|e schedule IH]; intros s Hrun HP.
  - by injection Hrun as <-.
  - simpl in Hrun.
    destruct (patrol.step FindResources opts e s) as [s1|] eqn:He; [|done].
    apply (IH s1 Hrun). by apply (Hstep e s).
Qed.

(** Once [Run] has returned, no step changes what it returned. *)
Lemma step_Returned (e : patrol.Event) (s s' : patrol.State)
      (out : list patrol.Result) (err : option string) :
  patrol.step FindResources opts e s = Some s' →
  patrol.main s = patrol.Returned out err →
  patrol.main s' = patrol.Returned out err.
Proof.
  intros Hstep Hmain. destruct e; simpl in Hstep; rewrite ?Hmain in Hstep;
    repeat case_match; simplify_eq; done.
Qed.

Lemma step_conserved (definitions : list ResourceDefinition)
      (e : patrol.Event) (s s' : patrol.State) :
  patrol.step FindResources opts e s = Some s' →
  running_main s' →
  (running_main s → conserved FindResources definitions s) →
  conserved FindResources definitions s'.
Proof.
  intros Hstep Hmain' Hcons.
  assert (Hmain : running_main s).
  { intros out err Hret. apply (Hmain' out err).
    by apply (step_Returned e s s' out err Hstep). }
  destruct (Hcons Hmain) as (finished & Hres & Hperm).
  unfold conserved, patrol.pending in *.
  destruct e; simpl in Hstep.
  - destruct (negb (patrol.doneClosed s) && (patrol.wg s =? 0)); simplify_eq.
    by exists finished.
  - simplify_eq. by exists finished.
  - destruct (patrol.main s) as [[|def rest]|def rest|out err] eqn:Hm; try done.
    destruct (patrol.errorCh s) as [buffered|], (patrol.StopOnError opts),
      (patrol.cancelled s); simplify_eq;
      try (by exfalso; eapply Hmain'); by exists finished.
  - destruct (patrol.main s) as [rest|def rest|out err] eqn:Hm; try done.
    destruct (patrol.semaphore s <? patrol.ConcurrentWorkers opts); simplify_eq.
    exists finished. split; [done|]. simpl.
    by rewrite <- (app_assoc (patrol.running s)).
  - destruct (patrol.running s !! i) as [def|] eqn:Hrun; simplify_eq.
    exists (finished ++ [def]). split; [simpl; by rewrite map_app, Hres|]. simpl.
    rewrite <- Hperm.
    rewrite (delete_Permutation (patrol.running s) i def Hrun) at 2.
    rewrite <- !app_assoc. simpl. done.
  - destruct (patrol.main s) as [[|def rest]|def rest|out err] eqn:Hm; try done.
    destruct (patrol.doneClosed s); simplify_eq. by exfalso; eapply Hmain'.
  - destruct (patrol.main s) as [[|def rest]|def rest|out err] eqn:Hm; try done.
    destruct (patrol.cancelled s); simplify_eq. by exfalso; eapply Hmain'.
  - destruct (patrol.main s) as [[|def rest]|def rest|out err] eqn:Hm; try done.
    destruct (patrol.errorCh s); simplify_eq. by exfalso; eapply Hmain'.
Qed.

(** X22: [Run] neither loses nor duplicates work.  After any schedule, as
    long as [Run] has not returned, the recorded results are the workers'
    results of the finished definitions, and the finished, the running and
    the pending definitions together are the input list up to order.  In
    particular, once every definition is dispatched and no worker is
    running, there is exactly one result per definition. *)
Theorem Run_conserves_definitions (definitions : list ResourceDefinition)
        (cancelled : bool) (schedule : list patrol.Event) (s : patrol.State) :
  patrol.run FindResources opts schedule (patrol.initial definitions cancelled) = Some s →
  running_main s →
  conserved FindResources definitions s ∧
  (patrol.main s = patrol.Looping [] → patrol.running s = [] →
   patrol.results s ≡ₚ map (patrol.worker FindResources) definitions).
Proof.
  intros Hrun Hmain.
  assert (Hcons : running_main s → conserved FindResources definitions s).
  { apply (run_invariant
             (fun s => running_main s → conserved FindResources definitions s)
             schedule (patrol.initial definitions cancelled) s); [|done|].
    - intros e s1 s2 Hstep H1 H2. by apply (step_conserved definitions e s1 s2).
    - intros _. exists []. by split. }
  split; [by apply Hcons|].
  intros Hloop Hrunning. destruct (Hcons Hmain) as (finished & -> & Hperm).
  unfold patrol.pending in Hperm. rewrite Hloop, Hrunning, !app_nil_r in Hperm.
  by rewrite Hperm.
Qed.



Lemma step_explained (e : patrol.Event) (s s' : patrol.State) :
  patrol.step FindResources opts e s = Some s' →
  explained opts s → explained opts s'.
Proof.
  intros Hstep [Hch Hret]. unfold explained.
  destruct e; simpl in Hstep.
  - destruct (negb (patrol.doneClosed s) && (patrol.wg s =? 0)); simplify_eq. done.
  - simplify_eq. simpl. split; [done|].
    intros out e Hmain. destruct (Hret out e Hmain) as [[-> _]|Hrec]; [by left|by right].
  - destruct (patrol.main s) as [[|def rest]|def rest|out err] eqn:Hm; try done.
    destruct (patrol.errorCh s) as [buffered|] eqn:Hbuf,
      (patrol.StopOnError opts) eqn:Hstop, (patrol.cancelled s) eqn:Hctx;
      simplify_eq; simpl; (split; [done|]); intros out e [= <- <-];
      try (by left); right; by apply Hch.
  - destruct (patrol.main s) as [rest|def rest|out err] eqn:Hm; try done.
    destruct (patrol.semaphore s <? patrol.ConcurrentWorkers opts); simplify_eq.
    simpl. split; [done|]. by intros out e.
  - destruct (patrol.running s !! i) as [def|] eqn:Hrun; simplify_eq. simpl. split.
    + intros e He.
      destruct (patrol.Error (patrol.worker FindResources def)) as [err|] eqn:Herr,
        (patrol.errorCh s) as [buffered|] eqn:Hbuf.
      * simplify_eq. destruct (Hch e eq_refl) as (Hstop & r & Hr & Hre).
        split; [done|]. exists r. split; [|done]. apply elem_of_app. by left.
      * destruct (patrol.StopOnError opts) eqn:Hstop; simplify_eq.
        split; [done|]. exists (patrol.worker FindResources def).
        split; [|done]. apply elem_of_app. right. apply list_elem_of_here.
      * simplify_eq. destruct (Hch e eq_refl) as (Hstop & r & Hr & Hre).
        split; [done|]. exists r. split; [|done]. apply elem_of_app. by left.
      * done.
    + exact Hret.
  - destruct (patrol.main s) as [[|def rest]|def rest|out err] eqn:Hm; try done.
    destruct (patrol.doneClosed s); simplify_eq. simpl. split; [done|]. by intros out e.
  - destruct (patrol.main s) as [[|def rest]|def rest|out err] eqn:Hm; try done.
    destruct (patrol.cancelled s) eqn:Hctx; simplify_eq. simpl. split; [done|].
    intros out e [= <- <-]. by left.
  - destruct (patrol.main s) as [[|def rest]|def rest|out err] eqn:Hm; try done.
    destruct (patrol.errorCh s) as [buffered|] eqn:Hbuf; simplify_eq. simpl.
    split; [done|]. intros out e [= <- <-]. right. by apply Hch.
Qed.

Lemma run_cancelled (schedule : list patrol.Event) (s s' : patrol.State) :
  patrol.run FindResources opts schedule s = Some s' →
  patrol.cancelled s' = true →
  patrol.cancelled s = true ∨ patrol.EvCancel ∈ schedule.
Proof.
  revert s. induction schedule as [|e schedule IH]; intros s Hrun Hctx.
  - injection Hrun as <-. by left.
  - simpl in Hrun.
    destruct (patrol.step FindResources opts e s) as [s1|] eqn:Hstep; [|done].
    destruct (IH s1 Hrun Hctx) as [Hs1|Hin]; [|right; by apply list_elem_of_further].
    destruct e; try (right; apply list_elem_of_here); left;
      simpl in Hstep; repeat case_match; by simplify_eq.
Qed.

(** X24: whatever the options and the schedule, an error returned by [Run]
    is explained: it is the cancellation error and the context was
    cancelled, at the start or by the caller during the run; or
    [StopOnError] is on and it is the error of one of the results [Run]
    returns with it.  So with [StopOnError] off and no cancellation [Run]
    returns no error. *)
Theorem Run_error_is_explained (definitions : list ResourceDefinition) (cancelled : bool)
        (schedule : list patrol.Event) (out : list patrol.Result) (e : string) :
  patrol.Run_returns FindResources opts definitions cancelled schedule (out, Some e) →
  (e = patrol.ctx_Err ∧ (cancelled = true ∨ patrol.EvCancel ∈ schedule)) ∨
  (patrol.StopOnError opts = true ∧ ∃ r, r ∈ out ∧ failed_with e r).
Proof.
  intros (s & Hrun & Hret). unfold patrol.returned in Hret.
  destruct (patrol.main s) as [rest|def rest|out' err'] eqn:Hmain; simplify_eq.
  assert (Hexp : explained opts s).
  { apply (run_invariant (explained opts) schedule
             (patrol.initial definitions cancelled) s); [|done|].
    - intros ev s1 s2. apply step_explained.
    - by split. }
  destruct Hexp as [_ Hexp].
  destruct (Hexp out e Hmain) as [[-> Hctx]|Hrec]; [left|by right].
  split; [done|]. by apply (run_cancelled schedule _ s Hrun).
Qed.

Lemma step_never_started (definitions : list ResourceDefinition)
      (e : patrol.Event) (s s' : patrol.State) :
  definitions ≠ [] →
  patrol.step FindResources opts e s = Some s' →
  never_started definitions s → never_started definitions s'.
Proof.
  intros Hne Hstep (Hrun & Hres & Hch & Hctx & Hmain). unfold never_started.
  destruct e; simpl in Hstep.
  - destruct (negb (patrol.doneClosed s) && (patrol.wg s =? 0)); simplify_eq. done.
  - simplify_eq. done.
  - rewrite Hch, Hctx, Hres in Hstep.
    destruct Hmain as [Hm|Hm]; rewrite Hm in Hstep; [|done].
    destruct definitions as [|def rest]; [done|].
    destruct (patrol.StopOnError opts); simplify_eq; simpl; split_and!; try done;
      by right.
  - destruct Hmain as [Hm|Hm]; rewrite Hm in Hstep; done.
  - by rewrite Hrun in Hstep.
  - destruct Hmain as [Hm|Hm]; rewrite Hm in Hstep; [|done].
    by destruct definitions.
  - destruct Hmain as [Hm|Hm]; rewrite Hm in Hstep; [|done].
    by destruct definitions.
  - destruct Hmain as [Hm|Hm]; rewrite Hm, ?Hch in Hstep; [|done].
    by destruct definitions.
Qed.

(** X25: on a context that is cancelled before the call and a non-empty
    list of definitions, [Run] starts no worker and fetches nothing under
    any schedule; its first step returns, and every return is the empty
    result list with the cancellation error. *)
Theorem Run_cancelled_before_start (definitions : list ResourceDefinition) :
  definitions ≠ [] →
  patrol.Run_returns FindResources opts definitions true [patrol.EvIterate]
                     ([], Some patrol.ctx_Err) ∧
  (∀ schedule s,
     patrol.run FindResources opts schedule (patrol.initial definitions true) = Some s →
     patrol.running s = [] ∧ patrol.results s = []) ∧
  (∀ schedule out err,
     patrol.Run_returns FindResources opts definitions true schedule (out, err) →
     out = [] ∧ err = Some patrol.ctx_Err).
Proof.
  intros Hne.
  assert (Hinv : ∀ schedule s,
             patrol.run FindResources opts schedule (patrol.initial definitions true)
               = Some s → never_started definitions s).
  { intros schedule s Hrun.
    apply (run_invariant (never_started definitions) schedule
             (patrol.initial definitions true) s); [|done|].
    - intros e s1 s2. by apply step_never_started.
    - unfold never_started. simpl. split_and!; try done. by left. }
  split_and!.
  - destruct definitions as [|def rest]; [done|].
    apply Run_returns_run. simpl. by destruct (patrol.StopOnError opts).
  - intros schedule s Hrun. by destruct (Hinv schedule s Hrun) as (? & ? & _).
  - intros schedule out err (s & Hrun & Hret).
    destruct (Hinv schedule s Hrun) as (_ & _ & _ & _ & [Hm|Hm]);
      unfold patrol.returned in Hret; rewrite Hm in Hret; by simplify_eq.
Qed.

End OrchestratorInvariants.

Lemma all_finished_run :
  patrol.run failing_s3 one_worker all_finished_schedule
             (patrol.initial three_definitions false) = Some all_finished_state.
Proof. vm_cast_no_check (eq_refl (Some all_finished_state)). Qed.

Lemma Run_conserves_definitions_witness :
  patrol.results all_finished_state ≡ₚ map (patrol.worker failing_s3) three_definitions.
Proof.
  destruct (Run_conserves_definitions (H := sample.lib) failing_s3 one_worker
              three_definitions false all_finished_schedule all_finished_state
              all_finished_run) as [_ Hall].
  - intros out err. discriminate.
  - by apply Hall.
Defined.


Lemma Run_error_is_explained_witness :
  patrol.StopOnError stop_on_error = true ∧
  ∃ r, r ∈ [patrol.worker failing_s3 s3_bucket] ∧ failed_with s3_error r.
Proof.
  destruct (Run_error_is_explained (H := sample.lib) failing_s3 stop_on_error
              failing_first false stop_schedule
              [patrol.worker failing_s3 s3_bucket] s3_error) as [[_ [Hc|Hc]]|Hrec].
  - apply Run_returns_run.
    vm_cast_no_check
      (eq_refl (Some ([patrol.worker failing_s3 s3_bucket], Some s3_error))).
  - discriminate Hc.
  - exfalso. unfold stop_schedule in Hc. rewrite !elem_of_cons in Hc.
    destruct Hc as [Hc|[Hc|[Hc|[Hc|Hc]]]]; try discriminate Hc. by inversion Hc.
  - exact Hrec.
Defined.

Lemma Run_cancelled_before_start_witness :
  patrol.Run_returns failing_s3 one_worker three_definitions true [patrol.EvIterate]
                     ([], Some patrol.ctx_Err).
Proof.
  destruct (Run_cancelled_before_start (H := sample.lib) failing_s3 one_worker
              three_definitions) as [Hfirst _]; [discriminate|exact Hfirst].
Defined.

(** * The summary of the results *)

Section SummaryTotals.
Context `{!GoLib}.
Variable FindResources : string → string → list AWSResource * option string.

Lemma filter_partition_length {A} (f : A → bool) (l : list A) :
  Z.of_nat (length (List.filter f l)) +
  Z.of_nat (length (List.filter (fun x => negb (f x)) l)) = Z.of_nat (length l).
Proof.
  induction l as [|x l IH]; [done|].
  cbn [List.filter length]. destruct (f x); cbn [negb length]; lia.
Qed.

(** The counts of a worker's result add up to its resources. *)
Lemma worker_counts (def : ResourceDefinition) :
  patrol.CompliantCount (patrol.worker FindResources def) +
  patrol.NonCompliantCount (patrol.worker FindResources def) =
  Z.of_nat (length (patrol.Resources (patrol.worker FindResources def))).
Proof.
  unfold patrol.worker.
  destruct (FindResources (Service def) (ResourceType def)) as [resources [err|]];
    [done|].
  unfold ruler.ValidateAll. rewrite ValidateAll_foldl. cbn [app].
  cbn [patrol.CompliantCount patrol.NonCompliantCount patrol.Resources].
  rewrite !Z.add_0_l. apply filter_partition_length.
Qed.

Lemma Summary_foldl (definitions : list ResourceDefinition) (t : patrol.Totals) :
  let t' :=
    foldl (fun totals result =>
             match patrol.Error result with
             | Some _ =>
                 {| patrol.processed := patrol.processed totals;
                    patrol.totalResources := patrol.totalResources totals;
                    patrol.totalCompliant := patrol.totalCompliant totals;
                    patrol.totalNonCompliant := patrol.totalNonCompliant totals;
                    patrol.definitionsWithErrors := patrol.definitionsWithErrors totals + 1 |}
             | None =>
                 {| patrol.processed := patrol.processed totals;
                    patrol.totalResources :=
                      patrol.totalResources totals +
                      Z.of_nat (length (patrol.Resources result));
                    patrol.totalCompliant :=
                      patrol.totalCompliant totals + patrol.CompliantCount result;
                    patrol.totalNonCompliant :=
                      patrol.totalNonCompliant totals + patrol.NonCompliantCount result;
                    patrol.definitionsWithErrors := patrol.definitionsWithErrors totals |}
             end)
          t (map (patrol.worker FindResources) definitions) in
  patrol.processed t' = patrol.processed t ∧
  patrol.totalCompliant t' + patrol.totalNonCompliant t' - patrol.totalResources t' =
    patrol.totalCompliant t + patrol.totalNonCompliant t - patrol.totalResources t ∧
  patrol.definitionsWithErrors t' =
    patrol.definitionsWithErrors t +
    Z.of_nat (length (List.filter
                        (fun def => bool_decide
                           (is_Some (FindResources (Service def) (ResourceType def)).2))
                        definitions)).
Proof.
  revert t. induction definitions as [|def definitions IH]; intros t.
  - simpl. split_and!; [done|done|lia].
  - cbn [map foldl List.filter]. cbv zeta in IH |- *.
    pose proof (worker_counts def) as Hcounts.
    destruct (patrol.Error (patrol.worker FindResources def)) as [err|] eqn:Herr.
    + destruct (IH {| patrol.processed := patrol.processed t;
                      patrol.totalResources := patrol.totalResources t;
                      patrol.totalCompliant := patrol.totalCompliant t;
                      patrol.totalNonCompliant := patrol.totalNonCompliant t;
                      patrol.definitionsWithErrors := patrol.definitionsWithErrors t + 1 |})
        as (Hp & Hsum & Herrs).
      rewrite Hp, Hsum, Herrs. cbn [patrol.processed patrol.totalResources
        patrol.totalCompliant patrol.totalNonCompliant patrol.definitionsWithErrors].
      unfold patrol.worker in Herr.
      destruct (FindResources (Service def) (ResourceType def)) as [resources [e|]].
      * cbn [snd]. rewrite bool_decide_eq_true_2 by by eexists.
        cbn [length]. split_and!; [done|done|lia].
      * by destruct (ruler.ValidateAll resources (RD_TagPolicy def)) as [[? ?] ?].
    + destruct (IH {| patrol.processed := patrol.processed t;
                      patrol.totalResources :=
                        patrol.totalResources t +
                        Z.of_nat (length (patrol.Resources
                                            (patrol.worker FindResources def)));
                      patrol.totalCompliant :=
                        patrol.totalCompliant t +
                        patrol.CompliantCount (patrol.worker FindResources def);
                      patrol.totalNonCompliant :=
                        patrol.totalNonCompliant t +
                        patrol.NonCompliantCount (patrol.worker FindResources def);
                      patrol.definitionsWithErrors := patrol.definitionsWithErrors t |})
        as (Hp & Hsum & Herrs).
      rewrite Hp, Hsum, Herrs. cbn [patrol.processed patrol.totalResources
        patrol.totalCompliant patrol.totalNonCompliant patrol.definitionsWithErrors].
      unfold patrol.worker in Herr.
      destruct (FindResources (Service def) (ResourceType def)) as [resources [e|]].
      * done.
      * cbn [snd]. rewrite bool_decide_eq_false_2 by by intros [? ?].
        split_and!; [done|lia|done].
Qed.

(** X26: over the results of the workers for a list of definitions, the
    totals of [Summary] are consistent: the processed count is the number
    of definitions, the compliant and non-compliant totals add up to the
    resources found, and the error count is the number of definitions
    whose fetch failed, whose results add nothing to the other totals. *)
Theorem Summary_totals_consistent (definitions : list ResourceDefinition) :
  let t := patrol.Summary_totals (map (patrol.worker FindResources) definitions) in
  patrol.processed t = Z.of_nat (length definitions) ∧
  patrol.totalCompliant t + patrol.totalNonCompliant t = patrol.totalResources t ∧
  patrol.definitionsWithErrors t =
    Z.of_nat (length (List.filter
                        (fun def => bool_decide
                           (is_Some (FindResources (Service def) (ResourceType def)).2))
                        definitions)) ∧
  0 ≤ patrol.definitionsWithErrors t ≤ patrol.processed t.
Proof.
  intros t. unfold t, patrol.Summary_totals.
  destruct (Summary_foldl definitions
              {| patrol.processed :=
                   Z.of_nat (length (map (patrol.worker FindResources) definitions));
                 patrol.totalResources := 0; patrol.totalCompliant := 0;
                 patrol.totalNonCompliant := 0; patrol.definitionsWithErrors := 0 |})
    as (Hp & Hsum & Herrs).
  cbv zeta in Hp, Hsum, Herrs.
  cbn [patrol.processed patrol.totalResources patrol.totalCompliant
       patrol.totalNonCompliant patrol.definitionsWithErrors] in Hp, Hsum, Herrs.
  pose proof (filter_partition_length
                (fun def => bool_decide
                   (is_Some (FindResources (Service def) (ResourceType def)).2))
                definitions) as Hpart.
  split_and!.
  - by rewrite Hp, length_map.
  - lia.
  - rewrite Herrs. lia.
  - rewrite Herrs. lia.
  - rewrite Herrs, Hp, length_map. clear -Hpart. cbv beta in Hpart. lia.
Qed.

End SummaryTotals.

(** * The Resource Explorer provider *)

(** X27: [unmarshalTags] maps every key to the value of the last listed
    tag with that key, has no entry for a key no tag has, and gives the
    empty map when the document cannot be decoded. *)
Theorem unmarshalTags_last_wins (tags : list aws.Tag) (key : string) :
  aws.unmarshalTags (Some tags) !! key = aws.Value <$> aws.last_tag tags key ∧
  (aws.unmarshalTags (Some tags) !! key = None ↔
   ∀ tag, tag ∈ tags → aws.Key tag ≠ key) ∧
  aws.unmarshalTags None = ∅.
Proof.
  assert (Hlast : aws.unmarshalTags (Some tags) !! key =
                    aws.Value <$> aws.last_tag tags key).
  { unfold aws.unmarshalTags, aws.last_tag.
    induction tags as [|tag tags IH] using rev_ind; [done|].
    rewrite foldl_app, rev_app_distr. cbn [foldl rev app List.find].
    destruct (String.eqb_spec (aws.Key tag) key) as [<-|Hne].
    - by rewrite lookup_insert_eq.
    - by rewrite lookup_insert_ne. }
  split_and!; [done| |done].
  rewrite Hlast. unfold aws.last_tag. split.
  - intros Hnone tag Hin Hkey.
    destruct (List.find (fun tag => String.eqb (aws.Key tag) key) (rev tags)) eqn:Hfind;
      [done|].
    assert (Hfalse : String.eqb (aws.Key tag) key = false).
    { apply (find_none _ _ Hfind tag). rewrite <- in_rev. by apply list_elem_of_In. }
    apply String.eqb_neq in Hfalse. by apply Hfalse.
  - intros Hall.
    destruct (List.find (fun tag => String.eqb (aws.Key tag) key) (rev tags)) as [tag|]
      eqn:Hfind; [|done].
    apply find_some in Hfind as [Hin Hkey]. apply String.eqb_eq in Hkey.
    exfalso. apply (Hall tag); [|done]. apply list_elem_of_In. by apply in_rev.
Qed.

Lemma to_AWSResource_Tags (r : aws.Resource) :
  Tags (aws.to_AWSResource r) =
    match aws.tags_property r with
    | Some prop => aws.unmarshalTags (aws.Data prop)
    | None => ∅
    end.
Proof.
  unfold Tags, aws.to_AWSResource, aws.tags_property. cbn [ResourceTags].
  induction (aws.Properties r) as [|prop props IH] using rev_ind; [done|].
  rewrite foldl_app, rev_app_distr. cbn [foldl rev app List.find].
  destruct (String.eqb (aws.Name prop) "tags"); [done|]. exact IH.
Qed.

(** X28: a resource built from a search result carries no finding and is
    compliant; its tags are those of its last property named tags,
    decoded by [unmarshalTags], and the empty map when no property has
    that name, so a key is tagged only if that property lists it. *)
Theorem FindResources_resource_tags (r : aws.Resource) (key : string) :
  IsCompliant (aws.to_AWSResource r) = true ∧
  ComplianceErrors (aws.to_AWSResource r) = [] ∧
  ComplianceWarnings (aws.to_AWSResource r) = [] ∧
  Tags (aws.to_AWSResource r) !! key =
    match aws.tags_property r with
    | Some prop =>
        match aws.Data prop with
        | Some tags => aws.Value <$> aws.last_tag tags key
        | None => None
        end
    | None => None
    end.
Proof.
  split_and!; [done..|].
  rewrite to_AWSResource_Tags.
  destruct (aws.tags_property r) as [prop|]; [|done].
  destruct (aws.Data prop) as [tags|]; [|done].
  unfold aws.unmarshalTags, aws.last_tag.
  induction tags as [|tag tags IH] using rev_ind; [done|].
  rewrite foldl_app, rev_app_distr. cbn [foldl rev app List.find].
  destruct (String.eqb_spec (aws.Key tag) key) as [<-|Hne].
  - by rewrite lookup_insert_eq.
  - by rewrite lookup_insert_ne.
Qed.

Lemma FindResources_loop_serves Search viewARN serviceName resourceName
      pages failure :
  ∀ fuel token resources,
    aws.serves Search viewARN serviceName resourceName token pages failure →
    (length pages < fuel)%nat →
    aws.FindResources_loop Search viewARN fuel serviceName resourceName
                           resources token =
      Some (match failure with
            | Some err => ([], Some err)
            | None =>
                (resources ++
                   concat (map (fun page => map aws.to_AWSResource (aws.Resources page))
                               pages),
                 None)
            end).
Proof.
  induction pages as [|page pages IH]; intros fuel token resources Hserves Hfuel.
  - destruct fuel as [|fuel]; [simpl in Hfuel; lia|].
    cbn [aws.serves] in Hserves. destruct failure as [err|]; [|done].
    cbn [aws.FindResources_loop]. by rewrite Hserves.
  - destruct fuel as [|fuel]; [simpl in Hfuel; lia|].
    cbn [aws.serves] in Hserves. destruct Hserves as [Hpage Hnext].
    cbn [aws.FindResources_loop]. rewrite Hpage. cbv zeta.
    destruct (aws.Output_NextToken page) as [next|].
    + rewrite (IH fuel (Some next) _ Hnext); [|simpl in Hfuel; lia].
      destruct failure; [done|].
      cbn [map concat]. by rewrite <- app_assoc.
    + destruct Hnext as [-> ->]. cbn [map concat]. by rewrite app_nil_r.
Qed.

(** X29: when the client answers the requests of a search (the first
    without a token, each later one with the token of the page before)
    with a chain of pages, [FindResources] ends after one request per
    page and returns the resources of all pages, in page order, with no
    error; when a request of the chain fails instead, it returns that
    error and no resource at all, whatever the pages before held. *)
Theorem FindResources_pages (Search : aws.SearchInput → aws.SearchOutput + string)
        (viewARN serviceName resourceName : string)
        (pages : list aws.SearchOutput) (failure : option string) (fuel : nat) :
  aws.serves Search viewARN serviceName resourceName None pages failure →
  (length pages < fuel)%nat →
  aws.FindResources Search viewARN fuel serviceName resourceName =
    Some (match failure with
          | Some err => ([], Some err)
          | None =>
              (concat (map (fun page => map aws.to_AWSResource (aws.Resources page))
                           pages),
               None)
          end).
Proof.
  intros Hserves Hfuel. unfold aws.FindResources.
  by rewrite (FindResources_loop_serves _ _ _ _ pages failure fuel None []).
Qed.

Lemma FindResources_pages_witness :
  (aws.serves aws.two_pages "" "s3" "bucket" None
              [aws.first_page; aws.second_page] None ∧
   (length [aws.first_page; aws.second_page] < 3)%nat) ∧
  aws.ARNs (aws.FindResources aws.two_pages "" 3 "s3" "bucket") =
    Some (["arn:aws:s3:::logs"; "arn:aws:s3:::data"], None) ∧
  (aws.serves aws.failing_second "" "s3" "bucket" None
              [aws.first_page] (Some "throttled") ∧
   (length [aws.first_page] < 2)%nat) ∧
  aws.ARNs (aws.FindResources aws.failing_second "" 2 "s3" "bucket") =
    Some ([], Some "throttled").
Proof.
  assert (H1 : aws.serves aws.two_pages "" "s3" "bucket" None
                          [aws.first_page; aws.second_page] None)
    by (simpl; split_and!; reflexivity).
  assert (H2 : aws.serves aws.failing_second "" "s3" "bucket" None
                          [aws.first_page] (Some "throttled"))
    by (simpl; split_and!; reflexivity).
  split; [|split; [|split]].
  - split; [exact H1|simpl; lia].
  - rewrite (FindResources_pages aws.two_pages "" "s3" "bucket"
               [aws.first_page; aws.second_page] None 3 H1 ltac:(simpl; lia)).
    reflexivity.
  - split; [exact H2|simpl; lia].
  - rewrite (FindResources_pages aws.failing_second "" "s3" "bucket"
               [aws.first_page] (Some "throttled") 2 H2 ltac:(simpl; lia)).
    reflexivity.
Defined.

(** * Further concrete runs *)

Lemma evaluateCondition_leaf_edges_witness :
  let r := fresh "arn:aws:ec2:instance/i-1" {[ "ttl" := "soon" ]} in
  (Tags r !! "owner" = None ∧
   ruler.evaluateCondition (H := sample.lib) r
     (Some (Equals_condition (H := sample.lib) "owner" "ops")) = false) ∧
  (Tags r !! "ttl" = Some "soon" ∧
   ParseFloat (GoLib := sample.lib) "soon" = None ∧
   ruler.evaluateCondition (H := sample.lib) r
     (Some (GreaterThan_condition (H := sample.lib) "ttl" 5)) = false).
Proof.
  intros r.
  assert (Howner : Tags r !! "owner" = None) by reflexivity.
  assert (Httl : Tags r !! "ttl" = Some "soon") by reflexivity.
  assert (Hparse : ParseFloat (GoLib := sample.lib) "soon" = None) by reflexivity.
  split.
  - split; [exact Howner|].
    destruct (evaluateCondition_leaf_edges (H := sample.lib) r "owner") as [Habsent _].
    by destruct (Habsent Howner "ops" "" 0) as (_ & Hequals & _).
  - split; [exact Httl|]. split; [exact Hparse|].
    destruct (evaluateCondition_leaf_edges (H := sample.lib) r "ttl") as [_ Hpresent].
    destruct (Hpresent "soon" Httl) as (_ & _ & Hnumeric).
    by destruct (Hnumeric Hparse 5) as [Hgt _].
Defined.

Lemma ProcessPolicy_one_definition_per_resource_witness :
  ∃ defs,
    policy.ProcessPolicy operatorless_policy = Some defs ∧
    map definition_pair defs = [("s3", "bucket")] ∧
    length defs = 1%nat.
Proof.
  destruct (policy.ProcessPolicy operatorless_policy) as [defs|] eqn:Hdefs.
  - exists defs. split; [done|].
    destruct (ProcessPolicy_one_definition_per_resource (H := sample.lib)
                operatorless_policy) as (_ & Hpairs & _).
    destruct (Hpairs defs Hdefs) as [Hmap Hlen].
    split; [rewrite Hmap|rewrite Hlen]; reflexivity.
  - exfalso.
    assert (Hsome : from_option (fun _ => true) false
                      (policy.ProcessPolicy operatorless_policy) = true)
      by (vm_compute; reflexivity).
    rewrite Hdefs in Hsome. discriminate Hsome.
Defined.

Lemma ValidatePolicy_rejects_missing_resources_witness :
  Resources merge_policy = None ∧
  ∃ msgs, policy.ValidatePolicy (Some merge_policy) = Some (policy.ParserErrors msgs) ∧
          In "resources is a required field" msgs ∧
          In "Resources is a required field" msgs.
Proof.
  split; [reflexivity|].
  destruct (ValidatePolicy_rejects_missing_resources (H := sample.lib) merge_policy)
    as [Hmissing _].
  exact (Hmissing eq_refl).
Defined.
